(** * Mutation resolvers of the team-collaboration backend

    A shallow embedding of three GraphQL mutation resolvers and of the
    store, publisher and request context they act on:

    - [archiveTeam]        (server/graphql/mutations/archiveTeam.js)
    - [AddGitHubRepo]      (server/graphql/mutations/addGitHubRepo)
    - [inviteTeamMembers]  (server/graphql/mutations/inviteTeamMembers)

    RethinkDB tables are finite maps from primary key to document, a ReQL
    query is one function on the store, [getPubSub().publish] appends to a
    log, and a resolver is a computation in a state-and-exception monad
    over the [World]; a rejected promise or a JavaScript [throw] is the
    [Thrown] outcome, and what was written before it stays written. *)

From stdpp Require Import base strings pretty gmap list fin_maps.
From Stdlib Require Import ZArith.

Open Scope Z_scope.
Open Scope nat_scope.
Open Scope string_scope.
Open Scope list_scope.

(** ** Documents *)

Module Doc.

(** Row of table [Team].  The primary key [id] is the key of the table
    map; a missing [isArchived] field reads as [false]. *)
Record Team := mkTeam {
  team_name : string;
  team_orgId : string;
  team_isArchived : bool
}.

Record TeamMember := mkTeamMember {
  tm_teamId : string;
  tm_userId : string;
  tm_isNotRemoved : bool;
  tm_preferredName : string;
  tm_picture : string
}.

Record User := mkUser {
  user_email : string;
  user_tms : list string
}.

Record Project := mkProject {
  project_teamId : string
}.

Inductive NotificationType := TEAM_ARCHIVED | REJOIN_TEAM.

Record Notification := mkNotification {
  n_orgId : string;
  n_startAt : Z;
  n_type : NotificationType;
  n_userIds : list string;
  n_teamName : string
}.

Inductive Service := GITHUB | SLACK.

Record Provider := mkProvider {
  p_teamId : string;
  p_userId : string;
  p_service : Service;
  p_isActive : bool;
  p_accessToken : string
}.

(** Row of the integration table [r.table(GITHUB)]. *)
Record GitHubRepo := mkGitHubRepo {
  gh_adminUserId : string;
  gh_createdAt : Z;
  gh_updatedAt : Z;
  gh_isActive : bool;
  gh_nameWithOwner : string;
  gh_teamId : string;
  gh_userIds : list string
}.

#[global] Instance Team_eq_dec : EqDecision Team.
Proof. solve_decision. Defined.
#[global] Instance NotificationType_eq_dec : EqDecision NotificationType.
Proof. solve_decision. Defined.
#[global] Instance Service_eq_dec : EqDecision Service.
Proof. solve_decision. Defined.
#[global] Instance GitHubRepo_eq_dec : EqDecision GitHubRepo.
Proof. solve_decision. Defined.

End Doc.
Import Doc.

(** The document store: one finite map per table. *)
Record Store := mkStore {
  Team_table : gmap string Team;
  TeamMember_table : gmap string TeamMember;
  User_table : gmap string User;
  Project_table : gmap string Project;
  Notification_table : gmap string Notification;
  Provider_table : gmap string Provider;
  GitHub_table : gmap string GitHubRepo
}.

(** ** Published events *)

(** Event kinds, the constants interpolated before the dot of a topic. *)
Inductive EventKind :=
  | NEW_AUTH_TOKEN | NOTIFICATIONS_ADDED | TEAM | TEAM_MEMBER
  | subscriptions_TEAM      (* [TEAM] of universal/subscriptions/constants *)
  | githubRepoAdded_topic.  (* the literal prefix [githubRepoAdded] *)

#[global] Instance EventKind_eq_dec : EqDecision EventKind.
Proof. solve_decision. Defined.

(** A topic [`${kind}.${entity}`]. *)
Record Topic := mkTopic { topic_kind : EventKind; topic_entity : string }.

Inductive DataType := ADDED | UPDATED.

(** [{...newRepo, userIds, teamMembers}] *)
Record PublishedRepo := mkPublishedRepo {
  repo_id : string;
  repo_doc : GitHubRepo;
  repo_teamMembers : list (string * string * string)
}.

(** What a payload carries besides the correlation keys. *)
Inductive Body :=
  | notificationsAdded (notifications : list (string * Notification))
  | newAuthToken (token : string)
  | data_team (teamId : string) (type : DataType)
  | data_teamMember (teamMemberId : string) (notification : NotificationType * string * string)
      (type : DataType)
  | data_teamNotification (teamId : string) (notificationId : string) (type : DataType)
  | githubRepoAdded (repo : PublishedRepo).

(** A payload object; a correlation key is [None] when the object has no
    such key. *)
Record Payload := mkPayload {
  body : Body;
  operationId : option string;
  mutatorId : option string
}.

Record SubOptions := mkSubOptions { so_mutatorId : string; so_operationId : string }.

(** [{body, ...subOptions}]: spreading [undefined] adds no key. *)
Definition spread (b : Body) (subOptions : option SubOptions) : Payload :=
  match subOptions with
  | Some so => mkPayload b (Some (so_operationId so)) (Some (so_mutatorId so))
  | None => mkPayload b None None
  end.

(** ** Calls that leave the process *)

Inductive HttpMethod := GET | POST.

(** Body of an outbound request: the hook parameters built by
    [makeGitHubWebhookParams], or a query with its [login] variable. *)
Inductive RequestBody :=
  | NoBody
  | CreateHook (publicKey : string) (events : list string)
  | Query (query : string) (login : string).

Record HttpRequest := mkHttpRequest {
  req_method : HttpMethod;
  req_endpoint : string;
  req_accessToken : string;
  req_body : RequestBody
}.

(** What [await (await fetch(..)).json()] yields. *)
Inductive FetchResult :=
  | NetworkFailure
  | JsonArray (length : nat)
  | JsonProfile (errors : bool) (organization : option Z)
  | JsonOther.

Inductive PromiseState := Resolved | Rejected.

Inductive ExternalCall :=
  | sendSegmentEvent (event : string) (userId : string) (teamId : string)
  | auth0_updateAppMetadata (id : string) (tms : list string)
  | detached (task : string) (requests : list HttpRequest) (settled : PromiseState).

(** ** The world a resolver runs in *)

Record World := mkWorld {
  db : Store;
  published : list (Topic * Payload);
  external : list ExternalCall;
  shortid_calls : nat;
  share_calls : nat
}.

Inductive Failure :=
  | AuthorizationError
  | Error (message : string)
  | ReqlError (message : string)
  | TypeError.

Inductive Outcome (A : Type) :=
  | Returned (a : A)
  | Thrown (e : Failure).
Arguments Returned {A} a.
Arguments Thrown {A} e.

Definition M (A : Type) : Type := World → Outcome A * World.

Definition ret {A} (a : A) : M A := λ w, (Returned a, w).
Definition throw {A} (e : Failure) : M A := λ w, (Thrown e, w).
Definition bind {A B} (m : M A) (k : A → M B) : M B :=
  λ w, match m w with
       | (Returned a, w') => k a w'
       | (Thrown e, w') => (Thrown e, w')
       end.

Notation "x <- m ;; k" := (bind m (λ x, k))
  (at level 100, m at next level, right associativity).
Notation "m ;;; k" := (bind m (λ _, k))
  (at level 100, right associativity).

Definition set_db (s : Store) (w : World) : World :=
  mkWorld s (published w) (external w) (shortid_calls w) (share_calls w).

Definition getStore : M Store := λ w, (Returned (db w), w).
Definition putStore (s : Store) : M unit := λ w, (Returned tt, set_db s w).

(** [await query]: a ReQL expression runs against the store in one step;
    a failed expression rejects and writes nothing. *)
Definition reql {A} (q : Store → Failure + A * Store) : M A := λ w,
  match q (db w) with
  | inl e => (Thrown e, w)
  | inr (a, s') => (Returned a, set_db s' w)
  end.

(** [getPubSub().publish(topic, payload)] *)
Definition publish (t : Topic) (p : Payload) : M unit :=
  λ w, (Returned tt,
        mkWorld (db w) (published w ++ [(t, p)]) (external w) (shortid_calls w) (share_calls w)).

Definition call_external (c : ExternalCall) : M unit :=
  λ w, (Returned tt,
        mkWorld (db w) (published w) (external w ++ [c]) (shortid_calls w) (share_calls w)).

(** [list.forEach(f)] *)
Fixpoint forEach {A} (l : list A) (f : A → M unit) : M unit :=
  match l with
  | [] => ret tt
  | x :: l' => f x ;;; forEach l' f
  end.

(** ** Request context and imported helpers *)

Record AuthToken := mkAuthToken { sub : string; tms : list string }.

(** The third argument of [resolve].  [dataLoader_operationId] is the
    correlation id that [dataLoader.share()] hands out for this request. *)
Record Context := mkContext {
  authToken : AuthToken;
  dataLoader_operationId : string;
  socketId : string
}.

(** Answer of the source-control provider's query API to
    [tokenCanAccessRepo]: [{data: {repository}, errors}]. *)
Record Repository := mkRepository { viewerCanAdminister : bool; databaseId : Z }.
Record PermissionsResponse := mkPermissionsResponse {
  data_repository : option Repository;
  errors : bool
}.

(** Functions the resolvers import from modules outside the files
    embedded here.  They are parameters of the development. *)
Record Helpers := mkHelpers {
  getUserId : AuthToken → string;
  toTeamMemberId : string → string → string;
  fromTeamMemberId_userId : string → string;
  (* [true] when the awaited check passes, [false] when it raises *)
  requireTeamLead : Store → string → bool;
  requireOrgLeaderOrTeamMember : Store → AuthToken → string → bool;
  isTeamMember : AuthToken → string → bool;
  tmsSignToken : string → list string → string;
  (* the n-th identifier [shortid.generate()] produces *)
  shortid_generate : nat → string;
  tokenCanAccessRepo : string → string → PermissionsResponse;
  maybeJoinRepos :
    list (string * GitHubRepo) → list Provider → Store →
    Outcome (list (string * list string)) * Store;
  (* [node-fetch], with the parsed body of the answer; in the files
     embedded here only the two webhook tasks call it *)
  fetch : HttpRequest → FetchResult;
  GITHUB_ENDPOINT : string
}.

(** [dataLoader.share()] *)
Definition dataLoader_share (ctx : Context) : M string := λ w,
  (Returned (dataLoader_operationId ctx),
   mkWorld (db w) (published w) (external w) (shortid_calls w) (S (share_calls w))).

(** [shortid.generate()] *)
Definition shortid (h : Helpers) : M string := λ w,
  (Returned (shortid_generate h (shortid_calls w)),
   mkWorld (db w) (published w) (external w) (S (shortid_calls w)) (share_calls w)).

(** [list.map(f)] for an [f] that has effects. *)
Fixpoint mapM {A B} (f : A → M B) (l : list A) : M (list B) :=
  match l with
  | [] => ret []
  | x :: l' => y <- f x ;; ys <- mapM f l' ;; ret (y :: ys)
  end.

(** ** ReQL building blocks *)

Section ReQL.
Context {A : Type}.

(** [table.getAll(key, {index})] for a secondary index [ix]. *)
Definition getAll (ix : A → string) (key : string) (t : gmap string A)
  : list (string * A) :=
  filter (λ kv, ix kv.2 = key) (map_to_list t).

(** [table.insert(doc)] with the default conflict policy: a document
    whose primary key is taken is not written. *)
Definition insert_doc (id : string) (doc : A) (t : gmap string A) : gmap string A :=
  match t !! id with
  | Some _ => t
  | None => <[id := doc]> t
  end.

Definition insert_docs (docs : list (string * A)) (t : gmap string A) : gmap string A :=
  foldl (λ t kv, insert_doc kv.1 kv.2 t) t docs.
End ReQL.

Definition set_Team_table (t : gmap string Team) (s : Store) : Store :=
  mkStore t (TeamMember_table s) (User_table s) (Project_table s)
    (Notification_table s) (Provider_table s) (GitHub_table s).
Definition set_TeamMember_table (t : gmap string TeamMember) (s : Store) : Store :=
  mkStore (Team_table s) t (User_table s) (Project_table s)
    (Notification_table s) (Provider_table s) (GitHub_table s).
Definition set_User_table (t : gmap string User) (s : Store) : Store :=
  mkStore (Team_table s) (TeamMember_table s) t (Project_table s)
    (Notification_table s) (Provider_table s) (GitHub_table s).
Definition set_Notification_table (t : gmap string Notification) (s : Store) : Store :=
  mkStore (Team_table s) (TeamMember_table s) (User_table s) (Project_table s)
    t (Provider_table s) (GitHub_table s).
Definition set_GitHub_table (t : gmap string GitHubRepo) (s : Store) : Store :=
  mkStore (Team_table s) (TeamMember_table s) (User_table s) (Project_table s)
    (Notification_table s) (Provider_table s) t.

Definition set_isArchived (b : bool) (t : Team) : Team :=
  mkTeam (team_name t) (team_orgId t) b.
Definition set_tms (l : list string) (u : User) : User :=
  mkUser (user_email u) l.

(** ** archiveTeam *)

Module ArchiveTeam.

(** [doc] of the query: the plucked team, the project count and the user
    ids of the members that are not removed. *)
Record NotificationData := mkNotificationData {
  nd_projectCount : nat;
  nd_team_name : string;
  nd_team_orgId : string;
  nd_userIds : list string
}.

Record QueryResult := mkQueryResult {
  notificationData : option NotificationData;
  teamResult : option Team;
  userDocs : list (string * list string)
}.

(** [r.table('User').getAll(r.args(userIds)).update(user => ({tms:
    user('tms').difference([teamId])}), {returnChanges: true})
    ('changes')('new_val').pluck('id', 'tms')]: only documents the update
    changed are listed. *)
Fixpoint updateUsers (teamId : string) (userIds : list string) (users : gmap string User)
  : gmap string User * list (string * list string) :=
  match userIds with
  | [] => (users, [])
  | uid :: rest =>
      match users !! uid with
      | Some u =>
          let tms' := list_difference (user_tms u) [teamId] in
          if decide (tms' = user_tms u) then updateUsers teamId rest users
          else
            let '(users', changes) :=
              updateUsers teamId rest (<[uid := set_tms tms' u]> users) in
            (users', (uid, tms') :: changes)
      | None => updateUsers teamId rest users
      end
  end.

Definition activeUserIds (teamId : string) (s : Store) : list string :=
  (λ kv : string * TeamMember, tm_userId kv.2) <$>
    filter (λ kv : string * TeamMember, tm_isNotRemoved kv.2 = true)
      (getAll tm_teamId teamId (TeamMember_table s)).

Definition projectCount (teamId : string) (s : Store) : nat :=
  length (getAll project_teamId teamId (Project_table s)).

(** The single ReQL expression of [resolve]. *)
Definition query (teamId : string) (s : Store) : Failure + QueryResult * Store :=
  match Team_table s !! teamId with
  | None => inl (ReqlError "Cannot perform pluck on a non-object non-sequence `null`")
  | Some team =>
      let doc := mkNotificationData (projectCount teamId s) (team_name team)
                   (team_orgId team) (activeUserIds teamId s) in
      let '(users', changes) := updateUsers teamId (nd_userIds doc) (User_table s) in
      let s1 := set_User_table users' s in
      if decide (nd_projectCount doc = 0 ∧ length (nd_userIds doc) = 1) then
        (* Team has no projects nor addn'l TeamMembers, hard delete it *)
        let s2 := set_Team_table (delete teamId (Team_table s1)) s1 in
        let s3 := set_TeamMember_table
                    (filter (λ kv : string * TeamMember, tm_teamId kv.2 ≠ teamId)
                       (TeamMember_table s2)) s2 in
        inr (mkQueryResult None (Some team) changes, s3)
      else
        let team' := set_isArchived true team in
        if decide (team' = team) then
          inr (mkQueryResult (Some doc) None changes, s1)
        else
          let s2 := set_Team_table (<[teamId := team']> (Team_table s1)) s1 in
          inr (mkQueryResult (Some doc) (Some team') changes, s2)
  end.

Definition TeamUpdated : Type := string * Team.

Section Resolver.
Variable h : Helpers.

Definition publishAuthTokensWithoutTeam (userDocs : list (string * list string)) : M unit :=
  forEach userDocs (λ user,
    let '(id, tms) := user in
    call_external (auth0_updateAppMetadata id tms) ;;;
    publish (mkTopic NEW_AUTH_TOKEN id)
      (mkPayload (newAuthToken (tmsSignToken h id tms)) None None)).

Definition publishTeamArchivedNotifications
    (notifications : list (string * Notification)) (subOptions : option SubOptions)
  : M unit :=
  forEach notifications (λ notification,
    (* [notification.userIds[0]], interpolated into the topic *)
    let userId := default "undefined" (head (n_userIds notification.2)) in
    publish (mkTopic NOTIFICATIONS_ADDED userId)
      (spread (notificationsAdded [notification]) subOptions)).

Definition insertNotifications (notifications : list (string * Notification)) : M unit :=
  s <- getStore ;;
  putStore (set_Notification_table (insert_docs notifications (Notification_table s)) s).

Definition resolve (teamId : string) (ctx : Context) (now : Z) : M TeamUpdated :=
  let mutatorId := socketId ctx in
  operationId <- dataLoader_share ctx ;;
  (* AUTH *)
  let userId := getUserId h (authToken ctx) in
  let teamMemberId := toTeamMemberId h teamId userId in
  s <- getStore ;;
  (if requireTeamLead h s teamMemberId then ret tt else throw AuthorizationError) ;;;
  (* RESOLUTION *)
  call_external (sendSegmentEvent "Archive Team" userId teamId) ;;;
  res <- reql (query teamId) ;;
  match notificationData res with
  | Some nd =>
      notifications <- mapM (λ notifiedUserId,
                         id <- shortid h ;;
                         ret (id, mkNotification (nd_team_orgId nd) now TEAM_ARCHIVED
                                    [notifiedUserId] (nd_team_name nd)))
                       (nd_userIds nd) ;;
      insertNotifications notifications ;;;
      publishTeamArchivedNotifications notifications None
  | None => ret tt
  end ;;;
  match teamResult res with
  | None => throw (Error "Team was already archived")
  | Some teamResult =>
      let team := set_isArchived true teamResult in
      publish (mkTopic TEAM teamId)
        (mkPayload (data_team teamId UPDATED) (Some operationId) (Some mutatorId)) ;;;
      publishAuthTokensWithoutTeam (userDocs res) ;;;
      ret (teamId, team)
  end.
End Resolver.

End ArchiveTeam.

(** ** AddGitHubRepo *)

Module AddGitHubRepo.

(** What [resolve] returns: the value of [standardError(..)] or
    [{repo}]. *)
Inductive AddGitHubRepoPayload :=
  | standardError (message : string) (userId : string)
  | repoAdded (repo : PublishedRepo).

(** [nameWithOwner.split('/')[0]] *)
Fixpoint owner_of (nameWithOwner : string) : string :=
  match nameWithOwner with
  | EmptyString => EmptyString
  | String c rest => if Ascii.eqb c (Ascii.ascii_of_nat 47) then EmptyString else String c (owner_of rest)
  end.

Definition repo_events : list string :=
  ["issues"; "issue_comment"; "label"; "member"; "milestone"; "pull_request";
   "pull_request_review"; "repository"].

Definition getOrgQuery : string :=
  "query getOrg($login: String!) { organization(login: $login) { databaseId } }".

Definition set_userIds (l : list string) (g : GitHubRepo) : GitHubRepo :=
  mkGitHubRepo (gh_adminUserId g) (gh_createdAt g) (gh_updatedAt g) (gh_isActive g)
    (gh_nameWithOwner g) (gh_teamId g) l.

(** The update object of the rehydrating branch, merged into [old]. *)
Definition rehydrate (userId : string) (now : Z) (old : GitHubRepo) : GitHubRepo :=
  mkGitHubRepo userId (gh_createdAt old) now true (gh_nameWithOwner old) (gh_teamId old)
    [userId].

(** [r.table(GITHUB).getAll(teamId, {index: 'teamId'}).filter({nameWithOwner})] *)
Definition integrations (teamId nameWithOwner : string) (s : Store)
  : list (string * GitHubRepo) :=
  filter (λ kv : string * GitHubRepo, gh_nameWithOwner kv.2 = nameWithOwner)
    (getAll gh_teamId teamId (GitHub_table s)).

Section Resolver.
Variable h : Helpers.

(** The two detached tasks: the requests each one sends and how its
    promise settles.  The last [fetch] of each is not awaited. *)
Definition createRepoWebhook (accessToken nameWithOwner publicKey : string)
  : list HttpRequest * PromiseState :=
  let endpoint := "https://api.github.com/repos/" +:+ nameWithOwner +:+ "/hooks" in
  let list_hooks := mkHttpRequest GET endpoint accessToken NoBody in
  match fetch h list_hooks with
  | NetworkFailure => ([list_hooks], Rejected)
  | JsonArray 0 =>
      ([list_hooks; mkHttpRequest POST endpoint accessToken (CreateHook publicKey repo_events)],
       Resolved)
  | _ => ([list_hooks], Resolved)
  end.

Definition createOrgWebhook (accessToken nameWithOwner : string)
  : list HttpRequest * PromiseState :=
  let owner := owner_of nameWithOwner in
  let endpoint := "https://api.github.com/orgs/" +:+ owner +:+ "/hooks" in
  let list_hooks := mkHttpRequest GET endpoint accessToken NoBody in
  match fetch h list_hooks with
  | NetworkFailure => ([list_hooks], Rejected)
  | JsonArray 0 =>
      let get_profile :=
        mkHttpRequest POST (GITHUB_ENDPOINT h) accessToken (Query getOrgQuery owner) in
      match fetch h get_profile with
      | JsonProfile false (Some databaseId) =>
          let publickKey := pretty databaseId in
          ([list_hooks; get_profile;
            mkHttpRequest POST endpoint accessToken (CreateHook publickKey ["organization"])],
           Resolved)
      | _ => ([list_hooks; get_profile], Rejected)
      end
  | _ => ([list_hooks], Resolved)
  end.

(** The ReQL expression that creates or rehydrates the integration;
    [id] is the value of [shortid.generate()] in the inserted object.
    [('changes')(0)] fails when the write changed nothing. *)
Definition createOrRehydrate (id teamId nameWithOwner userId : string) (now : Z)
    (s : Store) : Failure + (string * GitHubRepo) * Store :=
  match head (integrations teamId nameWithOwner s) with
  | None =>
      let doc := mkGitHubRepo userId now now true nameWithOwner teamId [userId] in
      match GitHub_table s !! id with
      | Some _ => inl (ReqlError "Index out of bounds: 0")
      | None => inr ((id, doc), set_GitHub_table (<[id := doc]> (GitHub_table s)) s)
      end
  | Some (integrationId, old) =>
      let doc := rehydrate userId now old in
      if decide (doc = old) then inl (ReqlError "Index out of bounds: 0")
      else
        inr ((integrationId, doc),
             set_GitHub_table (<[integrationId := doc]> (GitHub_table s)) s)
  end.

Definition run_maybeJoinRepos (repos : list (string * GitHubRepo)) (providers : list Provider)
  : M (list (string * list string)) := λ w,
  let '(o, s') := maybeJoinRepos h repos providers (db w) in (o, set_db s' w).

Definition teamMembersOf (teamId : string) (userIds : list string) (s : Store)
  : list (string * string * string) :=
  userIds ≫= (λ uid,
    (λ kv : string * TeamMember, (tm_preferredName kv.2, tm_picture kv.2, kv.1)) <$>
      filter (λ kv : string * TeamMember, tm_teamId kv.2 = teamId)
        (getAll tm_userId uid (TeamMember_table s))).

(** [allTeamProviders]: the active GitHub providers of the team. *)
Definition allTeamProviders (teamId : string) (s : Store) : list Provider :=
  (filter (λ kv : string * Provider, p_service kv.2 = GITHUB ∧ p_isActive kv.2 = true)
     (getAll p_teamId teamId (Provider_table s))).*2.

(** The part of [resolve] under its RESOLUTION comment. *)
Definition resolution (teamId nameWithOwner : string) (ctx : Context) (now : Z)
    (allTeamProviders : list Provider) (viewerProviderIdx : nat)
    (accessToken : string) (ghRepoId : Z) : M AddGitHubRepoPayload :=
  let mutatorId := socketId ctx in
  let userId := getUserId h (authToken ctx) in
  (* add the webhooks on GitHub *)
  let '(reqs1, p1) := createRepoWebhook accessToken nameWithOwner (pretty ghRepoId) in
  call_external (detached "createRepoWebhook" reqs1 p1) ;;;
  let '(reqs2, p2) := createOrgWebhook accessToken nameWithOwner in
  call_external (detached "createOrgWebhook" reqs2 p2) ;;;
  (* create or rehydrate the integration *)
  id <- shortid h ;;
  newRepo <- reql (createOrRehydrate id teamId nameWithOwner userId now) ;;
  (* get a list of everyone else on the team that can join *)
  let teamMemberProviders :=
    take viewerProviderIdx allTeamProviders ++
    drop (viewerProviderIdx + 1) allTeamProviders in
  usersAndIntegrations <- run_maybeJoinRepos [newRepo] teamMemberProviders ;;
  let userIds :=
    (filter (λ kv : string * list string, 0 < length kv.2) usersAndIntegrations).*1
    ++ [userId] in
  s' <- getStore ;;
  let repo := mkPublishedRepo newRepo.1 (set_userIds userIds newRepo.2)
                (teamMembersOf teamId userIds s') in
  publish (mkTopic githubRepoAdded_topic teamId)
    (mkPayload (githubRepoAdded repo) None (Some mutatorId)) ;;;
  ret (repoAdded repo).

Definition resolve (teamId nameWithOwner : string) (ctx : Context) (now : Z)
  : M AddGitHubRepoPayload :=
  let viewerId := getUserId h (authToken ctx) in
  (* AUTH *)
  if negb (isTeamMember h (authToken ctx) teamId) then
    ret (standardError "Team not found" viewerId)
  else
  let userId := getUserId h (authToken ctx) in
  (* VALIDATION *)
  s <- getStore ;;
  let allTeamProviders := allTeamProviders teamId s in
  match list_find (λ provider, p_userId provider = userId) allTeamProviders with
  | None => ret (standardError "GitHub Provider not found" viewerId)
  | Some (viewerProviderIdx, viewerProvider) =>
      (* first check if the viewer has permission. then, check the rest *)
      let accessToken := p_accessToken viewerProvider in
      let viewerPermissions := tokenCanAccessRepo h accessToken nameWithOwner in
      if errors viewerPermissions then ret (standardError "Unknown GitHub error" viewerId)
      else
      match data_repository viewerPermissions with
      | None => throw TypeError
      | Some repository =>
          let ghRepoId := databaseId repository in
          if negb (viewerCanAdminister repository) then
            ret (standardError "Not GitHub Administrator" viewerId)
          else
            resolution teamId nameWithOwner ctx now allTeamProviders viewerProviderIdx
              accessToken ghRepoId
      end
  end.
End Resolver.

End AddGitHubRepo.

(** ** inviteTeamMembers *)

Module InviteTeamMembers.

Record Invitee := mkInvitee { email : string }.

Record Reactivation := mkReactivation {
  notificationId : string;
  teamMemberId : string;
  preferredName : string
}.

Record InviteTeamMembersPayload := mkInviteTeamMembersPayload {
  reactivatedTeamMemberIds : list string;
  results : list string
}.

Definition set_isNotRemoved (b : bool) (tm : TeamMember) : TeamMember :=
  mkTeamMember (tm_teamId tm) (tm_userId tm) b (tm_preferredName tm) (tm_picture tm).

(** TeamMember rows of one user on one team. *)
Definition memberRows (teamId userId : string) (s : Store) : list (string * TeamMember) :=
  filter (λ kv : string * TeamMember, tm_userId kv.2 = userId)
    (getAll tm_teamId teamId (TeamMember_table s)).

(** Modelled from the spec: the user an invitee's email address names. *)
Definition userByEmail (address : string) (s : Store) : option (string * User) :=
  head (filter (λ kv : string * User, user_email kv.2 = address)
          (map_to_list (User_table s))).

Section Resolver.
Variable h : Helpers.

(** Modelled from the spec: the safe mutation
    server/safeMutations/inviteTeamMembers, which the resolver calls, is
    not among the embedded files.  The spec says of it that re-inviting
    a previously removed team member marks them active again rather than
    creating a duplicate TeamMember row, that removal is a flag
    ([isNotRemoved]) rather than a physical deletion, and that the
    reactivation emits a rejoin notification; the resolver's comment
    calls the notification it names by [notificationId] persisted.  An
    invitee is previously removed when the user with that email has
    TeamMember rows on the team and none of them is active; the first
    such row is marked active, and a notification of type REJOIN_TEAM for
    that user, with the organization and the name of [team], is inserted
    under a fresh id.  Any other invitee gets an invitation or an approval
    request, which the resolver's description places in the invitation
    and OrgApproval tables: no TeamMember row is written for them, and
    they only yield an entry of [results]. *)
Definition inviteOne (now : Z) (teamId : string) (team : Team) (invitee : Invitee)
  : M (Reactivation + string) :=
  s <- getStore ;;
  match userByEmail (email invitee) s with
  | None => ret (inr (email invitee))
  | Some (userId, _) =>
      let rows := memberRows teamId userId s in
      if decide (Exists (λ kv : string * TeamMember, tm_isNotRemoved kv.2 = true) rows)
      then ret (inr (email invitee))
      else
        match head rows with
        | None => ret (inr (email invitee))
        | Some (id, tm) =>
            notificationId <- shortid h ;;
            let notification :=
              mkNotification (team_orgId team) now REJOIN_TEAM [userId] (team_name team) in
            putStore
              (set_Notification_table
                 (insert_doc notificationId notification (Notification_table s))
                 (set_TeamMember_table
                    (<[id := set_isNotRemoved true tm]> (TeamMember_table s)) s)) ;;;
            ret (inl (mkReactivation notificationId id (tm_preferredName tm)))
        end
  end.

(** Modelled from the spec: see [inviteOne]; the safe mutation reads the
    team document, which fails like any store expression when there is
    none, handles the invitees one after the other and sorts the
    outcomes.  [now] is the time it reads. *)
Definition inviteTeamMembers (now : Z) (invitees : list Invitee) (teamId viewerId : string)
    (subOptions : SubOptions) : M (list Reactivation * list string) :=
  s <- getStore ;;
  match Team_table s !! teamId with
  | None => throw (ReqlError "Cannot perform bracket on a non-object non-sequence `null`")
  | Some team =>
      outcomes <- mapM (inviteOne now teamId team) invitees ;;
      ret (omap (λ o : Reactivation + string,
                   match o with inl r => Some r | inr _ => None end) outcomes,
           omap (λ o : Reactivation + string,
                   match o with inl _ => None | inr e => Some e end) outcomes)
  end.

(** HANDLE REACTIVATION: the two publishes of one reactivation. *)
Definition handleReactivation (teamId : string) (subOptions : SubOptions)
    (r : Reactivation) : M unit :=
  (* send a team member + temporary toast to the rest of the users *)
  let notification := (REJOIN_TEAM, teamId, preferredName r) in
  publish (mkTopic TEAM_MEMBER teamId)
    (spread (data_teamMember (teamMemberId r) notification ADDED) (Some subOptions)) ;;;
  (* send a team + persisted notification to the reactivated team member *)
  let userId := fromTeamMemberId_userId h (teamMemberId r) in
  publish (mkTopic subscriptions_TEAM userId)
    (spread (data_teamNotification teamId (notificationId r) ADDED) (Some subOptions)).

(** [resolve], with the imported safe mutation as an argument. *)
Definition resolve_with
    (safeMutation : list Invitee → string → string → SubOptions →
                    M (list Reactivation * list string))
    (invitees : list Invitee) (teamId : string) (ctx : Context)
  : M InviteTeamMembersPayload :=
  let mutatorId := socketId ctx in
  operationId <- dataLoader_share ctx ;;
  (* AUTH *)
  s <- getStore ;;
  (if requireOrgLeaderOrTeamMember h s (authToken ctx) teamId then ret tt
   else throw AuthorizationError) ;;;
  let viewerId := getUserId h (authToken ctx) in
  (* RESOLUTION *)
  let subOptions := mkSubOptions mutatorId operationId in
  res <- safeMutation invitees teamId viewerId subOptions ;;
  let '(reactivations, results) := res in
  let reactivatedTeamMemberIds := teamMemberId <$> reactivations in
  forEach reactivations (handleReactivation teamId subOptions) ;;;
  ret (mkInviteTeamMembersPayload reactivatedTeamMemberIds results).

(** [resolve] with the safe mutation as modelled; [now] is the time the
    safe mutation reads. *)
Definition resolve (now : Z) : list Invitee → string → Context → M InviteTeamMembersPayload :=
  resolve_with (inviteTeamMembers now).
End Resolver.

End InviteTeamMembers.

(** ** Concrete worlds

    Small stores and one instance of the helpers, on which the resolvers
    are run. *)

Module Demo.

Definition helpers (fetch : HttpRequest → FetchResult) : Helpers := {|
  getUserId := sub;
  toTeamMemberId := λ teamId userId, userId +:+ "::" +:+ teamId;
  fromTeamMemberId_userId := λ teamMemberId, String.substring 0 2 teamMemberId;
  requireTeamLead := λ s teamMemberId, bool_decide (is_Some (TeamMember_table s !! teamMemberId));
  requireOrgLeaderOrTeamMember := λ s token teamId, bool_decide (teamId ∈ tms token);
  isTeamMember := λ token teamId, bool_decide (teamId ∈ tms token);
  tmsSignToken := λ id tms, "jwt:" +:+ id;
  shortid_generate := λ n, "id" +:+ pretty n;
  tokenCanAccessRepo := λ accessToken nameWithOwner,
    mkPermissionsResponse (Some (mkRepository true 42%Z)) false;
  maybeJoinRepos := λ repos providers s, (Returned [], s);
  fetch := fetch;
  GITHUB_ENDPOINT := "https://api.github.com/graphql"
|}.

Definition github_down : HttpRequest → FetchResult := λ _, NetworkFailure.
Definition github_up : HttpRequest → FetchResult := λ req,
  match req_body req with
  | Query _ _ => JsonProfile false (Some 7%Z)
  | _ => JsonArray 0
  end.

Definition h : Helpers := helpers github_up.

Definition member (teamId userId : string) (active : bool) : string * TeamMember :=
  (userId +:+ "::" +:+ teamId, mkTeamMember teamId userId active userId "").

Definition empty_store : Store := mkStore ∅ ∅ ∅ ∅ ∅ ∅ ∅.

Definition world_of (s : Store) : World := mkWorld s [] [] 0 0.

Definition ctx_of (userId : string) (tms : list string) : Context :=
  mkContext (mkAuthToken userId tms) "op1" "socket1".

(** A team whose only member is its lead [u1], without projects. *)
Definition solo : Store :=
  mkStore {[ "t1" := mkTeam "Alpha" "o1" false ]}
    (list_to_map [member "t1" "u1" true])
    {[ "u1" := mkUser "u1@x.io" ["t1"] ]}
    ∅ ∅ ∅ ∅.

(** A team with three active members and no project. *)
Definition trio : Store :=
  mkStore {[ "t3" := mkTeam "Gamma" "o1" false ]}
    (list_to_map [member "t3" "u1" true; member "t3" "u2" true; member "t3" "u3" true])
    (list_to_map [("u1", mkUser "u1@x.io" ["t3"]); ("u2", mkUser "u2@x.io" ["t3"]);
                  ("u3", mkUser "u3@x.io" ["t3"])])
    ∅ ∅ ∅ ∅.

(** [trio] after it was archived once. *)
Definition trio_archived : Store :=
  set_Team_table {[ "t3" := mkTeam "Gamma" "o1" true ]} trio.

(** A team with the viewer's GitHub provider linked, no integration yet. *)
Definition linked : Store :=
  mkStore {[ "t1" := mkTeam "Alpha" "o1" false ]}
    (list_to_map [member "t1" "u1" true; member "t1" "u2" true])
    (list_to_map [("u1", mkUser "u1@x.io" ["t1"]); ("u2", mkUser "u2@x.io" ["t1"])])
    ∅ ∅
    {[ "p1" := mkProvider "t1" "u1" GITHUB true "token1" ]}
    ∅.

(** [linked] with an integration for [acme/app] that [u2] and [u9] joined. *)
Definition integrated : Store :=
  set_GitHub_table
    {[ "g1" := mkGitHubRepo "u2" 5%Z 5%Z false "acme/app" "t1" ["u2"; "u9"] ]} linked.

(** A team where [u2] was removed earlier. *)
Definition with_removed : Store :=
  mkStore {[ "t1" := mkTeam "Alpha" "o1" false ]}
    (list_to_map [member "t1" "u1" true; member "t1" "u2" false])
    (list_to_map [("u1", mkUser "u1@x.io" ["t1"]); ("u2", mkUser "u2@x.io" [])])
    ∅ ∅ ∅ ∅.

End Demo.

(** ** Notions used in the statements *)

(** What a computation adds to the publish log. *)
Definition publishes_of {A} (m : M A) (w : World) : list (Topic * Payload) :=
  drop (length (published w)) (published (m w).2).

Definition on_kind (k : EventKind) (log : list (Topic * Payload)) : list (Topic * Payload) :=
  filter (λ tp : Topic * Payload, topic_kind tp.1 = k) log.

(** The payload carries both correlation keys of the request. *)
Definition carries (ctx : Context) (p : Payload) : Prop :=
  operationId p = Some (dataLoader_operationId ctx) ∧ mutatorId p = Some (socketId ctx).

(** The helpers with another [fetch]. *)
Definition with_fetch (f : HttpRequest → FetchResult) (h : Helpers) : Helpers :=
  mkHelpers (getUserId h) (toTeamMemberId h) (fromTeamMemberId_userId h) (requireTeamLead h)
    (requireOrgLeaderOrTeamMember h) (isTeamMember h) (tmsSignToken h) (shortid_generate h)
    (tokenCanAccessRepo h) (maybeJoinRepos h) f (GITHUB_ENDPOINT h).

(** The notifications [resolve] builds from [notificationData], when
    [shortid.generate()] was called [c] times before. *)
Definition archivedNotifications (h : Helpers) (nd : ArchiveTeam.NotificationData) (now : Z)
    (c : nat) : list (string * Notification) :=
  imap (λ i u, (shortid_generate h (c + i),
                mkNotification (ArchiveTeam.nd_team_orgId nd) now TEAM_ARCHIVED [u]
                  (ArchiveTeam.nd_team_name nd)))
    (ArchiveTeam.nd_userIds nd).

Definition notificationPublish (n : string * Notification) : Topic * Payload :=
  (mkTopic NOTIFICATIONS_ADDED (default "undefined" (head (n_userIds n.2))),
   mkPayload (notificationsAdded [n]) None None).

Definition authTokenPublish (h : Helpers) (user : string * list string) : Topic * Payload :=
  (mkTopic NEW_AUTH_TOKEN user.1,
   mkPayload (newAuthToken (tmsSignToken h user.1 user.2)) None None).

Definition teamPublish (teamId : string) (ctx : Context) : Topic * Payload :=
  (mkTopic TEAM teamId,
   mkPayload (data_team teamId UPDATED) (Some (dataLoader_operationId ctx))
     (Some (socketId ctx))).

(** The team is deleted rather than archived. *)
Definition hardDeletes (teamId : string) (s : Store) : Prop :=
  ArchiveTeam.projectCount teamId s = 0 ∧ length (ArchiveTeam.activeUserIds teamId s) = 1.

(** The caller passes the team-lead check of [archiveTeam]. *)
Definition isLead (h : Helpers) (teamId : string) (ctx : Context) (s : Store) : Prop :=
  requireTeamLead h s (toTeamMemberId h teamId (getUserId h (authToken ctx))) = true.

(** At most one integration row per (teamId, nameWithOwner). *)
Definition one_per_key (t : gmap string GitHubRepo) : Prop :=
  ∀ k1 k2 g1 g2, t !! k1 = Some g1 → t !! k2 = Some g2 →
    gh_teamId g1 = gh_teamId g2 → gh_nameWithOwner g1 = gh_nameWithOwner g2 → k1 = k2.

(** At most one non-removed TeamMember row per (userId, teamId). *)
Definition one_active_member (t : gmap string TeamMember) : Prop :=
  ∀ k1 k2 m1 m2, t !! k1 = Some m1 → t !! k2 = Some m2 →
    tm_isNotRemoved m1 = true → tm_isNotRemoved m2 = true →
    tm_userId m1 = tm_userId m2 → tm_teamId m1 = tm_teamId m2 → k1 = k2.

(** C2 as it is claimed, at one call: N rows inserted, N publishes on the
    notification topic and one on the team-update topic. *)
Definition fans_out_to_every_member (h : Helpers) (teamId : string) (ctx : Context)
    (now : Z) (w : World) : Prop :=
  let N := length (ArchiveTeam.activeUserIds teamId (db w)) in
  let run := ArchiveTeam.resolve h teamId ctx now in
  size (Notification_table (db (run w).2)) = size (Notification_table (db w)) + N ∧
  length (on_kind NOTIFICATIONS_ADDED (publishes_of run w)) = N ∧
  length (on_kind TEAM (publishes_of run w)) = 1.

(** Two states of the integration table with the same primary keys, each
    row still of the same team and repository. *)
Definition same_keys (t t' : gmap string GitHubRepo) : Prop :=
  ∀ k, match t !! k, t' !! k with
       | Some g, Some g' =>
           gh_teamId g' = gh_teamId g ∧ gh_nameWithOwner g' = gh_nameWithOwner g
       | None, None => True
       | _, _ => False
       end.

(** Assumption on the imported [maybeJoinRepos]: it rewrites rows of the
    integration table in place, without touching their team, repository
    and active flag. *)
Definition joins_in_place (h : Helpers) : Prop :=
  ∀ repos providers s,
    let s' := (maybeJoinRepos h repos providers s).2 in
    same_keys (GitHub_table s) (GitHub_table s') ∧
    ∀ k g g', GitHub_table s !! k = Some g → GitHub_table s' !! k = Some g' →
              gh_isActive g' = gh_isActive g.

(** The two events [handleReactivation] publishes for one reactivation. *)
Definition reactivationPublishes (h : Helpers) (teamId : string) (ctx : Context)
    (r : InviteTeamMembers.Reactivation) : list (Topic * Payload) :=
  [(mkTopic TEAM_MEMBER teamId,
    mkPayload (data_teamMember (InviteTeamMembers.teamMemberId r)
                 (REJOIN_TEAM, teamId, InviteTeamMembers.preferredName r) ADDED)
      (Some (dataLoader_operationId ctx)) (Some (socketId ctx)));
   (mkTopic subscriptions_TEAM
      (fromTeamMemberId_userId h (InviteTeamMembers.teamMemberId r)),
    mkPayload (data_teamNotification teamId (InviteTeamMembers.notificationId r) ADDED)
      (Some (dataLoader_operationId ctx)) (Some (socketId ctx)))].

(** The world right after [dataLoader.share()]. *)
Definition shared (w : World) : World :=
  mkWorld (db w) (published w) (external w) (shortid_calls w) (S (share_calls w)).

(** C4 as it is claimed, for one log: every payload carries both keys. *)
Definition all_carry (ctx : Context) (log : list (Topic * Payload)) : Prop :=
  Forall (λ tp : Topic * Payload, carries ctx tp.2) log.

(** C3 as it is claimed, for one outcome: the failure reaches the caller
    as a value, not as an exception. *)
Definition reported_in_payload {A} (o : Outcome A) : Prop := ∃ a, o = Returned a.

(** Two states of table [TeamMember] with the same primary keys, where a
    row either is as it was or went from removed to not removed. *)
Definition reactivates (t t' : gmap string TeamMember) : Prop :=
  ∀ k, match t !! k, t' !! k with
       | Some m, Some m' =>
           m' = m ∨
           (tm_isNotRemoved m = false ∧ m' = InviteTeamMembers.set_isNotRemoved true m)
       | None, None => True
       | _, _ => False
       end.

(** The row behind a reactivation: removed before, active after, and
    otherwise the same row of the team. *)
Definition reactivated (teamId : string) (t t' : gmap string TeamMember)
    (r : InviteTeamMembers.Reactivation) : Prop :=
  ∃ m, t !! InviteTeamMembers.teamMemberId r = Some m ∧
       tm_isNotRemoved m = false ∧ tm_teamId m = teamId ∧
       t' !! InviteTeamMembers.teamMemberId r = Some (InviteTeamMembers.set_isNotRemoved true m).

(** A user document after [tms.difference([teamId])]. *)
Definition without_team (teamId : string) (u : User) : User :=
  set_tms (list_difference (user_tms u) [teamId]) u.

(** The text holds the character [/]. *)
Definition has_slash (s : string) : Prop :=
  Ascii.ascii_of_nat 47 ∈ String.list_ascii_of_string s.

(** More concrete worlds. *)
Module DemoMore.

(** A TeamMember row whose team has no Team document. *)
Definition orphaned : Store :=
  mkStore ∅ (list_to_map [Demo.member "t9" "u1" true])
    {[ "u1" := mkUser "u1@x.io" ["t9"] ]} ∅ ∅ ∅ ∅.

(** [Demo.linked] where the id that is drawn next belongs to a row of
    another repository. *)
Definition crowded : Store :=
  set_GitHub_table
    {[ "id0" := mkGitHubRepo "u2" 5%Z 5%Z true "acme/other" "t1" ["u2"] ]} Demo.linked.

(** [Demo.linked] after [u1] added [acme/app] at time 100. *)
Definition added : Store :=
  set_GitHub_table
    (<[ "id0" := mkGitHubRepo "u1" 100%Z 100%Z true "acme/app" "t1" ["u1"] ]> ∅)
    Demo.linked.

Definition failing_safe :
    list InviteTeamMembers.Invitee → string → string → SubOptions →
    M (list InviteTeamMembers.Reactivation * list string) :=
  λ _ _ _ _, throw TypeError.

Definition fixed_safe :
    list InviteTeamMembers.Invitee → string → string → SubOptions →
    M (list InviteTeamMembers.Reactivation * list string) :=
  λ _ _ _ _, ret ([InviteTeamMembers.mkReactivation "n1" "u2::t1" "u2"], ["new@x.io"]).

End DemoMore.

(** The user has TeamMember rows on the team and none of them is active:
    a previously removed member. *)
Definition removed_from (teamId userId : string) (t : gmap string TeamMember) : Prop :=
  (∃ k m, t !! k = Some m ∧ tm_teamId m = teamId ∧ tm_userId m = userId) ∧
  ∀ k m, t !! k = Some m → tm_teamId m = teamId → tm_userId m = userId →
         tm_isNotRemoved m = false.

(** [reactivated], for the row of a given user. *)
Definition reactivated_for (teamId userId : string) (t t' : gmap string TeamMember)
    (r : InviteTeamMembers.Reactivation) : Prop :=
  ∃ m, t !! InviteTeamMembers.teamMemberId r = Some m ∧
       tm_isNotRemoved m = false ∧ tm_teamId m = teamId ∧ tm_userId m = userId ∧
       t' !! InviteTeamMembers.teamMemberId r = Some (InviteTeamMembers.set_isNotRemoved true m).

(** A rejoin notification of the team, made at [now] for one user. *)
Definition rejoin_note (team : Team) (now : Z) (n : Notification) : Prop :=
  n_type n = REJOIN_TEAM ∧ n_orgId n = team_orgId team ∧ n_teamName n = team_name team ∧
  n_startAt n = now ∧ ∃ userId, n_userIds n = [userId].

(** Two states of table [Notification]: the rows that were there are as
    they were, and a row that is new is a rejoin notification. *)
Definition adds_rejoin_notes (team : Team) (now : Z) (t t' : gmap string Notification) : Prop :=
  ∀ k, match t !! k, t' !! k with
       | Some n, o => o = Some n
       | None, Some n => rejoin_note team now n
       | None, None => True
       end.
(** The call passes the AUTH and VALIDATION parts of
    [AddGitHubRepo.resolve]: the viewer is on the team, has the active
    GitHub provider at index [idx], and GitHub answers that the viewer
    administers [repository]. *)
Definition validated (h : Helpers) (teamId nameWithOwner : string) (ctx : Context)
    (s : Store) (idx : nat) (provider : Provider) (repository : Repository) : Prop :=
  isTeamMember h (authToken ctx) teamId = true ∧
  list_find (λ p, p_userId p = getUserId h (authToken ctx))
    (AddGitHubRepo.allTeamProviders teamId s) = Some (idx, provider) ∧
  tokenCanAccessRepo h (p_accessToken provider) nameWithOwner
    = mkPermissionsResponse (Some repository) false ∧
  viewerCanAdminister repository = true.

(** Assumption on the imported [maybeJoinRepos]: it answers. *)
Definition joins_answer (h : Helpers) : Prop :=
  ∀ repos providers s, ∃ usersAndIntegrations,
    (maybeJoinRepos h repos providers s).1 = Returned usersAndIntegrations.

(** Assumption on the imported [maybeJoinRepos]: it leaves the
    integration table as it is. *)
Definition joins_leave_table (h : Helpers) : Prop :=
  ∀ repos providers s,
    GitHub_table (maybeJoinRepos h repos providers s).2 = GitHub_table s.

(** What a call does when the key has the row [k] with document [old]:
    whatever the outcome, the row is there and active afterwards; it
    holds the rehydrated document when the join helper leaves the table
    alone; the call returns the record of row [k] and publishes it when
    the update changes the row and the join helper answers; and when the
    update changes nothing, the row being active with the same
    administrator, members and time already, the call fails on the
    empty list of changes and the store is as before. *)
Definition rehydrates (h : Helpers) (teamId nameWithOwner : string) (ctx : Context)
    (now : Z) (w : World) (k : string) (old : GitHubRepo) : Prop :=
  let run := AddGitHubRepo.resolve h teamId nameWithOwner ctx now w in
  let new := AddGitHubRepo.rehydrate (getUserId h (authToken ctx)) now old in
  (∃ g, GitHub_table (db run.2) !! k = Some g ∧ gh_isActive g = true ∧
        gh_teamId g = teamId ∧ gh_nameWithOwner g = nameWithOwner) ∧
  dom (GitHub_table (db run.2)) = dom (GitHub_table (db w)) ∧
  (joins_leave_table h → GitHub_table (db run.2) = <[k := new]> (GitHub_table (db w))) ∧
  (new ≠ old → joins_answer h →
     ∃ repo, run.1 = Returned (AddGitHubRepo.repoAdded repo) ∧ repo_id repo = k ∧
             gh_isActive (repo_doc repo) = true ∧
             published run.2 =
               published w ++ [(mkTopic githubRepoAdded_topic teamId,
                                mkPayload (githubRepoAdded repo) None (Some (socketId ctx)))]) ∧
  (new = old →
     run.1 = Thrown (ReqlError "Index out of bounds: 0") ∧ db run.2 = db w ∧
     published run.2 = published w).

(** The two detached webhook tasks of one call, as the log of external
    calls records them. *)
Definition webhookTasks (h : Helpers) (accessToken nameWithOwner publicKey : string)
  : list ExternalCall :=
  [detached "createRepoWebhook"
     (AddGitHubRepo.createRepoWebhook h accessToken nameWithOwner publicKey).1
     (AddGitHubRepo.createRepoWebhook h accessToken nameWithOwner publicKey).2;
   detached "createOrgWebhook"
     (AddGitHubRepo.createOrgWebhook h accessToken nameWithOwner).1
     (AddGitHubRepo.createOrgWebhook h accessToken nameWithOwner).2].

(** * Properties *)

(** ** The monad and its loops *)

Lemma bind_apply {A B} (m : M A) (k : A → M B) (w : World) :
  bind m k w = match m w with
               | (Returned a, w') => k a w'
               | (Thrown e, w') => (Thrown e, w')
               end.
Proof. reflexivity. Qed.

(** Reduce projections of an explicit world, and nothing else. *)
Ltac world := cbn [db published external shortid_calls share_calls fst snd].

Lemma length_archivedNotifications h nd now c :
  length (archivedNotifications h nd now c) = length (ArchiveTeam.nd_userIds nd).
Proof. apply length_imap. Qed.

Section Loops.
Context {A : Type}.

Lemma forEach_log (f : A → M unit) (pub : A → list (Topic * Payload))
    (ext : A → list ExternalCall) :
  (∀ x w, f x w = (Returned tt,
      mkWorld (db w) (published w ++ pub x) (external w ++ ext x)
        (shortid_calls w) (share_calls w))) →
  ∀ l w, forEach l f w = (Returned tt,
      mkWorld (db w) (published w ++ (l ≫= pub)) (external w ++ (l ≫= ext))
        (shortid_calls w) (share_calls w)).
Proof.
  intros Hf l. induction l as [|x l IH]; intros w; simpl.
  - unfold ret. rewrite !app_nil_r. by destruct w.
  - unfold bind. rewrite Hf, IH. simpl. by rewrite <- !app_assoc.
Qed.

Lemma mapM_shortid {B} (h : Helpers) (g : string → A → B) (l : list A) (w : World) :
  mapM (λ x, id <- shortid h ;; ret (g id x)) l w =
  (Returned (imap (λ i x, g (shortid_generate h (shortid_calls w + i)) x) l),
   mkWorld (db w) (published w) (external w) (shortid_calls w + length l) (share_calls w)).
Proof.
  revert w. induction l as [|x l IH]; intros w; simpl.
  - unfold ret. rewrite Nat.add_0_r. by destruct w.
  - unfold bind at 1. unfold bind at 1. unfold shortid at 1. unfold ret at 1.
    unfold bind at 1. rewrite IH. simpl. unfold ret.
    rewrite Nat.add_0_r. f_equal.
    + f_equal. f_equal. apply imap_ext. intros i y _. simpl. do 2 f_equal. lia.
    + f_equal. lia.
Qed.

Lemma bind_singleton {B} (f : A → B) (l : list A) : l ≫= (λ x, [f x]) = f <$> l.
Proof. induction l as [|x l IH]; csimpl; [done|]. by rewrite IH. Qed.

Lemma bind_nothing {B} (l : list A) : l ≫= (λ _, @nil B) = [].
Proof. induction l as [|x l IH]; csimpl; done. Qed.
End Loops.

Module ArchiveTeamFacts.
Import ArchiveTeam.

Section Facts.
Variable h : Helpers.

Lemma publishTeamArchivedNotifications_log ns w :
  publishTeamArchivedNotifications ns None w =
  (Returned tt,
   mkWorld (db w) (published w ++ (notificationPublish <$> ns)) (external w)
     (shortid_calls w) (share_calls w)).
Proof.
  unfold publishTeamArchivedNotifications.
  rewrite (forEach_log _ (λ n, [notificationPublish n]) (λ _, [])).
  - by rewrite bind_singleton, bind_nothing, app_nil_r.
  - intros n w0. unfold publish. simpl. by rewrite app_nil_r.
Qed.

Lemma publishAuthTokensWithoutTeam_log us w :
  publishAuthTokensWithoutTeam h us w =
  (Returned tt,
   mkWorld (db w) (published w ++ (authTokenPublish h <$> us))
     (external w ++ ((λ u : string * list string, auth0_updateAppMetadata u.1 u.2) <$> us))
     (shortid_calls w) (share_calls w)).
Proof.
  unfold publishAuthTokensWithoutTeam.
  rewrite (forEach_log _ (λ u, [authTokenPublish h u])
             (λ u, [auth0_updateAppMetadata u.1 u.2])).
  - by rewrite !bind_singleton.
  - intros [id tms] w0. unfold bind, call_external, publish. simpl. done.
Qed.

(** What one run of [resolve] does, case by case. *)
Lemma resolve_run teamId ctx now w :
  let userId := getUserId h (authToken ctx) in
  let w1 := mkWorld (db w) (published w) (external w) (shortid_calls w) (S (share_calls w)) in
  let ext1 := external w ++ [sendSegmentEvent "Archive Team" userId teamId] in
  resolve h teamId ctx now w =
  if requireTeamLead h (db w) (toTeamMemberId h teamId userId) then
    match query teamId (db w) with
    | inl e => (Thrown e, mkWorld (db w) (published w) ext1 (shortid_calls w) (S (share_calls w)))
    | inr (res, s') =>
        let ns := match notificationData res with
                  | Some nd => archivedNotifications h nd now (shortid_calls w)
                  | None => []
                  end in
        let s'' := match notificationData res with
                   | Some nd => set_Notification_table
                                  (insert_docs ns (Notification_table s')) s'
                   | None => s'
                   end in
        let pub := published w ++ (notificationPublish <$> ns) in
        let c := shortid_calls w + length ns in
        match teamResult res with
        | None => (Thrown (Error "Team was already archived"),
                   mkWorld s'' pub ext1 c (S (share_calls w)))
        | Some t =>
            (Returned (teamId, set_isArchived true t),
             mkWorld s''
               (pub ++ teamPublish teamId ctx :: (authTokenPublish h <$> userDocs res))
               (ext1 ++ ((λ u : string * list string, auth0_updateAppMetadata u.1 u.2)
                           <$> userDocs res))
               c (S (share_calls w)))
        end
    end
  else (Thrown AuthorizationError, w1).
Proof.
  intros userId w1 ext1. unfold resolve.
  rewrite bind_apply. unfold dataLoader_share. world.
  rewrite bind_apply. unfold getStore. world.
  rewrite bind_apply.
  destruct (requireTeamLead h (db w) _); [|done].
  unfold ret at 1. world.
  rewrite bind_apply. unfold call_external at 1. world.
  rewrite bind_apply. unfold reql. world.
  destruct (query teamId (db w)) as [e|[res s']]; [done|]. unfold set_db. world.
  rewrite bind_apply.
  destruct (notificationData res) as [nd|].
  - rewrite bind_apply, mapM_shortid. world.
    fold (archivedNotifications h nd now (shortid_calls w)).
    rewrite bind_apply. unfold insertNotifications.
    rewrite bind_apply. unfold getStore, putStore, set_db. world.
    rewrite publishTeamArchivedNotifications_log. world.
    rewrite length_archivedNotifications.
    destruct (teamResult res) as [t|]; [|done].
    rewrite bind_apply. unfold publish. world.
    rewrite bind_apply, publishAuthTokensWithoutTeam_log. world.
    unfold ret. by rewrite <- app_assoc.
  - unfold ret at 1. world. rewrite app_nil_r, Nat.add_0_r.
    destruct (teamResult res) as [t|]; [|done].
    rewrite bind_apply. unfold publish. world.
    rewrite bind_apply, publishAuthTokensWithoutTeam_log. world.
    unfold ret. by rewrite <- app_assoc.
Qed.
End Facts.
End ArchiveTeamFacts.

Module ArchiveQuery.
Import ArchiveTeam.

(** The hard-delete branch of the query. *)
Lemma query_hard teamId s team :
  Team_table s !! teamId = Some team → hardDeletes teamId s →
  query teamId s =
  inr (mkQueryResult None (Some team)
         (updateUsers teamId (activeUserIds teamId s) (User_table s)).2,
       mkStore (delete teamId (Team_table s))
         (filter (λ kv : string * TeamMember, tm_teamId kv.2 ≠ teamId) (TeamMember_table s))
         (updateUsers teamId (activeUserIds teamId s) (User_table s)).1
         (Project_table s) (Notification_table s) (Provider_table s) (GitHub_table s)).
Proof.
  intros Ht Hh. unfold query. rewrite Ht. cbn [nd_userIds nd_projectCount].
  destruct (updateUsers _ _ _) as [users' changes].
  rewrite decide_True by exact Hh. reflexivity.
Qed.

(** The soft-archive branch of the query. *)
Lemma query_soft teamId s team :
  Team_table s !! teamId = Some team → ¬ hardDeletes teamId s →
  query teamId s =
  inr (mkQueryResult
         (Some (mkNotificationData (projectCount teamId s) (team_name team)
                  (team_orgId team) (activeUserIds teamId s)))
         (if team_isArchived team then None else Some (set_isArchived true team))
         (updateUsers teamId (activeUserIds teamId s) (User_table s)).2,
       mkStore (<[teamId := set_isArchived true team]> (Team_table s))
         (TeamMember_table s)
         (updateUsers teamId (activeUserIds teamId s) (User_table s)).1
         (Project_table s) (Notification_table s) (Provider_table s) (GitHub_table s)).
Proof.
  intros Ht Hh. unfold query. rewrite Ht. cbn [nd_userIds nd_projectCount].
  destruct (updateUsers _ _ _) as [users' changes].
  rewrite decide_False by exact Hh.
  destruct team as [n o [|]]; unfold set_isArchived; simpl.
  - rewrite decide_True by done. unfold set_User_table. simpl.
    by rewrite insert_id.
  - rewrite decide_False by done. reflexivity.
Qed.

Lemma query_missing teamId s :
  Team_table s !! teamId = None → ∃ e, query teamId s = inl e.
Proof. intros Ht. unfold query. rewrite Ht. eauto. Qed.
End ArchiveQuery.

(** C1: with no dependent project and exactly one member that is not
    removed, [archiveTeam] deletes the Team document and every TeamMember
    row of the team; with more projects or more members it sets
    [isArchived] on the Team document and keeps the TeamMember rows. *)
Theorem archiveTeam_deletes_or_archives
    (h : Helpers) (teamId : string) (ctx : Context) (now : Z) (w : World) (team : Team) :
  isLead h teamId ctx (db w) →
  Team_table (db w) !! teamId = Some team →
  let s' := db (ArchiveTeam.resolve h teamId ctx now w).2 in
  (ArchiveTeam.projectCount teamId (db w) = 0 ∧
   length (ArchiveTeam.activeUserIds teamId (db w)) = 1 →
     Team_table s' !! teamId = None ∧
     (∀ id tm, TeamMember_table s' !! id = Some tm → tm_teamId tm ≠ teamId)) ∧
  (0 < ArchiveTeam.projectCount teamId (db w) ∨
   1 < length (ArchiveTeam.activeUserIds teamId (db w)) →
     Team_table s' !! teamId = Some (set_isArchived true team) ∧
     TeamMember_table s' = TeamMember_table (db w)).
Proof.
  intros Hlead Ht. unfold isLead in Hlead. cbv zeta.
  rewrite ArchiveTeamFacts.resolve_run. cbv zeta. rewrite Hlead. split.
  - intros Hh. rewrite (ArchiveQuery.query_hard _ _ _ Ht Hh).
    cbn [ArchiveTeam.notificationData ArchiveTeam.teamResult snd db Team_table TeamMember_table].
    split; [apply lookup_delete_eq|].
    intros id tm Hid. apply map_lookup_filter_Some in Hid as [_ Hne]. exact Hne.
  - intros Hs.
    assert (¬ hardDeletes teamId (db w)) as Hn by (unfold hardDeletes; lia).
    rewrite (ArchiveQuery.query_soft _ _ _ Ht Hn).
    cbn [ArchiveTeam.notificationData ArchiveTeam.teamResult].
    destruct (team_isArchived team);
      cbn [snd db Team_table TeamMember_table set_Notification_table];
      (split; [apply lookup_insert_eq | reflexivity]).
Qed.

Section Logs.
Lemma publishes_of_app {A} (m : M A) (w : World) o w' (new : list (Topic * Payload)) :
  m w = (o, w') → published w' = published w ++ new → publishes_of m w = new.
Proof. intros Hm H. unfold publishes_of. rewrite Hm. cbn [snd]. rewrite H. apply drop_app_length. Qed.

Lemma on_kind_app k l1 l2 : on_kind k (l1 ++ l2) = on_kind k l1 ++ on_kind k l2.
Proof. apply filter_app. Qed.

Lemma on_kind_fmap_same {A} k (f : A → Topic * Payload) (l : list A) :
  (∀ x, topic_kind (f x).1 = k) → on_kind k (f <$> l) = f <$> l.
Proof.
  intros Hf. unfold on_kind. induction l as [|x l IH]; csimpl; [done|].
  rewrite filter_cons_True by apply Hf. by rewrite IH.
Qed.

Lemma on_kind_fmap_other {A} k (f : A → Topic * Payload) (l : list A) :
  (∀ x, topic_kind (f x).1 ≠ k) → on_kind k (f <$> l) = [].
Proof.
  intros Hf. unfold on_kind. induction l as [|x l IH]; csimpl; [done|].
  rewrite filter_cons_False by apply Hf. exact IH.
Qed.

Lemma on_kind_teamPublish k teamId ctx :
  on_kind k [teamPublish teamId ctx] = if decide (k = TEAM) then [teamPublish teamId ctx] else [].
Proof.
  unfold on_kind. case_decide as Hk.
  - by rewrite filter_cons_True.
  - rewrite filter_cons_False; [done|]. intros Heq. apply Hk. by rewrite <- Heq.
Qed.

Lemma insert_docs_size {A} (docs : list (string * A)) (t : gmap string A) :
  NoDup docs.*1 → (∀ id, id ∈ docs.*1 → t !! id = None) →
  size (insert_docs docs t) = size t + length docs.
Proof.
  revert t. induction docs as [|[k d] docs IH]; intros t Hnd Hfresh; csimpl.
  - lia.
  - apply NoDup_cons in Hnd as [Hk Hnd].
    unfold insert_docs in *. csimpl. unfold insert_doc at 2. csimpl.
    rewrite (Hfresh k) by (csimpl; left).
    rewrite IH; [| done |].
    + rewrite map_size_insert_None by (apply Hfresh; csimpl; left). lia.
    + intros id Hid. rewrite lookup_insert_ne.
      * apply Hfresh. csimpl. by right.
      * intros ->. done.
Qed.
End Logs.

(** C2, counterexample: a team with one active member and no project is
    deleted, and nothing is inserted or published for its member. *)
Lemma archiveTeam_solo_team_gets_no_notification :
  isLead Demo.h "t1" (Demo.ctx_of "u1" ["t1"]) Demo.solo ∧
  ArchiveTeam.projectCount "t1" Demo.solo = 0 ∧
  length (ArchiveTeam.activeUserIds "t1" Demo.solo) = 1 ∧
  ¬ fans_out_to_every_member Demo.h "t1" (Demo.ctx_of "u1" ["t1"]) 100%Z
      (Demo.world_of Demo.solo).
Proof.
  repeat split; try (vm_compute; reflexivity).
  intros [H _]. vm_compute in H. discriminate H.
Qed.

(** C2, amended: a soft-archived team with N active members gets N
    notifications of type TEAM_ARCHIVED, one per member and each for that
    member alone, N publishes on the notification topic, and one publish
    on the team-update topic unless it was archived before; the team that
    is deleted (N = 1 and no project) gets none, and one publish on the
    team-update topic. *)
Theorem archiveTeam_notifies_soft_archived_members
    (h : Helpers) (teamId : string) (ctx : Context) (now : Z) (w : World) (team : Team) :
  isLead h teamId ctx (db w) →
  Team_table (db w) !! teamId = Some team →
  let members := ArchiveTeam.activeUserIds teamId (db w) in
  let run := ArchiveTeam.resolve h teamId ctx now in
  (¬ hardDeletes teamId (db w) →
     ∃ ns : list (string * Notification),
       Notification_table (db (run w).2) = insert_docs ns (Notification_table (db w)) ∧
       ns.*1 = imap (λ i _, shortid_generate h (shortid_calls w + i)) members ∧
       n_userIds <$> ns.*2 = (λ u, [u]) <$> members ∧
       Forall (λ n : string * Notification, n_type n.2 = TEAM_ARCHIVED) ns ∧
       (NoDup ns.*1 → (∀ id, id ∈ ns.*1 → Notification_table (db w) !! id = None) →
          size (Notification_table (db (run w).2)) =
          size (Notification_table (db w)) + length members) ∧
       on_kind NOTIFICATIONS_ADDED (publishes_of run w) = notificationPublish <$> ns ∧
       length (on_kind NOTIFICATIONS_ADDED (publishes_of run w)) = length members ∧
       length (on_kind TEAM (publishes_of run w)) = (if team_isArchived team then 0 else 1)) ∧
  (hardDeletes teamId (db w) →
     Notification_table (db (run w).2) = Notification_table (db w) ∧
     on_kind NOTIFICATIONS_ADDED (publishes_of run w) = [] ∧
     length (on_kind TEAM (publishes_of run w)) = 1).
Proof.
  intros Hlead Ht members run. unfold isLead in Hlead. subst run.
  split.
  - intros Hn.
    set (nd := ArchiveTeam.mkNotificationData (ArchiveTeam.projectCount teamId (db w))
                 (team_name team) (team_orgId team) members).
    exists (archivedNotifications h nd now (shortid_calls w)).
    assert (length (archivedNotifications h nd now (shortid_calls w)) = length members) as Hlen
      by apply length_archivedNotifications.
    assert (∀ A (f : string * Notification → A) (g : nat → string → A),
              (∀ i u, f (shortid_generate h (shortid_calls w + i),
                         mkNotification (team_orgId team) now TEAM_ARCHIVED [u]
                           (team_name team)) = g i u) →
              f <$> archivedNotifications h nd now (shortid_calls w) = imap g members) as Hmap.
    { intros A f g Hfg. unfold archivedNotifications. cbn [ArchiveTeam.nd_userIds nd].
      rewrite fmap_imap. apply imap_ext. intros i u _. apply Hfg. }
    pose proof (ArchiveTeamFacts.resolve_run h teamId ctx now w) as Hrun.
    cbv zeta in Hrun. rewrite Hlead, (ArchiveQuery.query_soft _ _ _ Ht Hn) in Hrun.
    fold members in Hrun. fold nd in Hrun.
    cbn [ArchiveTeam.notificationData ArchiveTeam.teamResult ArchiveTeam.userDocs] in Hrun.
    set (ns := archivedNotifications h nd now (shortid_calls w)) in *.
    assert (on_kind NOTIFICATIONS_ADDED (notificationPublish <$> ns) = notificationPublish <$> ns)
      as Hnk by (by apply on_kind_fmap_same).
    assert (on_kind TEAM (notificationPublish <$> ns) = []) as Htk
      by (by apply on_kind_fmap_other).
    assert (publishes_of (ArchiveTeam.resolve h teamId ctx now) w =
            (notificationPublish <$> ns) ++
            (if team_isArchived team then []
             else [teamPublish teamId ctx] ++
                  (authTokenPublish h <$> (ArchiveTeam.updateUsers teamId members
                                             (User_table (db w))).2))) as Hpub.
    { destruct (team_isArchived team);
        (eapply publishes_of_app; [exact Hrun|]); cbn [published].
      - by rewrite app_nil_r.
      - by rewrite <- app_assoc. }
    assert (db (ArchiveTeam.resolve h teamId ctx now w).2 =
            set_Notification_table (insert_docs ns (Notification_table (db w)))
              (mkStore (<[teamId:=set_isArchived true team]> (Team_table (db w)))
                 (TeamMember_table (db w))
                 (ArchiveTeam.updateUsers teamId members (User_table (db w))).1
                 (Project_table (db w)) (Notification_table (db w)) (Provider_table (db w))
                 (GitHub_table (db w)))) as Hdb.
    { rewrite Hrun. by destruct (team_isArchived team). }
    rewrite Hpub, Hdb. cbn [Notification_table set_Notification_table].
    split; [|split; [|split; [|split; [|split; [|split; [|split]]]]]].
    + done.
    + by apply Hmap.
    + rewrite <- list_fmap_compose.
      rewrite (Hmap _ _ (λ _ u, [u])) by done. apply imap_const.
    + apply Forall_forall. intros n Hin. unfold ns, archivedNotifications in Hin.
      apply elem_of_lookup_imap_1 in Hin as (i & u & -> & _). done.
    + intros Hnd Hfresh. rewrite insert_docs_size by done. by rewrite Hlen.
    + rewrite on_kind_app, Hnk.
      destruct (team_isArchived team); [by rewrite app_nil_r|].
      rewrite on_kind_app, on_kind_fmap_other, on_kind_teamPublish by done.
      rewrite decide_False by done. by rewrite app_nil_r.
    + rewrite on_kind_app, Hnk, length_app, length_fmap, Hlen.
      destruct (team_isArchived team); [cbn; lia|].
      rewrite on_kind_app, on_kind_fmap_other, on_kind_teamPublish by done.
      rewrite decide_False by done. cbn. lia.
    + rewrite on_kind_app, Htk.
      destruct (team_isArchived team); [done|].
      rewrite on_kind_app, on_kind_fmap_other, on_kind_teamPublish by done. done.
  - intros Hh.
    pose proof (ArchiveTeamFacts.resolve_run h teamId ctx now w) as Hrun.
    cbv zeta in Hrun. rewrite Hlead, (ArchiveQuery.query_hard _ _ _ Ht Hh) in Hrun.
    cbn [ArchiveTeam.notificationData ArchiveTeam.teamResult ArchiveTeam.userDocs] in Hrun.
    erewrite (publishes_of_app _ _ _ _ ([teamPublish teamId ctx] ++ _) Hrun);
      [| cbn [published fmap list_fmap]; by rewrite app_nil_r].
    rewrite Hrun. cbn [snd db Notification_table].
    rewrite !on_kind_app, !on_kind_fmap_other, !on_kind_teamPublish by done.
    done.
Qed.

Module AddGitHubRepoFacts.
Import AddGitHubRepo.

Section Facts.
Variable h : Helpers.

(** What one run of the resolution part does, case by case. *)
Lemma resolution_run teamId nameWithOwner ctx now providers idx accessToken ghRepoId w :
  let userId := getUserId h (authToken ctx) in
  let hook1 := createRepoWebhook h accessToken nameWithOwner (pretty ghRepoId) in
  let hook2 := createOrgWebhook h accessToken nameWithOwner in
  let ext := external w ++ [detached "createRepoWebhook" hook1.1 hook1.2;
                            detached "createOrgWebhook" hook2.1 hook2.2] in
  let id := shortid_generate h (shortid_calls w) in
  resolution h teamId nameWithOwner ctx now providers idx accessToken ghRepoId w =
  match createOrRehydrate id teamId nameWithOwner userId now (db w) with
  | inl e => (Thrown e, mkWorld (db w) (published w) ext (S (shortid_calls w)) (share_calls w))
  | inr (newRepo, s1) =>
      match maybeJoinRepos h [newRepo] (take idx providers ++ drop (idx + 1) providers) s1 with
      | (Thrown e, s2) =>
          (Thrown e, mkWorld s2 (published w) ext (S (shortid_calls w)) (share_calls w))
      | (Returned usersAndIntegrations, s2) =>
          let userIds :=
            (filter (λ kv : string * list string, 0 < length kv.2) usersAndIntegrations).*1
            ++ [userId] in
          let repo := mkPublishedRepo newRepo.1 (set_userIds userIds newRepo.2)
                        (teamMembersOf teamId userIds s2) in
          (Returned (repoAdded repo),
           mkWorld s2
             (published w ++ [(mkTopic githubRepoAdded_topic teamId,
                               mkPayload (githubRepoAdded repo) None (Some (socketId ctx)))])
             ext (S (shortid_calls w)) (share_calls w))
      end
  end.
Proof.
  intros userId hook1 hook2 ext id. unfold resolution.
  fold hook1. fold hook2. destruct hook1 as [reqs1 p1], hook2 as [reqs2 p2].
  rewrite bind_apply. unfold call_external at 1. world.
  rewrite bind_apply. unfold call_external at 1. world.
  rewrite bind_apply. unfold shortid at 1. world.
  rewrite bind_apply. unfold reql at 1. world.
  rewrite <- app_assoc. cbn [app].
  fold userId. fold id.
  destruct (createOrRehydrate id teamId nameWithOwner userId now (db w))
    as [e|[newRepo s1]]; [done|].
  unfold set_db. world.
  rewrite bind_apply. unfold run_maybeJoinRepos at 1. world.
  destruct (maybeJoinRepos h [newRepo] _ s1) as [[ui|e] s2]; unfold set_db; world; [|done].
  rewrite bind_apply. unfold getStore at 1. world.
  rewrite bind_apply. unfold publish at 1. world.
  reflexivity.
Qed.

(** [resolve] either answers with a [standardError] and touches nothing,
    or fails on a malformed answer and touches nothing, or goes on to
    the resolution part. *)
Lemma resolve_cases teamId nameWithOwner ctx now w :
  let viewerId := getUserId h (authToken ctx) in
  let run := resolve h teamId nameWithOwner ctx now w in
  (∃ message, run = (Returned (standardError message viewerId), w)) ∨
  run = (Thrown TypeError, w) ∨
  (isTeamMember h (authToken ctx) teamId = true ∧
   ∃ idx provider repository,
     list_find (λ p, p_userId p = viewerId) (allTeamProviders teamId (db w))
       = Some (idx, provider) ∧
     tokenCanAccessRepo h (p_accessToken provider) nameWithOwner
       = mkPermissionsResponse (Some repository) false ∧
     viewerCanAdminister repository = true ∧
     run = resolution h teamId nameWithOwner ctx now (allTeamProviders teamId (db w)) idx
             (p_accessToken provider) (databaseId repository) w).
Proof.
  intros viewerId run. subst run. unfold resolve. fold viewerId.
  destruct (isTeamMember h (authToken ctx) teamId) eqn:Hm; cbn [negb];
    [|left; eexists; reflexivity].
  rewrite !bind_apply. unfold getStore. world.
  destruct (list_find _ _) as [[idx provider]|] eqn:Hf; [|left; eexists; reflexivity].
  destruct (tokenCanAccessRepo h (p_accessToken provider) nameWithOwner)
    as [[repository|] [|]] eqn:Hp; cbn [errors data_repository];
    [left; eexists; reflexivity | | left; eexists; reflexivity | right; left; reflexivity].
  destruct (viewerCanAdminister repository) eqn:Ha; cbn [negb];
    [|left; eexists; reflexivity].
  right. right. split; [done|]. exists idx, provider, repository. by rewrite Hp.
Qed.
End Facts.
End AddGitHubRepoFacts.

Module Integrations.
Import AddGitHubRepo.

Lemma same_keys_refl t : same_keys t t.
Proof. intros k. by destruct (t !! k). Qed.

Lemma same_keys_trans t1 t2 t3 : same_keys t1 t2 → same_keys t2 t3 → same_keys t1 t3.
Proof.
  intros H12 H23 k. specialize (H12 k). specialize (H23 k).
  destruct (t1 !! k), (t2 !! k), (t3 !! k); try done.
  destruct H12, H23. split; congruence.
Qed.

Lemma same_keys_dom t t' : same_keys t t' → dom t' = dom t.
Proof.
  intros H. apply set_eq. intros k. rewrite !elem_of_dom. specialize (H k).
  destruct (t !! k), (t' !! k); try done; split; intros [? ?]; done || eauto.
Qed.

Lemma same_keys_one_per_key t t' : same_keys t t' → one_per_key t → one_per_key t'.
Proof.
  intros H Hone k1 k2 g1 g2 H1 H2 Ht Hn.
  pose proof (H k1) as Hk1. pose proof (H k2) as Hk2. rewrite H1 in Hk1. rewrite H2 in Hk2.
  destruct (t !! k1) as [g1'|] eqn:E1; [|done].
  destruct (t !! k2) as [g2'|] eqn:E2; [|done].
  destruct Hk1 as [Ht1 Hn1], Hk2 as [Ht2 Hn2].
  apply (Hone k1 k2 g1' g2' E1 E2); congruence.
Qed.

Lemma same_keys_update t k g g' :
  t !! k = Some g → gh_teamId g' = gh_teamId g → gh_nameWithOwner g' = gh_nameWithOwner g →
  same_keys t (<[k := g']> t).
Proof.
  intros Hk Ht Hn k'. destruct (decide (k = k')) as [<-|Hne].
  - by rewrite Hk, lookup_insert_eq.
  - rewrite lookup_insert_ne by done. by destruct (t !! k').
Qed.

(** The rows [integrations] lists are the rows of the key. *)
Lemma elem_of_integrations teamId nameWithOwner s k g :
  (k, g) ∈ integrations teamId nameWithOwner s ↔
  GitHub_table s !! k = Some g ∧ gh_teamId g = teamId ∧ gh_nameWithOwner g = nameWithOwner.
Proof.
  unfold integrations, getAll. rewrite !list_elem_of_filter, elem_of_map_to_list.
  cbn [snd]. tauto.
Qed.

(** The three ways [createOrRehydrate] can end. *)
Lemma createOrRehydrate_cases id teamId nameWithOwner userId now s :
  let fresh := mkGitHubRepo userId now now true nameWithOwner teamId [userId] in
  match createOrRehydrate id teamId nameWithOwner userId now s with
  | inl _ => True
  | inr ((k, g), s') =>
      s' = set_GitHub_table (<[k := g]> (GitHub_table s)) s ∧
      ((integrations teamId nameWithOwner s = [] ∧ GitHub_table s !! id = None ∧
        k = id ∧ g = fresh) ∨
       (∃ old, head (integrations teamId nameWithOwner s) = Some (k, old) ∧
               GitHub_table s !! k = Some old ∧
               gh_teamId old = teamId ∧ gh_nameWithOwner old = nameWithOwner ∧
               g = rehydrate userId now old))
  end.
Proof.
  intros fresh. unfold createOrRehydrate.
  destruct (integrations teamId nameWithOwner s) as [|[k old] rest] eqn:Hi; cbn [head].
  - destruct (GitHub_table s !! id) eqn:Hid; [done|]. split; [done|]. left. done.
  - case_decide; [done|]. split; [done|]. right. exists old.
    assert ((k, old) ∈ integrations teamId nameWithOwner s) as Hin by (rewrite Hi; left).
    apply elem_of_integrations in Hin as (? & ? & ?). done.
Qed.

Lemma createOrRehydrate_error id teamId nameWithOwner userId now s e :
  createOrRehydrate id teamId nameWithOwner userId now s = inl e → ∃ m, e = ReqlError m.
Proof.
  unfold createOrRehydrate.
  destruct (head _) as [[k old]|].
  - case_decide; [|done]. intros [= <-]. eauto.
  - destruct (GitHub_table s !! id); [|done]. intros [= <-]. eauto.
Qed.

(** The write keeps one row per key; with a row for the key in place it
    keeps the primary keys too. *)
Lemma createOrRehydrate_keys id teamId nameWithOwner userId now s r s' :
  createOrRehydrate id teamId nameWithOwner userId now s = inr (r, s') →
  (one_per_key (GitHub_table s) → one_per_key (GitHub_table s')) ∧
  (integrations teamId nameWithOwner s ≠ [] →
     same_keys (GitHub_table s) (GitHub_table s')) ∧
  ∃ g, r.2 = g ∧ GitHub_table s' !! r.1 = Some g ∧ gh_isActive g = true ∧
       gh_teamId g = teamId ∧ gh_nameWithOwner g = nameWithOwner.
Proof.
  intros Hrun.
  pose proof (createOrRehydrate_cases id teamId nameWithOwner userId now s) as Hc.
  cbv zeta in Hc. rewrite Hrun in Hc. destruct r as [k g].
  destruct Hc as [-> [(Hnone & Hfresh & -> & ->)|(old & Hhead & Hold & Ht & Hn & ->)]];
    cbn [GitHub_table set_GitHub_table fst snd].
  - split; [|split].
    + intros Hone k1 k2 g1 g2 H1 H2 Ht Hn.
      destruct (decide (id = k1)) as [<-|N1], (decide (id = k2)) as [<-|N2]; [done|..].
      * rewrite lookup_insert_eq in H1. rewrite lookup_insert_ne in H2 by done.
        injection H1 as <-. cbn in Ht, Hn.
        assert ((k2, g2) ∈ integrations teamId nameWithOwner s) as Hin
          by (by apply elem_of_integrations).
        rewrite Hnone in Hin. by apply elem_of_nil in Hin.
      * rewrite lookup_insert_eq in H2. rewrite lookup_insert_ne in H1 by done.
        injection H2 as <-. cbn in Ht, Hn.
        assert ((k1, g1) ∈ integrations teamId nameWithOwner s) as Hin
          by (by apply elem_of_integrations).
        rewrite Hnone in Hin. by apply elem_of_nil in Hin.
      * rewrite lookup_insert_ne in H1, H2 by done. by apply (Hone k1 k2 g1 g2).
    + intros Hne. done.
    + eexists. split; [done|]. by rewrite lookup_insert_eq.
  - assert (same_keys (GitHub_table s) (<[k := rehydrate userId now old]> (GitHub_table s)))
      as Hsame by (by apply (same_keys_update _ _ old)).
    split; [|split].
    + by apply same_keys_one_per_key.
    + done.
    + eexists. split; [done|]. by rewrite lookup_insert_eq.
Qed.
End Integrations.

Module AddGitHubRepoTable.
Import AddGitHubRepo.

(** What one call does to the integration table. *)
Lemma resolve_table h teamId nameWithOwner ctx now w :
  joins_in_place h →
  let run := resolve h teamId nameWithOwner ctx now in
  (integrations teamId nameWithOwner (db w) ≠ [] →
     same_keys (GitHub_table (db w)) (GitHub_table (db (run w).2))) ∧
  (one_per_key (GitHub_table (db w)) → one_per_key (GitHub_table (db (run w).2))) ∧
  (∀ repo, (run w).1 = Returned (repoAdded repo) →
     ∃ g, GitHub_table (db (run w).2) !! repo_id repo = Some g ∧ gh_isActive g = true ∧
          gh_teamId g = teamId ∧ gh_nameWithOwner g = nameWithOwner).
Proof.
  intros Hjoin run. subst run.
  destruct (AddGitHubRepoFacts.resolve_cases h teamId nameWithOwner ctx now w)
    as [[m ->]|[->|(_ & idx & provider & repository & _ & _ & _ & ->)]];
    cbn [fst snd]; try (split; [intros; apply Integrations.same_keys_refl|split; [done|done]]).
  rewrite AddGitHubRepoFacts.resolution_run. cbv zeta.
  destruct (createOrRehydrate _ teamId nameWithOwner _ now (db w)) as [e|[newRepo s1]] eqn:Hc;
    cbn [fst snd db];
    [split; [intros; apply Integrations.same_keys_refl|split; [done|done]]|].
  apply Integrations.createOrRehydrate_keys in Hc as (Hone & Hsame & g & Hg & Hrow & Hact & Ht & Hn).
  pose proof (Hjoin [newRepo]
                (take idx (allTeamProviders teamId (db w)) ++
                 drop (idx + 1) (allTeamProviders teamId (db w))) s1) as [Hk Ha].
  cbv zeta in Hk, Ha.
  destruct (maybeJoinRepos h [newRepo] _ s1) as [[ui|e] s2]; cbn [fst snd db] in *.
  - split; [|split].
    + intros Hne. eapply Integrations.same_keys_trans; [by apply Hsame|done].
    + intros H1. eapply Integrations.same_keys_one_per_key; [done|by apply Hone].
    + intros repo [= <-]. cbn [repo_id].
      pose proof (Hk newRepo.1) as Hk1. rewrite Hrow in Hk1.
      destruct (GitHub_table s2 !! newRepo.1) as [g'|] eqn:Hg'; [|done].
      exists g'. destruct Hk1 as [? ?]. split; [done|].
      split; [|split; congruence]. rewrite (Ha _ _ _ Hrow Hg'). done.
  - split; [|split].
    + intros Hne. eapply Integrations.same_keys_trans; [by apply Hsame|done].
    + intros H1. eapply Integrations.same_keys_one_per_key; [done|by apply Hone].
    + done.
Qed.
End AddGitHubRepoTable.

Module Rehydration.
Import AddGitHubRepo.

(** A validated call goes on to the resolution part. *)
Lemma resolve_validated h teamId nameWithOwner ctx now w idx provider repository :
  validated h teamId nameWithOwner ctx (db w) idx provider repository →
  resolve h teamId nameWithOwner ctx now w =
  resolution h teamId nameWithOwner ctx now (allTeamProviders teamId (db w)) idx
    (p_accessToken provider) (databaseId repository) w.
Proof.
  intros (Hm & Hf & Hp & Ha). unfold resolve. rewrite Hm. cbn [negb].
  rewrite !bind_apply. unfold getStore. world. rewrite Hf, Hp.
  cbn [errors data_repository]. rewrite Ha. reflexivity.
Qed.

(** The first row of a key is a row of the table. *)
Lemma head_integrations teamId nameWithOwner s k old :
  head (integrations teamId nameWithOwner s) = Some (k, old) →
  GitHub_table s !! k = Some old ∧ gh_teamId old = teamId ∧
  gh_nameWithOwner old = nameWithOwner.
Proof.
  intros Hhead. apply Integrations.elem_of_integrations.
  destruct (integrations teamId nameWithOwner s) as [|kv rest]; [done|].
  injection Hhead as ->. left.
Qed.

(** With one row per key, the row of a key is the first one listed. *)
Lemma integrations_head teamId nameWithOwner s k g :
  one_per_key (GitHub_table s) →
  GitHub_table s !! k = Some g → gh_teamId g = teamId → gh_nameWithOwner g = nameWithOwner →
  head (integrations teamId nameWithOwner s) = Some (k, g).
Proof.
  intros Hone Hk Ht Hn.
  assert ((k, g) ∈ integrations teamId nameWithOwner s) as Hin
    by (by apply Integrations.elem_of_integrations).
  destruct (integrations teamId nameWithOwner s) as [|[k' g'] rest] eqn:Hi;
    [by apply elem_of_nil in Hin|].
  assert ((k', g') ∈ integrations teamId nameWithOwner s) as Hin' by (rewrite Hi; left).
  apply Integrations.elem_of_integrations in Hin' as (Hk' & Ht' & Hn').
  assert (k' = k) as -> by (apply (Hone k' k g' g); congruence).
  cbn. congruence.
Qed.

(** A validated call on a key that has a row. *)
Lemma resolve_existing h teamId nameWithOwner ctx now w idx provider repository k old :
  joins_in_place h →
  validated h teamId nameWithOwner ctx (db w) idx provider repository →
  head (integrations teamId nameWithOwner (db w)) = Some (k, old) →
  rehydrates h teamId nameWithOwner ctx now w k old.
Proof.
  intros Hjoin Hvalid Hhead. unfold rehydrates. cbv zeta.
  rewrite (resolve_validated _ _ _ _ _ _ _ _ _ Hvalid), AddGitHubRepoFacts.resolution_run.
  cbv zeta. unfold createOrRehydrate. rewrite Hhead.
  destruct (head_integrations _ _ _ _ _ Hhead) as (Hk & Ht & Hn).
  set (new := rehydrate (getUserId h (authToken ctx)) now old).
  case_decide as Hsame; cbn [fst snd db published].
  - split; [|split; [|split; [|split]]].
    + exists old. split; [done|]. split; [by rewrite <- Hsame|done].
    + done.
    + intros _. rewrite Hsame. symmetry. by apply insert_id.
    + done.
    + done.
  - set (s1 := set_GitHub_table (<[k:=new]> (GitHub_table (db w))) (db w)).
    set (others := take idx (allTeamProviders teamId (db w)) ++
                   drop (idx + 1) (allTeamProviders teamId (db w))).
    pose proof (Hjoin [(k, new)] others s1) as [Hkeys Hact]. cbv zeta in Hkeys, Hact.
    assert (GitHub_table s1 !! k = Some new) as Hrow
      by (unfold s1; cbn [GitHub_table set_GitHub_table]; apply lookup_insert_eq).
    assert (same_keys (GitHub_table (db w)) (GitHub_table s1)) as Hupd
      by (unfold s1; cbn [GitHub_table set_GitHub_table];
          by apply (Integrations.same_keys_update _ _ old)).
    assert (∀ s2, (maybeJoinRepos h [(k, new)] others s1).2 = s2 →
              (∃ g, GitHub_table s2 !! k = Some g ∧ gh_isActive g = true ∧
                    gh_teamId g = teamId ∧ gh_nameWithOwner g = nameWithOwner) ∧
              dom (GitHub_table s2) = dom (GitHub_table (db w)) ∧
              (joins_leave_table h → GitHub_table s2 = <[k:=new]> (GitHub_table (db w))))
      as Hafter.
    { intros s2 <-. split; [|split].
      - pose proof (Hkeys k) as Hkk. rewrite Hrow in Hkk.
        destruct (GitHub_table (maybeJoinRepos h [(k, new)] others s1).2 !! k)
          as [g'|] eqn:Hg'; [|done].
        exists g'. destruct Hkk as [Ht' Hn']. split; [done|].
        split; [by rewrite (Hact _ _ _ Hrow Hg')|]. cbn in Ht', Hn'. split; congruence.
      - apply Integrations.same_keys_dom. by eapply Integrations.same_keys_trans.
      - intros Hleave. by rewrite Hleave. }
    destruct (maybeJoinRepos h [(k, new)] others s1) as [[ui|e] s2] eqn:Hrun;
      cbn [fst snd db published]; destruct (Hafter s2 eq_refl) as (Hg & Hdom & Hexact).
    + split; [done|]. split; [done|]. split; [done|]. split; [|done].
      intros _ _. eexists. split; [reflexivity|]. done.
    + split; [done|]. split; [done|]. split; [done|]. split; [|done].
      intros _ Hanswer. destruct (Hanswer [(k, new)] others s1) as [ui Hui].
      rewrite Hrun in Hui. discriminate Hui.
Qed.
End Rehydration.

(** C6: a call for a (teamId, nameWithOwner) that already has an
    integration row updates that row and inserts none: whatever the
    outcome of the call, the table has the same ids and the row is
    active afterwards, it holds the rehydrated document when the join
    helper leaves the table alone, and the call returns the record of
    that row unless the update changes nothing, in which case it fails
    and the store is as before.  At most one row per key is kept.  After
    a call that returned a record, the key has the row of that record,
    and a second call for the key does all of the above to that row. *)
Theorem addGitHubRepo_idempotent_on_integration_table
    (h : Helpers) (teamId nameWithOwner : string) (ctx : Context) (now : Z) (w : World) :
  joins_in_place h →
  let run := AddGitHubRepo.resolve h teamId nameWithOwner ctx now in
  (AddGitHubRepo.integrations teamId nameWithOwner (db w) ≠ [] →
     dom (GitHub_table (db (run w).2)) = dom (GitHub_table (db w))) ∧
  (one_per_key (GitHub_table (db w)) → one_per_key (GitHub_table (db (run w).2))) ∧
  (∀ idx provider repository k old,
     validated h teamId nameWithOwner ctx (db w) idx provider repository →
     head (AddGitHubRepo.integrations teamId nameWithOwner (db w)) = Some (k, old) →
     rehydrates h teamId nameWithOwner ctx now w k old) ∧
  (∀ repo, (run w).1 = Returned (AddGitHubRepo.repoAdded repo) →
     (∃ g, GitHub_table (db (run w).2) !! repo_id repo = Some g ∧ gh_isActive g = true ∧
           gh_teamId g = teamId ∧ gh_nameWithOwner g = nameWithOwner ∧
           (one_per_key (GitHub_table (db w)) →
            head (AddGitHubRepo.integrations teamId nameWithOwner (db (run w).2))
              = Some (repo_id repo, g) ∧
            ∀ ctx2 now2 idx provider repository,
              validated h teamId nameWithOwner ctx2 (db (run w).2) idx provider repository →
              rehydrates h teamId nameWithOwner ctx2 now2 (run w).2 (repo_id repo) g)) ∧
     ∀ ctx2 now2,
       let again := AddGitHubRepo.resolve h teamId nameWithOwner ctx2 now2 (run w).2 in
       dom (GitHub_table (db again.2)) = dom (GitHub_table (db (run w).2)) ∧
       (one_per_key (GitHub_table (db w)) →
        ∀ repo2, again.1 = Returned (AddGitHubRepo.repoAdded repo2) →
                 repo_id repo2 = repo_id repo)).
Proof.
  intros Hjoin run.
  destruct (AddGitHubRepoTable.resolve_table h teamId nameWithOwner ctx now w Hjoin)
    as (Hsame & Hone & Hrow).
  fold run in Hsame, Hone, Hrow.
  split; [|split; [|split]].
  - intros Hne. by apply Integrations.same_keys_dom, Hsame.
  - exact Hone.
  - intros idx provider repository k old Hvalid Hhead.
    by apply (Rehydration.resolve_existing h teamId nameWithOwner ctx now w idx provider
                repository).
  - intros repo Hret. destruct (Hrow repo Hret) as (g & Hg & Hact & Ht & Hn).
    split.
    { exists g. do 4 (split; [done|]). intros H1.
      assert (head (AddGitHubRepo.integrations teamId nameWithOwner (db (run w).2))
                = Some (repo_id repo, g)) as Hhead
        by (apply Rehydration.integrations_head; auto).
      split; [exact Hhead|].
      intros ctx2 now2 idx provider repository Hvalid.
      by apply (Rehydration.resolve_existing h teamId nameWithOwner ctx2 now2 (run w).2 idx
                  provider repository). }
    intros ctx2 now2 again.
    destruct (AddGitHubRepoTable.resolve_table h teamId nameWithOwner ctx2 now2 (run w).2 Hjoin)
      as (Hsame2 & Hone2 & Hrow2).
    fold again in Hsame2, Hone2, Hrow2.
    assert (AddGitHubRepo.integrations teamId nameWithOwner (db (run w).2) ≠ []) as Hne.
    { intros Hnil.
      assert ((repo_id repo, g) ∈ AddGitHubRepo.integrations teamId nameWithOwner (db (run w).2))
        as Hin by (by apply Integrations.elem_of_integrations).
      rewrite Hnil in Hin. by apply elem_of_nil in Hin. }
    specialize (Hsame2 Hne).
    split; [by apply Integrations.same_keys_dom|].
    intros H1 repo2 Hret2.
    destruct (Hrow2 repo2 Hret2) as (g2 & Hg2 & _ & Ht2 & Hn2).
    pose proof (Hsame2 (repo_id repo)) as Hk. rewrite Hg in Hk.
    destruct (GitHub_table (db again.2) !! repo_id repo) as [g'|] eqn:Hg'; [|done].
    destruct Hk as [Ht' Hn'].
    apply (Hone2 (Hone H1) (repo_id repo2) (repo_id repo) g2 g'); congruence.
Qed.

Module InviteFacts.
Import InviteTeamMembers.

Section Facts.
Variable h : Helpers.

(** What one run of the resolver does around the safe mutation. *)
Lemma resolve_with_run safe invitees teamId ctx w :
  resolve_with h safe invitees teamId ctx w =
  if requireOrgLeaderOrTeamMember h (db w) (authToken ctx) teamId then
    match safe invitees teamId (getUserId h (authToken ctx))
            (mkSubOptions (socketId ctx) (dataLoader_operationId ctx)) (shared w) with
    | (Thrown e, w2) => (Thrown e, w2)
    | (Returned (reactivations, results), w2) =>
        (Returned (mkInviteTeamMembersPayload (teamMemberId <$> reactivations) results),
         mkWorld (db w2)
           (published w2 ++ (reactivations ≫= reactivationPublishes h teamId ctx))
           (external w2) (shortid_calls w2) (share_calls w2))
    end
  else (Thrown AuthorizationError, shared w).
Proof.
  unfold resolve_with.
  rewrite bind_apply. unfold dataLoader_share at 1. world.
  rewrite bind_apply. unfold getStore at 1. world.
  rewrite bind_apply.
  destruct (requireOrgLeaderOrTeamMember h (db w) (authToken ctx) teamId); [|done].
  unfold ret at 1. world. rewrite bind_apply. fold (shared w).
  destruct (safe invitees teamId _ _ (shared w)) as [[[reactivations results]|e] w2]; [|done].
  rewrite bind_apply.
  rewrite (forEach_log _ (reactivationPublishes h teamId ctx) (λ _, [])).
  - rewrite bind_nothing, app_nil_r. reflexivity.
  - intros r w0. unfold handleReactivation. rewrite bind_apply.
    unfold publish, spread. world. rewrite app_nil_r, <- app_assoc. reflexivity.
Qed.
End Facts.
End InviteFacts.

Module ArchiveLog.
Import ArchiveTeam.

(** The shape of what one call publishes, and the count of shares. *)
Lemma resolve_publishes h teamId ctx now w :
  share_calls (resolve h teamId ctx now w).2 = S (share_calls w) ∧
  ∃ ns us (reached : bool),
    publishes_of (resolve h teamId ctx now) w =
    (notificationPublish <$> ns) ++
    (if reached then [teamPublish teamId ctx] ++ (authTokenPublish h <$> us) else []) ∧
    (reached = true ↔ ∃ payload, (resolve h teamId ctx now w).1 = Returned payload).
Proof.
  pose proof (ArchiveTeamFacts.resolve_run h teamId ctx now w) as Hrun. cbv zeta in Hrun.
  destruct (requireTeamLead h (db w) _).
  - destruct (query teamId (db w)) as [e|[res s']].
    + rewrite Hrun. split; [done|]. exists [], [], false. split.
      * eapply publishes_of_app; [exact Hrun|]. cbn. by rewrite app_nil_r.
      * split; [done|]. intros [? [=]].
    + destruct (teamResult res) as [t|].
      * rewrite Hrun. split; [done|]. eexists _, (userDocs res), true. split.
        -- eapply publishes_of_app; [exact Hrun|]. cbn [published].
           rewrite <- app_assoc. reflexivity.
        -- split; [eauto|done].
      * rewrite Hrun. split; [done|]. eexists _, [], false. split.
        -- eapply publishes_of_app; [exact Hrun|]. cbn [published].
           by rewrite app_nil_r.
        -- split; [done|]. intros [? [=]].
  - rewrite Hrun. split; [done|]. exists [], [], false. split.
    + eapply publishes_of_app; [exact Hrun|]. cbn. by rewrite app_nil_r.
    + split; [done|]. intros [? [=]].
Qed.
End ArchiveLog.

(** C9: a successful [archiveTeam] returns the team with [isArchived]
    set, whether the team was deleted or archived: in both cases the
    payload is the document the store held, with the flag set. *)
Theorem archiveTeam_payload_is_archived
    (h : Helpers) (teamId : string) (ctx : Context) (now : Z) (w : World) :
  (∀ payload, (ArchiveTeam.resolve h teamId ctx now w).1 = Returned payload →
     payload.1 = teamId ∧ team_isArchived payload.2 = true) ∧
  (∀ team, isLead h teamId ctx (db w) → Team_table (db w) !! teamId = Some team →
     hardDeletes teamId (db w) ∨ team_isArchived team = false →
     (ArchiveTeam.resolve h teamId ctx now w).1 = Returned (teamId, set_isArchived true team)).
Proof.
  pose proof (ArchiveTeamFacts.resolve_run h teamId ctx now w) as Hrun. cbv zeta in Hrun.
  split.
  - intros payload. rewrite Hrun.
    destruct (requireTeamLead h (db w) _); [|done].
    destruct (ArchiveTeam.query teamId (db w)) as [e|[res s']]; [done|].
    destruct (ArchiveTeam.teamResult res) as [t|]; [|done].
    cbn [fst]. intros [= <-]. done.
  - intros team Hlead Ht Hcase. unfold isLead in Hlead. rewrite Hrun, Hlead.
    destruct (decide (hardDeletes teamId (db w))) as [Hh|Hn].
    + by rewrite (ArchiveQuery.query_hard _ _ _ Ht Hh).
    + destruct Hcase as [Hh|Ha]; [done|].
      rewrite (ArchiveQuery.query_soft _ _ _ Ht Hn). cbn [ArchiveTeam.teamResult].
      by rewrite Ha.
Qed.

(** C5: when the authorization check denies the caller, the resolver
    stops with the store and the publish log as they were; this holds for
    all three resolvers, whatever the safe mutation of the third is. *)
Theorem denied_call_writes_and_publishes_nothing (h : Helpers) (ctx : Context) (w : World) :
  (∀ teamId now,
     requireTeamLead h (db w) (toTeamMemberId h teamId (getUserId h (authToken ctx))) = false →
     let run := ArchiveTeam.resolve h teamId ctx now w in
     run.1 = Thrown AuthorizationError ∧ db run.2 = db w ∧ published run.2 = published w) ∧
  (∀ teamId nameWithOwner now,
     isTeamMember h (authToken ctx) teamId = false →
     let run := AddGitHubRepo.resolve h teamId nameWithOwner ctx now w in
     run.1 = Returned (AddGitHubRepo.standardError "Team not found"
                         (getUserId h (authToken ctx))) ∧
     db run.2 = db w ∧ published run.2 = published w) ∧
  (∀ safeMutation invitees teamId,
     requireOrgLeaderOrTeamMember h (db w) (authToken ctx) teamId = false →
     let run := InviteTeamMembers.resolve_with h safeMutation invitees teamId ctx w in
     run.1 = Thrown AuthorizationError ∧ db run.2 = db w ∧ published run.2 = published w).
Proof.
  split; [|split].
  - intros teamId now Hdenied run. subst run.
    rewrite ArchiveTeamFacts.resolve_run. cbv zeta. by rewrite Hdenied.
  - intros teamId nameWithOwner now Hdenied run. subst run.
    unfold AddGitHubRepo.resolve. by rewrite Hdenied.
  - intros safeMutation invitees teamId Hdenied run. subst run.
    rewrite InviteFacts.resolve_with_run. by rewrite Hdenied.
Qed.

(** C3, counterexample: archiving a team that is archived already is a
    business-rule failure, and it is thrown. *)
Lemma archiveTeam_throws_already_archived :
  isLead Demo.h "t3" (Demo.ctx_of "u1" ["t3"]) Demo.trio_archived ∧
  (ArchiveTeam.resolve Demo.h "t3" (Demo.ctx_of "u1" ["t3"]) 100%Z
     (Demo.world_of Demo.trio_archived)).1 = Thrown (Error "Team was already archived") ∧
  ¬ reported_in_payload
      (ArchiveTeam.resolve Demo.h "t3" (Demo.ctx_of "u1" ["t3"]) 100%Z
         (Demo.world_of Demo.trio_archived)).1.
Proof.
  split; [vm_compute; reflexivity|]. split; [vm_compute; reflexivity|].
  intros [a Ha]. vm_compute in Ha. discriminate Ha.
Qed.

(** C3, amended: [AddGitHubRepo] returns its authorization failure and
    its business-rule failures as [standardError] payloads and throws only
    on a malformed answer, a failed store expression or a failure of the
    join helper; [archiveTeam] throws both its authorization failure and
    its "already archived" failure. *)
Theorem failures_returned_by_addGitHubRepo_thrown_by_archiveTeam
    (h : Helpers) (ctx : Context) (w : World) :
  let viewerId := getUserId h (authToken ctx) in
  (∀ teamId nameWithOwner now,
     let run := AddGitHubRepo.resolve h teamId nameWithOwner ctx now w in
     let providers := AddGitHubRepo.allTeamProviders teamId (db w) in
     (isTeamMember h (authToken ctx) teamId = false →
        run = (Returned (AddGitHubRepo.standardError "Team not found" viewerId), w)) ∧
     (isTeamMember h (authToken ctx) teamId = true →
        list_find (λ p, p_userId p = viewerId) providers = None →
        run = (Returned (AddGitHubRepo.standardError "GitHub Provider not found" viewerId), w)) ∧
     (∀ idx provider,
        isTeamMember h (authToken ctx) teamId = true →
        list_find (λ p, p_userId p = viewerId) providers = Some (idx, provider) →
        let answer := tokenCanAccessRepo h (p_accessToken provider) nameWithOwner in
        (errors answer = true →
           run = (Returned (AddGitHubRepo.standardError "Unknown GitHub error" viewerId), w)) ∧
        (∀ repository,
           errors answer = false → data_repository answer = Some repository →
           viewerCanAdminister repository = false →
           run = (Returned (AddGitHubRepo.standardError "Not GitHub Administrator" viewerId),
                  w))) ∧
     (∀ e, run.1 = Thrown e →
        e = TypeError ∨ (∃ m, e = ReqlError m) ∨
        ∃ repos providers s, (maybeJoinRepos h repos providers s).1 = Thrown e)) ∧
  (∀ teamId now,
     let run := ArchiveTeam.resolve h teamId ctx now w in
     (requireTeamLead h (db w) (toTeamMemberId h teamId viewerId) = false →
        run.1 = Thrown AuthorizationError) ∧
     (∀ team, isLead h teamId ctx (db w) → Team_table (db w) !! teamId = Some team →
        team_isArchived team = true → ¬ hardDeletes teamId (db w) →
        run.1 = Thrown (Error "Team was already archived"))).
Proof.
  intros viewerId. split.
  - intros teamId nameWithOwner now run providers. subst run providers.
    split; [|split; [|split]].
    + intros Hm. unfold AddGitHubRepo.resolve. by rewrite Hm.
    + intros Hm Hf. unfold AddGitHubRepo.resolve. rewrite Hm. cbn [negb].
      rewrite bind_apply. unfold getStore. world. fold viewerId. by rewrite Hf.
    + intros idx provider Hm Hf answer. subst answer. split.
      * intros He. unfold AddGitHubRepo.resolve. rewrite Hm. cbn [negb].
        rewrite bind_apply. unfold getStore. world. fold viewerId. rewrite Hf.
        by rewrite He.
      * intros repository He Hd Ha. unfold AddGitHubRepo.resolve. rewrite Hm. cbn [negb].
        rewrite bind_apply. unfold getStore. world. fold viewerId. rewrite Hf.
        rewrite He, Hd, Ha. done.
    + intros e.
      destruct (AddGitHubRepoFacts.resolve_cases h teamId nameWithOwner ctx now w)
        as [[m ->]|[->|(_ & idx & provider & repository & _ & _ & _ & ->)]]; cbn [fst].
      * done.
      * intros [= <-]. by left.
      * rewrite AddGitHubRepoFacts.resolution_run. cbv zeta.
        destruct (AddGitHubRepo.createOrRehydrate _ _ _ _ _ _) as [e'|[newRepo s1]] eqn:Hc.
        -- cbn [fst]. intros [= <-]. right. left.
           by apply Integrations.createOrRehydrate_error in Hc.
        -- destruct (maybeJoinRepos h [newRepo] _ s1) as [[ui|e'] s2] eqn:Hj; cbn [fst]; [done|].
           intros [= <-]. right. right. do 3 eexists. by rewrite Hj.
  - intros teamId now run. subst run.
    pose proof (ArchiveTeamFacts.resolve_run h teamId ctx now w) as Hrun. cbv zeta in Hrun.
    fold viewerId in Hrun. split.
    + intros Hd. by rewrite Hrun, Hd.
    + intros team Hlead Ht Ha Hn. unfold isLead in Hlead. fold viewerId in Hlead.
      rewrite Hrun, Hlead, (ArchiveQuery.query_soft _ _ _ Ht Hn).
      cbn [ArchiveTeam.teamResult]. by rewrite Ha.
Qed.

(** C4, counterexample: of the events [archiveTeam] publishes for a team
    of three, the auth-token events carry neither key (nor do the
    notification events), so not every event of the call carries them. *)
Lemma archiveTeam_events_without_ids :
  isLead Demo.h "t3" (Demo.ctx_of "u1" ["t3"]) Demo.trio ∧
  let log := publishes_of (ArchiveTeam.resolve Demo.h "t3" (Demo.ctx_of "u1" ["t3"]) 100%Z)
               (Demo.world_of Demo.trio) in
  length (on_kind NEW_AUTH_TOKEN log) = 3 ∧
  Forall (λ tp : Topic * Payload, operationId tp.2 = None ∧ mutatorId tp.2 = None)
    (on_kind NEW_AUTH_TOKEN log) ∧
  ¬ all_carry (Demo.ctx_of "u1" ["t3"]) (on_kind NEW_AUTH_TOKEN log) ∧
  ¬ all_carry (Demo.ctx_of "u1" ["t3"]) log.
Proof.
  split; [vm_compute; reflexivity|]. cbv zeta.
  assert (publishes_of (ArchiveTeam.resolve Demo.h "t3" (Demo.ctx_of "u1" ["t3"]) 100%Z)
            (Demo.world_of Demo.trio) =
          (notificationPublish <$>
             [("id0", mkNotification "o1" 100%Z TEAM_ARCHIVED ["u3"] "Gamma");
              ("id1", mkNotification "o1" 100%Z TEAM_ARCHIVED ["u1"] "Gamma");
              ("id2", mkNotification "o1" 100%Z TEAM_ARCHIVED ["u2"] "Gamma")]) ++
          [teamPublish "t3" (Demo.ctx_of "u1" ["t3"])] ++
          (authTokenPublish Demo.h <$> [("u3", []); ("u1", []); ("u2", [])])) as ->
    by (vm_compute; reflexivity).
  rewrite !on_kind_app, on_kind_teamPublish, on_kind_fmap_other, on_kind_fmap_same by done.
  rewrite decide_False by done. cbn [app].
  split; [reflexivity|]. split.
  - apply Forall_fmap, Forall_true. done.
  - split.
    + intros H. apply Forall_inv in H. destruct H as [H _]. discriminate H.
    + intros H. apply Forall_inv in H. destruct H as [H _]. discriminate H.
Qed.

(** C4, amended: every event with a [data] payload carries the
    operationId of the request's one [dataLoader.share()] call and the
    mutatorId of the connection: the team-update event of [archiveTeam]
    and the two events per reactivation of the invitation resolver.  The
    auth-token events of [archiveTeam] carry neither. *)
Theorem data_events_carry_operation_and_mutator (h : Helpers) (ctx : Context) (w : World) :
  (∀ teamId now,
     let run := ArchiveTeam.resolve h teamId ctx now in
     share_calls (run w).2 = S (share_calls w) ∧
     all_carry ctx (on_kind TEAM (publishes_of run w)) ∧
     ((∃ payload, (run w).1 = Returned payload) →
        on_kind TEAM (publishes_of run w) =
        [(mkTopic TEAM teamId,
          mkPayload (data_team teamId UPDATED) (Some (dataLoader_operationId ctx))
            (Some (socketId ctx)))]) ∧
     Forall (λ tp : Topic * Payload, operationId tp.2 = None ∧ mutatorId tp.2 = None)
       (on_kind NEW_AUTH_TOKEN (publishes_of run w))) ∧
  (∀ safeMutation invitees teamId reactivations results w2,
     requireOrgLeaderOrTeamMember h (db w) (authToken ctx) teamId = true →
     safeMutation invitees teamId (getUserId h (authToken ctx))
       (mkSubOptions (socketId ctx) (dataLoader_operationId ctx)) (shared w)
       = (Returned (reactivations, results), w2) →
     let run := InviteTeamMembers.resolve_with h safeMutation invitees teamId ctx in
     ∃ new, published (run w).2 = published w2 ++ new ∧
            length new = 2 * length reactivations ∧
            all_carry ctx new).
Proof.
  split.
  - intros teamId now run. subst run.
    destruct (ArchiveLog.resolve_publishes h teamId ctx now w)
      as (Hshare & ns & us & reached & -> & Hreached).
    split; [exact Hshare|].
    rewrite !on_kind_app, !on_kind_fmap_other by done.
    destruct reached.
    + rewrite !on_kind_app, !on_kind_teamPublish, on_kind_fmap_other,
        on_kind_fmap_same by done.
      rewrite decide_True, decide_False by done. cbn [app].
      split; [|split].
      * apply Forall_singleton. done.
      * done.
      * apply Forall_fmap, Forall_true. done.
    + split; [apply Forall_nil_2|]. split; [|apply Forall_nil_2].
      intros Hex. apply Hreached in Hex. done.
  - intros safeMutation invitees teamId reactivations results w2 Hauth Hsafe run. subst run.
    rewrite InviteFacts.resolve_with_run, Hauth, Hsafe. cbn [snd published].
    eexists. split; [reflexivity|]. split.
    + clear. induction reactivations as [|r rs IH]; csimpl; [done|]. rewrite IH. lia.
    + apply Forall_bind, Forall_true. intros r.
      repeat apply Forall_cons_2; [done|done|apply Forall_nil_2].
Qed.

Module Webhooks.
Import AddGitHubRepo.

(** A detached webhook task sends each of its requests once. *)
Lemma createRepoWebhook_requests h accessToken nameWithOwner publicKey :
  let requests := (createRepoWebhook h accessToken nameWithOwner publicKey).1 in
  NoDup requests ∧ (length requests ≤ 2)%nat ∧
  (fetch h (mkHttpRequest GET ("https://api.github.com/repos/" +:+ nameWithOwner +:+ "/hooks")
              accessToken NoBody) = NetworkFailure → length requests = 1).
Proof.
  unfold createRepoWebhook. cbv zeta.
  destruct (fetch h _) as [|[|n]| |]; cbn [fst Datatypes.length];
    (split; [|split; [lia|done]]);
    repeat (apply NoDup_cons; split; [rewrite ?elem_of_cons, ?elem_of_nil; intros Hin|]);
    try apply NoDup_nil_2; try done.
  destruct Hin as [[=]|[]].
Qed.

Lemma createOrgWebhook_requests h accessToken nameWithOwner :
  let requests := (createOrgWebhook h accessToken nameWithOwner).1 in
  NoDup requests ∧ (length requests ≤ 3)%nat ∧
  (fetch h (mkHttpRequest GET
              ("https://api.github.com/orgs/" +:+ owner_of nameWithOwner +:+ "/hooks")
              accessToken NoBody) = NetworkFailure → length requests = 1).
Proof.
  unfold createOrgWebhook. cbv zeta.
  destruct (fetch h (mkHttpRequest GET _ _ _)) as [|[|n]| |]; cbn [fst Datatypes.length];
    try (split; [|split; [lia|done]]; apply NoDup_singleton).
  destruct (fetch h (mkHttpRequest POST _ _ _)) as [| |[|] [z|]|]; cbn [fst Datatypes.length];
    (split; [|split; [lia|done]]);
    repeat (apply NoDup_cons; split; [rewrite ?elem_of_cons, ?elem_of_nil; intros Hin|]);
    try apply NoDup_nil_2; try done;
    repeat (destruct Hin as [Hin|Hin]; [discriminate Hin|]); try done.
Qed.

(** What of a run is observable apart from the log of outbound calls. *)
Lemma resolve_fetch_irrelevant h f teamId nameWithOwner ctx now w :
  let run := resolve h teamId nameWithOwner ctx now w in
  let run' := resolve (with_fetch f h) teamId nameWithOwner ctx now w in
  run'.1 = run.1 ∧ db run'.2 = db run.2 ∧ published run'.2 = published run.2 ∧
  shortid_calls run'.2 = shortid_calls run.2 ∧ share_calls run'.2 = share_calls run.2.
Proof.
  intros run run'. subst run run'. unfold resolve.
  cbn [with_fetch getUserId isTeamMember tokenCanAccessRepo].
  destruct (isTeamMember h (authToken ctx) teamId); cbn [negb]; [|done].
  rewrite !bind_apply. unfold getStore. world.
  destruct (list_find _ _) as [[idx provider]|]; [|done].
  destruct (tokenCanAccessRepo h (p_accessToken provider) nameWithOwner)
    as [[repository|] [|]]; cbn [errors data_repository]; try done.
  destruct (viewerCanAdminister repository); cbn [negb]; [|done].
  rewrite !AddGitHubRepoFacts.resolution_run. cbv zeta.
  cbn [with_fetch getUserId shortid_generate maybeJoinRepos].
  destruct (createOrRehydrate _ _ _ _ _ _) as [e|[newRepo s1]]; [done|].
  destruct (maybeJoinRepos h [newRepo] _ s1) as [[ui|e] s2]; done.
Qed.
End Webhooks.

Module WebhookTasks.
Import AddGitHubRepo.

(** The detached tasks one call starts: none when the call ends before
    the resolution part, otherwise the two webhook tasks, each once. *)
Lemma resolve_external h teamId nameWithOwner ctx now w :
  let run := resolve h teamId nameWithOwner ctx now w in
  (external run.2 = external w ∨
   ∃ accessToken publicKey,
     external run.2 = external w ++ webhookTasks h accessToken nameWithOwner publicKey) ∧
  ∀ idx provider repository,
    validated h teamId nameWithOwner ctx (db w) idx provider repository →
    external run.2 =
      external w ++ webhookTasks h (p_accessToken provider) nameWithOwner
                      (pretty (databaseId repository)).
Proof.
  intros run.
  assert (∀ providers idx accessToken ghRepoId,
            external (resolution h teamId nameWithOwner ctx now providers idx accessToken
                        ghRepoId w).2
            = external w ++ webhookTasks h accessToken nameWithOwner (pretty ghRepoId))
    as Htasks.
  { intros providers idx accessToken ghRepoId.
    rewrite AddGitHubRepoFacts.resolution_run. cbv zeta.
    destruct (createOrRehydrate _ _ _ _ _ _) as [e|[newRepo s1]]; [done|].
    destruct (maybeJoinRepos h [newRepo] _ s1) as [[ui|e] s2]; done. }
  split.
  - subst run.
    destruct (AddGitHubRepoFacts.resolve_cases h teamId nameWithOwner ctx now w)
      as [[m ->]|[->|(_ & idx & provider & repository & _ & _ & _ & ->)]];
      [by left|by left|].
    right. eexists _, _. apply Htasks.
  - intros idx provider repository Hvalid. subst run.
    rewrite (Rehydration.resolve_validated _ _ _ _ _ _ _ _ _ Hvalid). apply Htasks.
Qed.
End WebhookTasks.

(** C7: what [AddGitHubRepo] returns, writes and publishes does not
    depend on the answers of the webhook requests; a returned record is
    active, and with a join helper that works in place so is its stored
    row.  A call starts no task before its checks have passed and then
    the two webhook tasks, each exactly once, whether they are rejected
    or not, and a row the key has is active afterwards whatever they do;
    each task sends each of its requests once, one request only when the
    first one fails. *)
Theorem addGitHubRepo_independent_of_webhooks
    (h : Helpers) (f1 f2 : HttpRequest → FetchResult)
    (teamId nameWithOwner : string) (ctx : Context) (now : Z) (w : World) :
  let run1 := AddGitHubRepo.resolve (with_fetch f1 h) teamId nameWithOwner ctx now w in
  let run2 := AddGitHubRepo.resolve (with_fetch f2 h) teamId nameWithOwner ctx now w in
  run1.1 = run2.1 ∧ db run1.2 = db run2.2 ∧ published run1.2 = published run2.2 ∧
  (∀ repo, run1.1 = Returned (AddGitHubRepo.repoAdded repo) →
     gh_isActive (repo_doc repo) = true ∧
     (joins_in_place h →
      ∃ g, GitHub_table (db run1.2) !! repo_id repo = Some g ∧ gh_isActive g = true)) ∧
  (∀ accessToken publicKey,
     let requests :=
       (AddGitHubRepo.createRepoWebhook (with_fetch f1 h) accessToken nameWithOwner publicKey).1 in
     NoDup requests ∧ (length requests ≤ 2)%nat ∧
     (f1 (mkHttpRequest GET ("https://api.github.com/repos/" +:+ nameWithOwner +:+ "/hooks")
            accessToken NoBody) = NetworkFailure → length requests = 1)) ∧
  (∀ accessToken,
     let requests :=
       (AddGitHubRepo.createOrgWebhook (with_fetch f1 h) accessToken nameWithOwner).1 in
     NoDup requests ∧ (length requests ≤ 3)%nat ∧
     (f1 (mkHttpRequest GET
            ("https://api.github.com/orgs/" +:+ AddGitHubRepo.owner_of nameWithOwner
               +:+ "/hooks") accessToken NoBody) = NetworkFailure → length requests = 1)) ∧
  (external run1.2 = external w ∨
   ∃ accessToken publicKey,
     external run1.2 =
       external w ++ webhookTasks (with_fetch f1 h) accessToken nameWithOwner publicKey) ∧
  (∀ idx provider repository,
     validated h teamId nameWithOwner ctx (db w) idx provider repository →
     external run1.2 =
       external w ++ webhookTasks (with_fetch f1 h) (p_accessToken provider) nameWithOwner
                       (pretty (databaseId repository)) ∧
     (joins_in_place h →
      ∀ k old,
        head (AddGitHubRepo.integrations teamId nameWithOwner (db w)) = Some (k, old) →
        rehydrates (with_fetch f1 h) teamId nameWithOwner ctx now w k old)).
Proof.
  intros run1 run2.
  destruct (Webhooks.resolve_fetch_irrelevant h f1 teamId nameWithOwner ctx now w)
    as (Ho1 & Hd1 & Hp1 & _).
  destruct (Webhooks.resolve_fetch_irrelevant h f2 teamId nameWithOwner ctx now w)
    as (Ho2 & Hd2 & Hp2 & _).
  fold run1 in Ho1, Hd1, Hp1. fold run2 in Ho2, Hd2, Hp2.
  destruct (WebhookTasks.resolve_external (with_fetch f1 h) teamId nameWithOwner ctx now w)
    as (Hext & Hexact).
  fold run1 in Hext, Hexact.
  split; [congruence|]. split; [congruence|]. split; [congruence|].
  split; [|split; [|split; [|split]]].
  - intros repo Hret. split.
    + revert Hret. subst run1.
      destruct (AddGitHubRepoFacts.resolve_cases (with_fetch f1 h) teamId nameWithOwner ctx now w)
        as [[m ->]|[->|(_ & idx & provider & repository & _ & _ & _ & ->)]]; cbn [fst];
        [done|done|].
      rewrite AddGitHubRepoFacts.resolution_run. cbv zeta.
      destruct (AddGitHubRepo.createOrRehydrate _ _ _ _ _ _) as [e|[newRepo s1]] eqn:Hc;
        [done|].
      apply Integrations.createOrRehydrate_keys in Hc as (_ & _ & g & Hg & _ & Hact & _).
      destruct (maybeJoinRepos (with_fetch f1 h) [newRepo] _ s1) as [[ui|e] s2]; [|done].
      cbn [fst]. intros [= <-]. cbn [repo_doc AddGitHubRepo.set_userIds gh_isActive].
      by rewrite Hg.
    + intros Hjoin.
      destruct (AddGitHubRepoTable.resolve_table (with_fetch f1 h) teamId nameWithOwner ctx now w
                  Hjoin) as (_ & _ & Hrow).
      destruct (Hrow repo Hret) as (g & Hg & Hact & _). by exists g.
  - intros accessToken publicKey.
    apply (Webhooks.createRepoWebhook_requests (with_fetch f1 h)).
  - intros accessToken.
    apply (Webhooks.createOrgWebhook_requests (with_fetch f1 h)).
  - exact Hext.
  - intros idx provider repository Hvalid. split; [exact (Hexact idx provider repository Hvalid)|].
    intros Hjoin k old Hhead.
    by apply (Rehydration.resolve_existing (with_fetch f1 h) teamId nameWithOwner ctx now w
                idx provider repository).
Qed.

(** C10: when a row for the key exists, the write of [AddGitHubRepo]
    hits that row, sets [adminUserId] to the caller and [userIds] to the
    caller alone, whatever the row listed before, and leaves the other
    rows alone; the returned record has the row's id and the caller as
    administrator. *)
Theorem addGitHubRepo_rehydrate_resets_admin_and_userIds
    (h : Helpers) (teamId nameWithOwner : string) (ctx : Context) (now : Z) (w : World)
    (k : string) (old : GitHubRepo) :
  head (AddGitHubRepo.integrations teamId nameWithOwner (db w)) = Some (k, old) →
  let userId := getUserId h (authToken ctx) in
  let new := AddGitHubRepo.rehydrate userId now old in
  gh_adminUserId new = userId ∧ gh_userIds new = [userId] ∧ gh_isActive new = true ∧
  gh_updatedAt new = now ∧ gh_createdAt new = gh_createdAt old ∧
  (∀ id, new ≠ old →
     ∃ s1, AddGitHubRepo.createOrRehydrate id teamId nameWithOwner userId now (db w)
             = inr ((k, new), s1) ∧
           GitHub_table s1 !! k = Some new ∧
           ∀ k', k' ≠ k → GitHub_table s1 !! k' = GitHub_table (db w) !! k') ∧
  (∀ repo, (AddGitHubRepo.resolve h teamId nameWithOwner ctx now w).1
             = Returned (AddGitHubRepo.repoAdded repo) →
     repo_id repo = k ∧ gh_adminUserId (repo_doc repo) = userId ∧
     ∃ joined, repo_doc repo = AddGitHubRepo.set_userIds (joined ++ [userId]) new).
Proof.
  intros Hhead userId new.
  do 5 (split; [reflexivity|]). split.
  - intros id Hne. unfold AddGitHubRepo.createOrRehydrate. rewrite Hhead.
    fold new. rewrite decide_False by done.
    eexists. split; [reflexivity|]. cbn [GitHub_table set_GitHub_table].
    split; [apply lookup_insert_eq|]. intros k' Hk. by rewrite lookup_insert_ne.
  - intros repo.
    destruct (AddGitHubRepoFacts.resolve_cases h teamId nameWithOwner ctx now w)
      as [[m ->]|[->|(_ & idx & provider & repository & _ & _ & _ & ->)]]; cbn [fst];
      [done|done|].
    rewrite AddGitHubRepoFacts.resolution_run. cbv zeta.
    unfold AddGitHubRepo.createOrRehydrate. rewrite Hhead. fold userId. fold new.
    case_decide; [done|].
    destruct (maybeJoinRepos h _ _ _) as [[ui|e] s2]; [|done].
    cbn [fst]. intros [= <-]. cbn [repo_id repo_doc fst snd].
    split; [done|]. split; [done|]. eexists. reflexivity.
Qed.

Module Reactivation.
Import InviteTeamMembers.

Lemma reactivates_refl t : reactivates t t.
Proof. intros k. destruct (t !! k); [by left|done]. Qed.

Lemma reactivates_dom t t' : reactivates t t' → dom t' = dom t.
Proof.
  intros H. apply set_eq. intros k. rewrite !elem_of_dom. specialize (H k).
  destruct (t !! k), (t' !! k); try done; split; intros [? ?]; done || eauto.
Qed.

(** A reactivated row stays as it is under later reactivations. *)
Lemma reactivated_later teamId t t1 t2 r :
  reactivated teamId t t1 r → reactivates t1 t2 → reactivated teamId t t2 r.
Proof.
  intros (m & Hm & Hrem & Ht & Hm1) H12. exists m. repeat split; try done.
  specialize (H12 (teamMemberId r)). rewrite Hm1 in H12.
  destruct (t2 !! teamMemberId r) as [m2|]; [|done].
  destruct H12 as [->|[Hcontra _]]; [done|]. discriminate Hcontra.
Qed.

(** A row reactivated later was removed all along. *)
Lemma reactivated_earlier teamId t t1 t2 r :
  reactivates t t1 → reactivated teamId t1 t2 r → reactivated teamId t t2 r.
Proof.
  intros H01 (m & Hm & Hrem & Ht & Hm2). exists m. repeat split; try done.
  specialize (H01 (teamMemberId r)). rewrite Hm in H01.
  destruct (t !! teamMemberId r) as [m0|]; [|done].
  destruct H01 as [->|[_ ->]]; [done|]. discriminate Hrem.
Qed.

Lemma reactivates_trans t1 t2 t3 : reactivates t1 t2 → reactivates t2 t3 → reactivates t1 t3.
Proof.
  intros H12 H23 k. specialize (H12 k). specialize (H23 k).
  destruct (t1 !! k) as [m1|], (t2 !! k) as [m2|], (t3 !! k) as [m3|]; try done.
  destruct H12 as [->|[Hr ->]], H23 as [->|[Hr' ->]]; auto; discriminate Hr'.
Qed.

Lemma elem_of_memberRows teamId userId s k m :
  (k, m) ∈ memberRows teamId userId s ↔
  TeamMember_table s !! k = Some m ∧ tm_teamId m = teamId ∧ tm_userId m = userId.
Proof.
  unfold memberRows, getAll. rewrite !list_elem_of_filter, elem_of_map_to_list.
  cbn [snd]. tauto.
Qed.

End Reactivation.

Module Reinvite.
Import InviteTeamMembers.

Lemma reactivated_for_later teamId userId t t1 t2 r :
  reactivated_for teamId userId t t1 r → reactivates t1 t2 → reactivated_for teamId userId t t2 r.
Proof.
  intros (m & Hm & Hrem & Ht & Hu & Hm1) H12. exists m. repeat split; try done.
  specialize (H12 (teamMemberId r)). rewrite Hm1 in H12.
  destruct (t2 !! teamMemberId r) as [m2|]; [|done].
  destruct H12 as [->|[Hcontra _]]; [done|]. discriminate Hcontra.
Qed.

Lemma reactivated_for_earlier teamId userId t t1 t2 r :
  reactivates t t1 → reactivated_for teamId userId t1 t2 r → reactivated_for teamId userId t t2 r.
Proof.
  intros H01 (m & Hm & Hrem & Ht & Hu & Hm2). exists m. repeat split; try done.
  specialize (H01 (teamMemberId r)). rewrite Hm in H01.
  destruct (t !! teamMemberId r) as [m0|]; [|done].
  destruct H01 as [->|[_ ->]]; [done|]. discriminate Hrem.
Qed.

Lemma reactivated_for_any teamId userId t t' r :
  reactivated_for teamId userId t t' r → reactivated teamId t t' r.
Proof. intros (m & ? & ? & ? & ? & ?). by exists m. Qed.

Lemma adds_rejoin_notes_refl team now t : adds_rejoin_notes team now t t.
Proof. intros k. by destruct (t !! k). Qed.

Lemma adds_rejoin_notes_trans team now t1 t2 t3 :
  adds_rejoin_notes team now t1 t2 → adds_rejoin_notes team now t2 t3 →
  adds_rejoin_notes team now t1 t3.
Proof.
  intros H12 H23 k. specialize (H12 k). specialize (H23 k).
  destruct (t1 !! k) as [n1|].
  - rewrite H12 in H23. exact H23.
  - destruct (t2 !! k) as [n2|].
    + by rewrite H23.
    + exact H23.
Qed.

Lemma adds_rejoin_notes_insert team now t id n :
  rejoin_note team now n → adds_rejoin_notes team now t (insert_doc id n t).
Proof.
  intros Hn k. unfold insert_doc. destruct (t !! id) eqn:Hid.
  - by destruct (t !! k).
  - destruct (decide (id = k)) as [<-|Hne].
    + by rewrite Hid, lookup_insert_eq.
    + rewrite lookup_insert_ne by done. by destruct (t !! k).
Qed.

Lemma adds_rejoin_notes_keeps team now t t' id :
  adds_rejoin_notes team now t t' → is_Some (t !! id) → is_Some (t' !! id).
Proof. intros H [n Hn]. specialize (H id). rewrite Hn in H. by rewrite H. Qed.

Lemma insert_doc_is_Some {A} id (x : A) t : is_Some (insert_doc id x t !! id).
Proof.
  unfold insert_doc. destruct (t !! id) eqn:Hid; [by rewrite Hid|].
  by rewrite lookup_insert_eq.
Qed.

(** [removed_from], read off the rows the safe mutation looks at. *)
Lemma removed_from_rows teamId userId s :
  removed_from teamId userId (TeamMember_table s) ↔
  memberRows teamId userId s ≠ [] ∧
  ¬ Exists (λ kv : string * TeamMember, tm_isNotRemoved kv.2 = true)
      (memberRows teamId userId s).
Proof.
  unfold removed_from. split.
  - intros [(k & m & Hk & Ht & Hu) Hnone]. split.
    + intros Hnil.
      assert ((k, m) ∈ memberRows teamId userId s) as Hin
        by (by apply Reactivation.elem_of_memberRows).
      rewrite Hnil in Hin. by apply elem_of_nil in Hin.
    + intros Hex. apply Exists_exists in Hex as ([k' m'] & Hin & Hact).
      apply Reactivation.elem_of_memberRows in Hin as (Hk' & Ht' & Hu').
      cbn in Hact. rewrite (Hnone k' m' Hk' Ht' Hu') in Hact. discriminate Hact.
  - intros [Hne Hnone]. split.
    + destruct (memberRows teamId userId s) as [|[k m] rest] eqn:Hrows; [done|].
      assert ((k, m) ∈ memberRows teamId userId s) as Hin by (rewrite Hrows; left).
      apply Reactivation.elem_of_memberRows in Hin. by exists k, m.
    + intros k m Hk Ht Hu. destruct (tm_isNotRemoved m) eqn:E; [|done].
      exfalso. apply Hnone. apply Exists_exists. exists (k, m). split; [|exact E].
      by apply Reactivation.elem_of_memberRows.
Qed.

Lemma userByEmail_users address s s' :
  User_table s' = User_table s → userByEmail address s' = userByEmail address s.
Proof. unfold userByEmail. by intros ->. Qed.

(** Marking one removed row active is a reactivation step and keeps at
    most one active row per user and team. *)
Lemma reactivate_row teamId userId (t : gmap string TeamMember) id tm :
  removed_from teamId userId t →
  t !! id = Some tm → tm_teamId tm = teamId → tm_userId tm = userId →
  reactivates t (<[id := set_isNotRemoved true tm]> t) ∧
  (one_active_member t → one_active_member (<[id := set_isNotRemoved true tm]> t)) ∧
  ∀ other, other ≠ userId → removed_from teamId other t →
           removed_from teamId other (<[id := set_isNotRemoved true tm]> t).
Proof.
  intros [_ Hnone] Hid Ht Hu. split; [|split].
  - intros k. destruct (decide (id = k)) as [<-|Hne].
    + rewrite Hid, lookup_insert_eq. right. split; [by apply (Hnone id)|done].
    + rewrite lookup_insert_ne by done. destruct (t !! k); [by left|done].
  - intros Hone k1 k2 m1 m2 H1 H2 A1 A2 Hu12 Ht12.
    destruct (decide (k1 = id)) as [->|N1], (decide (k2 = id)) as [->|N2]; [done|..].
    + rewrite lookup_insert_eq in H1. rewrite lookup_insert_ne in H2 by done.
      injection H1 as <-. cbn in Hu12, Ht12. exfalso.
      assert (tm_isNotRemoved m2 = false) as Hf by (apply (Hnone k2); congruence).
      congruence.
    + rewrite lookup_insert_eq in H2. rewrite lookup_insert_ne in H1 by done.
      injection H2 as <-. cbn in Hu12, Ht12. exfalso.
      assert (tm_isNotRemoved m1 = false) as Hf by (apply (Hnone k1); congruence).
      congruence.
    + rewrite lookup_insert_ne in H1, H2 by done. by apply (Hone k1 k2 m1 m2).
  - intros other Hother [(k & m & Hk & Hkt & Hku) Hnone']. split.
    + exists k, m. split; [|done]. rewrite lookup_insert_ne; [done|].
      intros <-. rewrite Hid in Hk. injection Hk as <-. congruence.
    + intros k' m' Hk' Ht' Hu'. destruct (decide (id = k')) as [<-|Hne].
      * rewrite lookup_insert_eq in Hk'. injection Hk' as <-. cbn in Hu'. congruence.
      * rewrite lookup_insert_ne in Hk' by done. by apply (Hnone' k' m').
Qed.

Section Facts.
Variable h : Helpers.

(** One invitee. *)
Lemma inviteOne_run now teamId team invitee w :
  ∃ o w', inviteOne h now teamId team invitee w = (Returned o, w') ∧
    published w' = published w ∧ external w' = external w ∧
    share_calls w' = share_calls w ∧
    User_table (db w') = User_table (db w) ∧ Team_table (db w') = Team_table (db w) ∧
    adds_rejoin_notes team now (Notification_table (db w)) (Notification_table (db w')) ∧
    match o with
    | inr _ =>
        TeamMember_table (db w') = TeamMember_table (db w) ∧
        ∀ userId u, userByEmail (email invitee) (db w) = Some (userId, u) →
                    ¬ removed_from teamId userId (TeamMember_table (db w))
    | inl r =>
        ∃ userId u tm,
          userByEmail (email invitee) (db w) = Some (userId, u) ∧
          removed_from teamId userId (TeamMember_table (db w)) ∧
          TeamMember_table (db w) !! teamMemberId r = Some tm ∧
          tm_teamId tm = teamId ∧ tm_userId tm = userId ∧
          TeamMember_table (db w') =
            <[teamMemberId r := set_isNotRemoved true tm]> (TeamMember_table (db w)) ∧
          is_Some (Notification_table (db w') !! notificationId r)
    end.
Proof.
  unfold inviteOne. rewrite bind_apply. unfold getStore at 1. world.
  destruct (userByEmail (email invitee) (db w)) as [[userId u]|] eqn:Huser.
  2: { eexists _, _. split; [reflexivity|]. do 5 (split; [done|]).
       split; [apply adds_rejoin_notes_refl|]. split; [done|]. intros ? ? [=]. }
  cbv zeta. pose proof (removed_from_rows teamId userId (db w)) as Hrows.
  case_decide as Hactive.
  { eexists _, _. split; [reflexivity|]. do 5 (split; [done|]).
    split; [apply adds_rejoin_notes_refl|]. split; [done|].
    intros ? ? [= <- <-] Hrem. apply Hrows in Hrem as [_ Hn]. done. }
  destruct (memberRows teamId userId (db w)) as [|[id tm] rest] eqn:Hlist; cbn [head].
  { eexists _, _. split; [reflexivity|]. do 5 (split; [done|]).
    split; [apply adds_rejoin_notes_refl|]. split; [done|].
    intros ? ? [= <- <-] Hrem. apply Hrows in Hrem as [Hne _]. done. }
  assert ((id, tm) ∈ memberRows teamId userId (db w)) as Hin by (rewrite Hlist; left).
  apply Reactivation.elem_of_memberRows in Hin as (Hid & Hteam & Huserid).
  assert (removed_from teamId userId (TeamMember_table (db w))) as Hrem
    by (apply Hrows; split; [done|exact Hactive]).
  rewrite bind_apply. unfold shortid at 1. world.
  rewrite bind_apply. unfold putStore, set_db. world. unfold ret.
  eexists _, _. split; [reflexivity|]. world.
  cbn [TeamMember_table Notification_table User_table Team_table set_TeamMember_table
         set_Notification_table teamMemberId notificationId].
  do 5 (split; [done|]).
  split.
  - apply adds_rejoin_notes_insert. repeat split; try done. by exists userId.
  - exists userId, u, tm. do 6 (split; [done|]). apply insert_doc_is_Some.
Qed.

(** All invitees, one after the other. *)
Lemma mapM_inviteOne now teamId team invitees w :
  ∃ outcomes w', mapM (inviteOne h now teamId team) invitees w = (Returned outcomes, w') ∧
    published w' = published w ∧ external w' = external w ∧
    share_calls w' = share_calls w ∧
    User_table (db w') = User_table (db w) ∧ Team_table (db w') = Team_table (db w) ∧
    adds_rejoin_notes team now (Notification_table (db w)) (Notification_table (db w')) ∧
    reactivates (TeamMember_table (db w)) (TeamMember_table (db w')) ∧
    (one_active_member (TeamMember_table (db w)) →
     one_active_member (TeamMember_table (db w'))) ∧
    Forall (λ o : Reactivation + string,
              match o with
              | inl r =>
                  reactivated teamId (TeamMember_table (db w)) (TeamMember_table (db w')) r ∧
                  is_Some (Notification_table (db w') !! notificationId r)
              | inr _ => True
              end) outcomes ∧
    ∀ invitee userId u,
      invitee ∈ invitees → userByEmail (email invitee) (db w) = Some (userId, u) →
      removed_from teamId userId (TeamMember_table (db w)) →
      ∃ r, inl r ∈ outcomes ∧
           reactivated_for teamId userId (TeamMember_table (db w)) (TeamMember_table (db w')) r.
Proof.
  revert w. induction invitees as [|invitee0 invitees IH]; intros w; cbn [mapM].
  - exists [], w. split; [reflexivity|]. do 5 (split; [done|]).
    split; [apply adds_rejoin_notes_refl|]. split; [apply Reactivation.reactivates_refl|].
    split; [done|]. split; [apply Forall_nil_2|].
    intros invitee userId u Hin. by apply elem_of_nil in Hin.
  - destruct (inviteOne_run now teamId team invitee0 w)
      as (o & w1 & Hrun & Hp1 & He1 & Hs1 & Hu1 & Ht1 & Hn1 & Hstep).
    destruct (IH w1)
      as (os & w2 & Hrest & Hp2 & He2 & Hs2 & Hu2 & Ht2 & Hn2 & Hr2 & Hone2 & Hall & Htie).
    rewrite bind_apply, Hrun, bind_apply, Hrest. unfold ret.
    exists (o :: os), w2. split; [reflexivity|].
    do 5 (split; [congruence|]).
    split; [by eapply adds_rejoin_notes_trans|].
    destruct o as [r|e].
    + destruct Hstep as (userId0 & u0 & tm0 & Huser0 & Hrem0 & Hid0 & Hteam0 & Huid0 & Htm1 & Hnote0).
      destruct (reactivate_row teamId userId0 _ _ tm0 Hrem0 Hid0 Hteam0 Huid0)
        as (Hr1 & Hone1 & Hothers).
      rewrite <- Htm1 in Hr1, Hone1, Hothers.
      assert (reactivated_for teamId userId0 (TeamMember_table (db w))
                (TeamMember_table (db w1)) r) as Hr0.
      { exists tm0. destruct Hrem0 as [_ Hnone]. repeat split; try done.
        - by apply (Hnone (teamMemberId r)).
        - rewrite Htm1. apply lookup_insert_eq. }
      split; [by eapply Reactivation.reactivates_trans|]. split; [auto|]. split.
      * apply Forall_cons_2.
        -- split.
           ++ eapply reactivated_for_any, reactivated_for_later; [exact Hr0|exact Hr2].
           ++ by eapply adds_rejoin_notes_keeps.
        -- eapply Forall_impl; [exact Hall|]. intros [r'|e']; [|done].
           intros [Hre Hno]. split; [|done]. by eapply Reactivation.reactivated_earlier.
      * intros invitee userId u Hin Huser Hrem.
        destruct (decide (userId = userId0)) as [->|Hne].
        -- exists r. split; [left|]. by eapply reactivated_for_later.
        -- apply elem_of_cons in Hin as [->|Hin]; [congruence|].
           destruct (Htie invitee userId u Hin) as (r' & Hin' & Hre').
           ++ by rewrite (userByEmail_users _ _ _ Hu1).
           ++ by apply Hothers.
           ++ exists r'. split; [by right|]. by eapply reactivated_for_earlier.
    + destruct Hstep as [Htm1 Hnot]. rewrite Htm1 in *.
      split; [done|]. split; [done|]. split.
      * apply Forall_cons_2; [done|]. exact Hall.
      * intros invitee userId u Hin Huser Hrem.
        apply elem_of_cons in Hin as [->|Hin]; [by destruct (Hnot userId u Huser)|].
        destruct (Htie invitee userId u Hin) as (r' & Hin' & Hre'); [|done|].
        -- by rewrite (userByEmail_users _ _ _ Hu1).
        -- exists r'. split; [by right|done].
Qed.
End Facts.
End Reinvite.

(** C8: re-inviting removed team members marks their existing rows as not
    removed and adds no row, so that there is still at most one row that
    is not removed per user and team.  Every invitee whose user was
    removed from the team is reactivated: a row of that user is active
    afterwards, its id is among the returned ids, and its two events, the
    team-member event with a REJOIN_TEAM notification and the event to
    the user, are published.  The resolver publishes nothing else, and
    each reactivation has its rejoin notification stored. *)
Theorem reinvite_reactivates_the_existing_row
    (h : Helpers) (now : Z) (invitees : list InviteTeamMembers.Invitee) (teamId : string)
    (team : Team) (ctx : Context) (w : World) :
  requireOrgLeaderOrTeamMember h (db w) (authToken ctx) teamId = true →
  Team_table (db w) !! teamId = Some team →
  ∃ reactivations results w',
    InviteTeamMembers.resolve h now invitees teamId ctx w =
      (Returned (InviteTeamMembers.mkInviteTeamMembersPayload
                   (InviteTeamMembers.teamMemberId <$> reactivations) results), w') ∧
    dom (TeamMember_table (db w')) = dom (TeamMember_table (db w)) ∧
    (one_active_member (TeamMember_table (db w)) →
     one_active_member (TeamMember_table (db w'))) ∧
    Forall (reactivated teamId (TeamMember_table (db w)) (TeamMember_table (db w')))
      reactivations ∧
    published w' = published w ++ (reactivations ≫= reactivationPublishes h teamId ctx) ∧
    Forall (λ tp : Topic * Payload,
              ∀ id n t, body tp.2 = data_teamMember id n t → n.1.1 = REJOIN_TEAM ∧ t = ADDED)
      (reactivations ≫= reactivationPublishes h teamId ctx) ∧
    (∀ invitee userId u,
       invitee ∈ invitees →
       InviteTeamMembers.userByEmail (InviteTeamMembers.email invitee) (db w)
         = Some (userId, u) →
       removed_from teamId userId (TeamMember_table (db w)) →
       ∃ r, r ∈ reactivations ∧
            reactivated_for teamId userId (TeamMember_table (db w)) (TeamMember_table (db w')) r ∧
            InviteTeamMembers.teamMemberId r
              ∈ InviteTeamMembers.teamMemberId <$> reactivations ∧
            Forall (λ tp, tp ∈ published w') (reactivationPublishes h teamId ctx r)) ∧
    Forall (λ r, is_Some (Notification_table (db w') !! InviteTeamMembers.notificationId r))
      reactivations ∧
    adds_rejoin_notes team now (Notification_table (db w)) (Notification_table (db w')).
Proof.
  intros Hauth Hteam. unfold InviteTeamMembers.resolve.
  rewrite InviteFacts.resolve_with_run, Hauth.
  unfold InviteTeamMembers.inviteTeamMembers. rewrite bind_apply.
  unfold getStore at 1. world. cbn [shared db]. rewrite Hteam. rewrite bind_apply.
  destruct (Reinvite.mapM_inviteOne h now teamId team invitees (shared w))
    as (os & w2 & -> & Hp & _ & _ & _ & _ & Hnotes & Hr & Hone & Hfacts & Htie).
  unfold ret. eexists _, _, _. split; [reflexivity|]. world.
  cbn [shared db published] in *.
  assert (∀ r, inl r ∈ os →
            r ∈ omap (λ o : InviteTeamMembers.Reactivation + string,
                        match o with inl r => Some r | inr _ => None end) os) as Hin.
  { intros r Hr0. apply list_elem_of_omap. by exists (inl r). }
  split; [by apply Reactivation.reactivates_dom|]. split; [exact Hone|].
  split; [|split; [|split; [|split; [|split]]]].
  - clear -Hfacts. induction Hfacts as [|[r|e] os Ho Hos IH]; csimpl; [done| |done].
    apply Forall_cons_2; [by destruct Ho|done].
  - by rewrite Hp.
  - apply Forall_bind, Forall_true. intros r.
    repeat apply Forall_cons_2; [| |apply Forall_nil_2]; cbn; intros id n t [=]; by subst.
  - intros invitee userId u Hinv Huser Hrem.
    destruct (Htie invitee userId u Hinv Huser Hrem) as (r & Hr0 & Hfor).
    exists r. split; [by apply Hin|]. split; [exact Hfor|]. split.
    + apply list_elem_of_fmap_2. by apply Hin.
    + apply Forall_forall. intros tp Htp. rewrite Hp. apply elem_of_app. right.
      apply list_elem_of_bind. exists r. split; [done|by apply Hin].
  - clear -Hfacts. induction Hfacts as [|[r|e] os Ho Hos IH]; csimpl; [done| |done].
    apply Forall_cons_2; [by destruct Ho|done].
  - exact Hnotes.
Qed.

(** ** The statements at concrete worlds *)

(** The helpers of [Demo] satisfy the assumption on [maybeJoinRepos]. *)
Lemma demo_joins_in_place fetch : joins_in_place (Demo.helpers fetch).
Proof.
  intros repos providers s. cbn. split; [apply Integrations.same_keys_refl|].
  intros k g g' H1 H2. congruence.
Qed.

(** C1 at [Demo.trio]: three members, so the team is archived and its rows stay. *)
Lemma archiveTeam_deletes_or_archives_witness :
  isLead Demo.h "t3" (Demo.ctx_of "u1" ["t3"]) Demo.trio ∧
  Team_table Demo.trio !! "t3" = Some (mkTeam "Gamma" "o1" false) ∧
  let s' := db (ArchiveTeam.resolve Demo.h "t3" (Demo.ctx_of "u1" ["t3"]) 100%Z
                  (Demo.world_of Demo.trio)).2 in
  Team_table s' !! "t3" = Some (mkTeam "Gamma" "o1" true) ∧
  TeamMember_table s' = TeamMember_table Demo.trio.
Proof.
  split; [vm_compute; reflexivity|]. split; [vm_compute; reflexivity|].
  apply (archiveTeam_deletes_or_archives Demo.h "t3" (Demo.ctx_of "u1" ["t3"]) 100%Z
           (Demo.world_of Demo.trio) (mkTeam "Gamma" "o1" false));
    [vm_compute; reflexivity | vm_compute; reflexivity | right; vm_compute; lia].
Defined.

(** C2 (amended) at [Demo.trio]: three publishes on the notification topic. *)
Lemma archiveTeam_notifies_soft_archived_members_witness :
  isLead Demo.h "t3" (Demo.ctx_of "u1" ["t3"]) Demo.trio ∧
  Team_table Demo.trio !! "t3" = Some (mkTeam "Gamma" "o1" false) ∧
  ¬ hardDeletes "t3" Demo.trio ∧
  length (on_kind NOTIFICATIONS_ADDED
            (publishes_of (ArchiveTeam.resolve Demo.h "t3" (Demo.ctx_of "u1" ["t3"]) 100%Z)
               (Demo.world_of Demo.trio))) = 3.
Proof.
  assert (¬ hardDeletes "t3" Demo.trio) as Hn by (intros [_ H]; vm_compute in H; discriminate H).
  split; [vm_compute; reflexivity|]. split; [vm_compute; reflexivity|]. split; [exact Hn|].
  destruct (archiveTeam_notifies_soft_archived_members Demo.h "t3" (Demo.ctx_of "u1" ["t3"])
              100%Z (Demo.world_of Demo.trio) (mkTeam "Gamma" "o1" false))
    as [Hsoft _]; [vm_compute; reflexivity | vm_compute; reflexivity |].
  destruct (Hsoft Hn) as (ns & _ & _ & _ & _ & _ & _ & Hcount & _).
  exact Hcount.
Defined.

(** C3 (amended) at [Demo.linked]: a caller outside the team gets a payload. *)
Lemma failures_returned_by_addGitHubRepo_thrown_by_archiveTeam_witness :
  isTeamMember Demo.h (authToken (Demo.ctx_of "u9" [])) "t1" = false ∧
  AddGitHubRepo.resolve Demo.h "t1" "acme/app" (Demo.ctx_of "u9" []) 100%Z
    (Demo.world_of Demo.linked) =
  (Returned (AddGitHubRepo.standardError "Team not found" "u9"), Demo.world_of Demo.linked).
Proof.
  split; [vm_compute; reflexivity|].
  destruct (failures_returned_by_addGitHubRepo_thrown_by_archiveTeam Demo.h
              (Demo.ctx_of "u9" []) (Demo.world_of Demo.linked)) as [Hadd _].
  destruct (Hadd "t1" "acme/app" 100%Z) as [Hdenied _].
  apply Hdenied. vm_compute. reflexivity.
Defined.

(** C4 (amended) at [Demo.trio]: the team-update event with both keys. *)
Lemma data_events_carry_operation_and_mutator_witness :
  (∃ payload, (ArchiveTeam.resolve Demo.h "t3" (Demo.ctx_of "u1" ["t3"]) 100%Z
                 (Demo.world_of Demo.trio)).1 = Returned payload) ∧
  on_kind TEAM (publishes_of (ArchiveTeam.resolve Demo.h "t3" (Demo.ctx_of "u1" ["t3"]) 100%Z)
                  (Demo.world_of Demo.trio)) =
  [(mkTopic TEAM "t3", mkPayload (data_team "t3" UPDATED) (Some "op1") (Some "socket1"))].
Proof.
  assert (∃ payload, (ArchiveTeam.resolve Demo.h "t3" (Demo.ctx_of "u1" ["t3"]) 100%Z
                        (Demo.world_of Demo.trio)).1 = Returned payload) as Hex
    by (eexists; vm_compute; reflexivity).
  split; [exact Hex|].
  destruct (data_events_carry_operation_and_mutator Demo.h (Demo.ctx_of "u1" ["t3"])
              (Demo.world_of Demo.trio)) as [Harchive _].
  destruct (Harchive "t3" 100%Z) as (_ & _ & Hteam & _).
  exact (Hteam Hex).
Defined.

(** C5 at [Demo.trio]: a caller without a TeamMember row is turned away. *)
Lemma denied_call_writes_and_publishes_nothing_witness :
  requireTeamLead Demo.h Demo.trio
    (toTeamMemberId Demo.h "t3" (getUserId Demo.h (authToken (Demo.ctx_of "u9" [])))) = false ∧
  let run := ArchiveTeam.resolve Demo.h "t3" (Demo.ctx_of "u9" []) 100%Z
               (Demo.world_of Demo.trio) in
  run.1 = Thrown AuthorizationError ∧ db run.2 = Demo.trio ∧ published run.2 = [].
Proof.
  split; [vm_compute; reflexivity|].
  destruct (denied_call_writes_and_publishes_nothing Demo.h (Demo.ctx_of "u9" [])
              (Demo.world_of Demo.trio)) as [Harchive _].
  apply (Harchive "t3" 100%Z). vm_compute. reflexivity.
Defined.

(** The helpers of [Demo] satisfy the other assumptions on [maybeJoinRepos]. *)
Lemma demo_joins_answer fetch : joins_answer (Demo.helpers fetch).
Proof. intros repos providers s. by exists []. Qed.

Lemma demo_joins_leave_table fetch : joins_leave_table (Demo.helpers fetch).
Proof. intros repos providers s. reflexivity. Qed.

(** C6 at [Demo.integrated]: [u1] adds [acme/app], which has the inactive
    row [g1] of [u2]; the call returns the record of [g1], the table is
    the old one with [g1] rehydrated, and no row is added.  The same call
    once more at the same time changes nothing and fails; a later one
    returns [g1] again. *)
Lemma addGitHubRepo_idempotent_on_integration_table_witness :
  joins_in_place Demo.h ∧
  validated Demo.h "t1" "acme/app" (Demo.ctx_of "u1" ["t1"]) Demo.integrated 0
    (mkProvider "t1" "u1" GITHUB true "token1") (mkRepository true 42%Z) ∧
  head (AddGitHubRepo.integrations "t1" "acme/app" Demo.integrated)
    = Some ("g1", mkGitHubRepo "u2" 5%Z 5%Z false "acme/app" "t1" ["u2"; "u9"]) ∧
  GitHub_table
    (db (AddGitHubRepo.resolve Demo.h "t1" "acme/app" (Demo.ctx_of "u1" ["t1"])
           100%Z (Demo.world_of Demo.integrated)).2)
    = <["g1" := mkGitHubRepo "u1" 5%Z 100%Z true "acme/app" "t1" ["u1"]]>
        (GitHub_table Demo.integrated) ∧
  dom (GitHub_table
         (db (AddGitHubRepo.resolve Demo.h "t1" "acme/app" (Demo.ctx_of "u1" ["t1"])
                100%Z (Demo.world_of Demo.integrated)).2))
    = dom (GitHub_table Demo.integrated) ∧
  (∃ repo,
     (AddGitHubRepo.resolve Demo.h "t1" "acme/app" (Demo.ctx_of "u1" ["t1"])
        100%Z (Demo.world_of Demo.integrated)).1 = Returned (AddGitHubRepo.repoAdded repo) ∧
     repo_id repo = "g1" ∧ gh_isActive (repo_doc repo) = true) ∧
  (AddGitHubRepo.resolve Demo.h "t1" "acme/app" (Demo.ctx_of "u1" ["t1"]) 100%Z
     (AddGitHubRepo.resolve Demo.h "t1" "acme/app" (Demo.ctx_of "u1" ["t1"])
        100%Z (Demo.world_of Demo.integrated)).2).1
    = Thrown (ReqlError "Index out of bounds: 0") ∧
  (AddGitHubRepo.resolve Demo.h "t1" "acme/app" (Demo.ctx_of "u1" ["t1"]) 101%Z
     (AddGitHubRepo.resolve Demo.h "t1" "acme/app" (Demo.ctx_of "u1" ["t1"])
        100%Z (Demo.world_of Demo.integrated)).2).1
    = Returned (AddGitHubRepo.repoAdded
                  (mkPublishedRepo "g1"
                     (mkGitHubRepo "u1" 5%Z 101%Z true "acme/app" "t1" ["u1"])
                     [("u1", "", "u1::t1")])).
Proof.
  assert (validated Demo.h "t1" "acme/app" (Demo.ctx_of "u1" ["t1"]) Demo.integrated 0
            (mkProvider "t1" "u1" GITHUB true "token1") (mkRepository true 42%Z)) as Hvalid
    by (repeat split; vm_compute; reflexivity).
  assert (head (AddGitHubRepo.integrations "t1" "acme/app" Demo.integrated)
            = Some ("g1", mkGitHubRepo "u2" 5%Z 5%Z false "acme/app" "t1" ["u2"; "u9"]))
    as Hhead by (vm_compute; reflexivity).
  split; [apply demo_joins_in_place|]. split; [exact Hvalid|]. split; [exact Hhead|].
  destruct (addGitHubRepo_idempotent_on_integration_table Demo.h "t1" "acme/app"
              (Demo.ctx_of "u1" ["t1"]) 100%Z (Demo.world_of Demo.integrated)
              (demo_joins_in_place Demo.github_up)) as (_ & _ & Hexisting & _).
  destruct (Hexisting 0 (mkProvider "t1" "u1" GITHUB true "token1") (mkRepository true 42%Z)
              "g1" (mkGitHubRepo "u2" 5%Z 5%Z false "acme/app" "t1" ["u2"; "u9"])
              Hvalid Hhead) as (_ & Hdom & Hexact & Hreturns & _).
  split; [exact (Hexact (demo_joins_leave_table Demo.github_up))|].
  split; [exact Hdom|]. split.
  - destruct Hreturns as (repo & Hret & Hid & Hact & _);
      [discriminate | apply demo_joins_answer |].
    by exists repo.
  - split; vm_compute; reflexivity.
Defined.

(** C7 at [Demo.integrated] with GitHub unreachable: both webhook tasks
    are started once, send one request each and are rejected, and the
    call returns the active record of [g1] as it does with GitHub
    reachable. *)
Lemma addGitHubRepo_independent_of_webhooks_witness :
  validated Demo.h "t1" "acme/app" (Demo.ctx_of "u1" ["t1"]) Demo.integrated 0
    (mkProvider "t1" "u1" GITHUB true "token1") (mkRepository true 42%Z) ∧
  Demo.github_down
    (mkHttpRequest GET ("https://api.github.com/repos/" +:+ "acme/app" +:+ "/hooks")
       "token1" NoBody) = NetworkFailure ∧
  length (AddGitHubRepo.createRepoWebhook (with_fetch Demo.github_down Demo.h)
            "token1" "acme/app" "42").1 = 1 ∧
  external
    (AddGitHubRepo.resolve (with_fetch Demo.github_down Demo.h) "t1" "acme/app"
       (Demo.ctx_of "u1" ["t1"]) 100%Z (Demo.world_of Demo.integrated)).2
    = [detached "createRepoWebhook"
         [mkHttpRequest GET "https://api.github.com/repos/acme/app/hooks" "token1" NoBody]
         Rejected;
       detached "createOrgWebhook"
         [mkHttpRequest GET "https://api.github.com/orgs/acme/hooks" "token1" NoBody]
         Rejected] ∧
  (AddGitHubRepo.resolve (with_fetch Demo.github_down Demo.h) "t1" "acme/app"
     (Demo.ctx_of "u1" ["t1"]) 100%Z (Demo.world_of Demo.integrated)).1
    = (AddGitHubRepo.resolve (with_fetch Demo.github_up Demo.h) "t1" "acme/app"
         (Demo.ctx_of "u1" ["t1"]) 100%Z (Demo.world_of Demo.integrated)).1 ∧
  (AddGitHubRepo.resolve (with_fetch Demo.github_down Demo.h) "t1" "acme/app"
     (Demo.ctx_of "u1" ["t1"]) 100%Z (Demo.world_of Demo.integrated)).1
    = Returned (AddGitHubRepo.repoAdded
                  (mkPublishedRepo "g1"
                     (mkGitHubRepo "u1" 5%Z 100%Z true "acme/app" "t1" ["u1"])
                     [("u1", "", "u1::t1")])) ∧
  GitHub_table
    (db (AddGitHubRepo.resolve (with_fetch Demo.github_down Demo.h) "t1" "acme/app"
           (Demo.ctx_of "u1" ["t1"]) 100%Z (Demo.world_of Demo.integrated)).2) !! "g1"
    = Some (mkGitHubRepo "u1" 5%Z 100%Z true "acme/app" "t1" ["u1"]).
Proof.
  assert (validated Demo.h "t1" "acme/app" (Demo.ctx_of "u1" ["t1"]) Demo.integrated 0
            (mkProvider "t1" "u1" GITHUB true "token1") (mkRepository true 42%Z)) as Hvalid
    by (repeat split; vm_compute; reflexivity).
  destruct (addGitHubRepo_independent_of_webhooks Demo.h Demo.github_down Demo.github_up
              "t1" "acme/app" (Demo.ctx_of "u1" ["t1"]) 100%Z (Demo.world_of Demo.integrated))
    as (Hsame & _ & _ & _ & Hrepo & _ & _ & Htasks).
  destruct (Hrepo "token1" "42") as (_ & _ & Hone).
  destruct (Htasks 0 (mkProvider "t1" "u1" GITHUB true "token1") (mkRepository true 42%Z)
              Hvalid) as (Hext & _).
  split; [exact Hvalid|]. split; [reflexivity|]. split; [apply Hone; reflexivity|].
  split; [rewrite Hext; vm_compute; reflexivity|]. split; [exact Hsame|].
  split; vm_compute; reflexivity.
Defined.

(** C8 at [Demo.with_removed]: [u2], removed earlier, is invited again
    together with an unknown address; the row [u2::t1] is active
    afterwards and is the one id returned, the notification is stored and
    the two events are published. *)
Lemma reinvite_reactivates_the_existing_row_witness :
  requireOrgLeaderOrTeamMember Demo.h Demo.with_removed
    (authToken (Demo.ctx_of "u1" ["t1"])) "t1" = true ∧
  Team_table Demo.with_removed !! "t1" = Some (mkTeam "Alpha" "o1" false) ∧
  InviteTeamMembers.userByEmail "u2@x.io" Demo.with_removed
    = Some ("u2", mkUser "u2@x.io" []) ∧
  removed_from "t1" "u2" (TeamMember_table Demo.with_removed) ∧
  (∃ r payload,
     (InviteTeamMembers.resolve Demo.h 100%Z
        [InviteTeamMembers.mkInvitee "u2@x.io"; InviteTeamMembers.mkInvitee "new@x.io"]
        "t1" (Demo.ctx_of "u1" ["t1"]) (Demo.world_of Demo.with_removed)).1
       = Returned payload ∧
     InviteTeamMembers.teamMemberId r ∈ InviteTeamMembers.reactivatedTeamMemberIds payload ∧
     reactivated_for "t1" "u2" (TeamMember_table Demo.with_removed)
       (TeamMember_table
          (db (InviteTeamMembers.resolve Demo.h 100%Z
                 [InviteTeamMembers.mkInvitee "u2@x.io"; InviteTeamMembers.mkInvitee "new@x.io"]
                 "t1" (Demo.ctx_of "u1" ["t1"]) (Demo.world_of Demo.with_removed)).2)) r) ∧
  (InviteTeamMembers.resolve Demo.h 100%Z
     [InviteTeamMembers.mkInvitee "u2@x.io"; InviteTeamMembers.mkInvitee "new@x.io"]
     "t1" (Demo.ctx_of "u1" ["t1"]) (Demo.world_of Demo.with_removed)).1
    = Returned (InviteTeamMembers.mkInviteTeamMembersPayload ["u2::t1"] ["new@x.io"]) ∧
  TeamMember_table
    (db (InviteTeamMembers.resolve Demo.h 100%Z
           [InviteTeamMembers.mkInvitee "u2@x.io"; InviteTeamMembers.mkInvitee "new@x.io"]
           "t1" (Demo.ctx_of "u1" ["t1"]) (Demo.world_of Demo.with_removed)).2) !! "u2::t1"
    = Some (mkTeamMember "t1" "u2" true "u2" "") ∧
  Notification_table
    (db (InviteTeamMembers.resolve Demo.h 100%Z
           [InviteTeamMembers.mkInvitee "u2@x.io"; InviteTeamMembers.mkInvitee "new@x.io"]
           "t1" (Demo.ctx_of "u1" ["t1"]) (Demo.world_of Demo.with_removed)).2) !! "id0"
    = Some (mkNotification "o1" 100%Z REJOIN_TEAM ["u2"] "Alpha") ∧
  published
    (InviteTeamMembers.resolve Demo.h 100%Z
       [InviteTeamMembers.mkInvitee "u2@x.io"; InviteTeamMembers.mkInvitee "new@x.io"]
       "t1" (Demo.ctx_of "u1" ["t1"]) (Demo.world_of Demo.with_removed)).2
    = [(mkTopic TEAM_MEMBER "t1",
        mkPayload (data_teamMember "u2::t1" (REJOIN_TEAM, "t1", "u2") ADDED)
          (Some "op1") (Some "socket1"));
       (mkTopic subscriptions_TEAM "u2",
        mkPayload (data_teamNotification "t1" "id0" ADDED) (Some "op1") (Some "socket1"))].
Proof.
  assert (removed_from "t1" "u2" (TeamMember_table Demo.with_removed)) as Hrem.
  { apply (Reinvite.removed_from_rows "t1" "u2" Demo.with_removed). split.
    - vm_compute. discriminate.
    - intros Hex. apply Exists_exists in Hex as (kv & Hin & Hact).
      vm_compute in Hin. apply list_elem_of_singleton in Hin. subst kv.
      discriminate Hact. }
  split; [vm_compute; reflexivity|]. split; [vm_compute; reflexivity|].
  split; [vm_compute; reflexivity|]. split; [exact Hrem|].
  split; [|repeat split; vm_compute; reflexivity].
  destruct (reinvite_reactivates_the_existing_row Demo.h 100%Z
              [InviteTeamMembers.mkInvitee "u2@x.io"; InviteTeamMembers.mkInvitee "new@x.io"]
              "t1" (mkTeam "Alpha" "o1" false) (Demo.ctx_of "u1" ["t1"])
              (Demo.world_of Demo.with_removed))
    as (reactivations & results & w' & Hrun & _ & _ & _ & _ & _ & Htie & _);
    [vm_compute; reflexivity | vm_compute; reflexivity |].
  destruct (Htie (InviteTeamMembers.mkInvitee "u2@x.io") "u2" (mkUser "u2@x.io" []))
    as (r & _ & Hfor & Hid & _); [left | vm_compute; reflexivity | exact Hrem |].
  exists r. eexists. rewrite Hrun. cbn [fst snd]. split; [reflexivity|]. split; [exact Hid|].
  exact Hfor.
Defined.

(** C9 at [Demo.solo]: the deleted team comes back with the flag set. *)
Lemma archiveTeam_payload_is_archived_witness :
  isLead Demo.h "t1" (Demo.ctx_of "u1" ["t1"]) Demo.solo ∧
  Team_table Demo.solo !! "t1" = Some (mkTeam "Alpha" "o1" false) ∧
  hardDeletes "t1" Demo.solo ∧
  (ArchiveTeam.resolve Demo.h "t1" (Demo.ctx_of "u1" ["t1"]) 100%Z
     (Demo.world_of Demo.solo)).1 = Returned ("t1", mkTeam "Alpha" "o1" true).
Proof.
  assert (hardDeletes "t1" Demo.solo) as Hh by (split; vm_compute; reflexivity).
  split; [vm_compute; reflexivity|]. split; [vm_compute; reflexivity|]. split; [exact Hh|].
  destruct (archiveTeam_payload_is_archived Demo.h "t1" (Demo.ctx_of "u1" ["t1"]) 100%Z
              (Demo.world_of Demo.solo)) as [_ Hpayload].
  apply (Hpayload (mkTeam "Alpha" "o1" false));
    [vm_compute; reflexivity | vm_compute; reflexivity | left; exact Hh].
Defined.

(** C10 at [Demo.integrated]: the row of [u2] and [u9] becomes that of [u1] alone. *)
Lemma addGitHubRepo_rehydrate_resets_admin_and_userIds_witness :
  head (AddGitHubRepo.integrations "t1" "acme/app" Demo.integrated)
    = Some ("g1", mkGitHubRepo "u2" 5%Z 5%Z false "acme/app" "t1" ["u2"; "u9"]) ∧
  ∃ s1, AddGitHubRepo.createOrRehydrate "id0" "t1" "acme/app" "u1" 100%Z Demo.integrated
          = inr (("g1", mkGitHubRepo "u1" 5%Z 100%Z true "acme/app" "t1" ["u1"]), s1) ∧
        GitHub_table s1 !! "g1"
          = Some (mkGitHubRepo "u1" 5%Z 100%Z true "acme/app" "t1" ["u1"]).
Proof.
  assert (head (AddGitHubRepo.integrations "t1" "acme/app" Demo.integrated)
          = Some ("g1", mkGitHubRepo "u2" 5%Z 5%Z false "acme/app" "t1" ["u2"; "u9"])) as Hhead
    by (vm_compute; reflexivity).
  split; [exact Hhead|].
  destruct (addGitHubRepo_rehydrate_resets_admin_and_userIds Demo.h "t1" "acme/app"
              (Demo.ctx_of "u1" ["t1"]) 100%Z (Demo.world_of Demo.integrated) "g1"
              (mkGitHubRepo "u2" 5%Z 5%Z false "acme/app" "t1" ["u2"; "u9"]) Hhead)
    as (_ & _ & _ & _ & _ & Hwrite & _).
  destruct (Hwrite "id0") as (s1 & Hrun & Hrow & _); [discriminate|].
  exists s1. split; [exact Hrun|exact Hrow].
Defined.

Module UserUpdate.
Import ArchiveTeam.

Lemma difference_single_id (l : list string) (x : string) :
  list_difference l [x] = l ↔ x ∉ l.
Proof.
  induction l as [|y l IH]; csimpl.
  - split; [intros _; apply not_elem_of_nil|done].
  - rewrite not_elem_of_cons. case_decide as Hy.
    + apply list_elem_of_singleton in Hy as ->. split; [|intros [? _]; done].
      intros Heq. exfalso.
      assert (x ∈ list_difference l [x]) as Hin by (rewrite Heq; left).
      apply list_elem_of_difference in Hin as [_ Hn]. apply Hn. left.
    + rewrite list_elem_of_singleton in Hy. split.
      * intros [= Heq]. split; [congruence|]. by apply IH.
      * intros [_ Hn]. f_equal. by apply IH.
Qed.

Lemma without_team_idem teamId u : without_team teamId (without_team teamId u) = without_team teamId u.
Proof.
  unfold without_team, set_tms. cbn [user_tms user_email]. f_equal.
  apply difference_single_id. intros Hin.
  apply list_elem_of_difference in Hin as [_ Hn]. apply Hn. left.
Qed.

Lemma without_team_id teamId u : teamId ∉ user_tms u → without_team teamId u = u.
Proof.
  intros Hn. unfold without_team, set_tms. destruct u as [e t]. cbn in *. f_equal.
  by apply difference_single_id.
Qed.

(** The table after the update: the listed users lose the team, the
    others are as they were. *)
Lemma updateUsers_lookup teamId userIds users uid :
  (updateUsers teamId userIds users).1 !! uid =
  if decide (uid ∈ userIds) then without_team teamId <$> users !! uid else users !! uid.
Proof.
  revert users. induction userIds as [|uid0 rest IH]; intros users.
  - cbn [updateUsers fst]. rewrite decide_False by apply not_elem_of_nil. done.
  - assert ((updateUsers teamId (uid0 :: rest) users).1 =
            (updateUsers teamId rest
               (match users !! uid0 with
                | Some u => <[uid0 := without_team teamId u]> users
                | None => users
                end)).1) as ->.
    { cbn [updateUsers]. destruct (users !! uid0) as [u|] eqn:Hu; [|done].
      destruct (decide (list_difference (user_tms u) [teamId] = user_tms u)) as [Hsame|Hsame].
      - rewrite insert_id; [done|]. rewrite Hu. f_equal.
        unfold without_team. rewrite Hsame. by destruct u.
      - fold (without_team teamId u). by destruct (updateUsers teamId rest _). }
    rewrite IH. destruct (decide (uid = uid0)) as [->|Hne].
    + rewrite (decide_True (P := uid0 ∈ uid0 :: rest)) by left.
      destruct (users !! uid0) as [u|] eqn:Hu.
      * rewrite lookup_insert_eq. cbn. case_decide; [|done].
        by rewrite without_team_idem.
      * rewrite Hu. by case_decide.
    + assert (match users !! uid0 with
              | Some u => <[uid0 := without_team teamId u]> users
              | None => users
              end !! uid = users !! uid) as ->.
      { destruct (users !! uid0); [by rewrite lookup_insert_ne|done]. }
      destruct (decide (uid ∈ rest)) as [Hin|Hnin].
      * rewrite decide_True by (by right). done.
      * rewrite decide_False; [done|]. rewrite elem_of_cons. tauto.
Qed.

(** The listed changes: one per listed user whose tms held the team. *)
Lemma updateUsers_changes teamId userIds users :
  let changes := (updateUsers teamId userIds users).2 in
  NoDup changes.*1 ∧
  ∀ id tms', (id, tms') ∈ changes ↔
    id ∈ userIds ∧ ∃ u, users !! id = Some u ∧ teamId ∈ user_tms u ∧
                        tms' = list_difference (user_tms u) [teamId].
Proof.
  revert users. induction userIds as [|uid0 rest IH]; intros users; cbn [updateUsers].
  - cbn. split; [apply NoDup_nil_2|]. intros id tms'. split.
    + intros Hin. by apply elem_of_nil in Hin.
    + intros [Hin _]. by apply elem_of_nil in Hin.
  - destruct (users !! uid0) as [u|] eqn:Hu.
    + case_decide as Hsame.
      * apply difference_single_id in Hsame.
        destruct (IH users) as [Hnd Hiff]. split; [exact Hnd|].
        intros id tms'. rewrite Hiff, elem_of_cons. split.
        -- intros [Hin Hex]. split; [by right|done].
        -- intros [[->|Hin] (u' & Hu' & Hteam & Ht)]; [|eauto].
           rewrite Hu in Hu'. injection Hu' as <-. done.
      * assert (teamId ∈ user_tms u) as Hteam.
        { destruct (decide (teamId ∈ user_tms u)); [done|].
          exfalso. apply Hsame. by apply difference_single_id. }
        destruct (IH (<[uid0 := set_tms (list_difference (user_tms u) [teamId]) u]> users))
          as [Hnd Hiff].
        destruct (updateUsers teamId rest _) as [users' changes]. cbn [snd] in *.
        assert (∀ id tms', (id, tms') ∈ changes → id ≠ uid0) as Hfresh.
        { intros id tms' Hin ->. apply Hiff in Hin as (_ & u' & Hu' & Hin' & _).
          rewrite lookup_insert_eq in Hu'. injection Hu' as <-. cbn in Hin'.
          apply list_elem_of_difference in Hin' as [_ Hn]. apply Hn. left. }
        split.
        -- csimpl. apply NoDup_cons. split; [|exact Hnd].
           intros Hin. apply list_elem_of_fmap in Hin as ([id tms'] & Heq & Hin).
           cbn in Heq. subst id. by apply (Hfresh uid0 tms').
        -- intros id tms'. rewrite !elem_of_cons. split.
           ++ intros [[= -> ->]|Hin]; [split; [by left|by exists u]|].
              pose proof (Hfresh _ _ Hin) as Hne.
              apply Hiff in Hin as (Hin & u' & Hu' & Hrest).
              rewrite lookup_insert_ne in Hu' by done. split; [by right|by exists u'].
           ++ intros [Hin (u' & Hu' & Hteam' & ->)].
              destruct (decide (id = uid0)) as [->|Hne].
              ** left. rewrite Hu in Hu'. by injection Hu' as <-.
              ** right. apply Hiff. destruct Hin as [->|Hin]; [done|].
                 split; [done|]. exists u'. by rewrite lookup_insert_ne.
    + destruct (IH users) as [Hnd Hiff]. split; [exact Hnd|].
      intros id tms'. rewrite Hiff, elem_of_cons. split.
      * intros [Hin Hex]. split; [by right|done].
      * intros [[->|Hin] (u' & Hu' & Hteam & Ht)]; [|eauto]. by rewrite Hu in Hu'.
Qed.
End UserUpdate.

(** X1: archiving a team that is not in the store fails in the query: the
    store and the publish log stay as they were, no id is drawn, and only
    the analytics event has been sent. *)
Theorem archiveTeam_missing_team
    (h : Helpers) (teamId : string) (ctx : Context) (now : Z) (w : World) :
  isLead h teamId ctx (db w) →
  Team_table (db w) !! teamId = None →
  let run := ArchiveTeam.resolve h teamId ctx now w in
  (∃ m, run.1 = Thrown (ReqlError m)) ∧
  db run.2 = db w ∧ published run.2 = published w ∧
  shortid_calls run.2 = shortid_calls w ∧
  external run.2 =
    external w ++ [sendSegmentEvent "Archive Team" (getUserId h (authToken ctx)) teamId].
Proof.
  intros Hlead Hnone run. subst run. unfold isLead in Hlead.
  rewrite ArchiveTeamFacts.resolve_run. cbv zeta. rewrite Hlead.
  unfold ArchiveTeam.query. rewrite Hnone. cbn [fst snd db published shortid_calls external].
  split; [eauto|done].
Qed.

(** X2: whenever the caller is the lead of an existing team, the call
    takes the team out of the tms of every member that is not removed and
    leaves every other user document as it was; this holds in the delete
    branch, in the archive branch and when the call ends in "already
    archived". *)
Theorem archiveTeam_strips_team_from_members
    (h : Helpers) (teamId : string) (ctx : Context) (now : Z) (w : World) (team : Team) :
  isLead h teamId ctx (db w) →
  Team_table (db w) !! teamId = Some team →
  let users' := User_table (db (ArchiveTeam.resolve h teamId ctx now w).2) in
  (∀ uid, users' !! uid =
          if decide (uid ∈ ArchiveTeam.activeUserIds teamId (db w))
          then without_team teamId <$> User_table (db w) !! uid
          else User_table (db w) !! uid) ∧
  (∀ uid u', uid ∈ ArchiveTeam.activeUserIds teamId (db w) → users' !! uid = Some u' →
             teamId ∉ user_tms u').
Proof.
  intros Hlead Ht. unfold isLead in Hlead. cbv zeta.
  assert (User_table (db (ArchiveTeam.resolve h teamId ctx now w).2) =
          (ArchiveTeam.updateUsers teamId (ArchiveTeam.activeUserIds teamId (db w))
             (User_table (db w))).1) as ->.
  { rewrite ArchiveTeamFacts.resolve_run. cbv zeta. rewrite Hlead.
    destruct (decide (hardDeletes teamId (db w))) as [Hh|Hn].
    - by rewrite (ArchiveQuery.query_hard _ _ _ Ht Hh).
    - rewrite (ArchiveQuery.query_soft _ _ _ Ht Hn).
      cbn [ArchiveTeam.notificationData ArchiveTeam.teamResult].
      by destruct (team_isArchived team). }
  split; [intros uid; apply UserUpdate.updateUsers_lookup|].
  intros uid u' Hin. rewrite UserUpdate.updateUsers_lookup, decide_True by done.
  destruct (User_table (db w) !! uid) as [u|]; [|done]. intros [= <-].
  cbn. intros Hin'. apply list_elem_of_difference in Hin' as [_ Hn]. apply Hn. left.
Qed.

(** X3: a successful call publishes one auth-token event, and makes one
    auth0 update, for exactly the members whose tms held the team, each
    once and with the tms that is left; a member whose tms did not hold
    the team gets neither. *)
Theorem archiveTeam_renews_tokens_of_changed_users
    (h : Helpers) (teamId : string) (ctx : Context) (now : Z) (w : World) (team : Team) :
  isLead h teamId ctx (db w) →
  Team_table (db w) !! teamId = Some team →
  hardDeletes teamId (db w) ∨ team_isArchived team = false →
  let run := ArchiveTeam.resolve h teamId ctx now in
  ∃ us : list (string * list string),
    on_kind NEW_AUTH_TOKEN (publishes_of run w) = authTokenPublish h <$> us ∧
    external (run w).2 =
      external w ++ [sendSegmentEvent "Archive Team" (getUserId h (authToken ctx)) teamId] ++
      ((λ u : string * list string, auth0_updateAppMetadata u.1 u.2) <$> us) ∧
    NoDup us.*1 ∧
    ∀ id tms', (id, tms') ∈ us ↔
      id ∈ ArchiveTeam.activeUserIds teamId (db w) ∧
      ∃ u, User_table (db w) !! id = Some u ∧ teamId ∈ user_tms u ∧
           tms' = list_difference (user_tms u) [teamId].
Proof.
  intros Hlead Ht Hok run. subst run. unfold isLead in Hlead.
  exists (ArchiveTeam.updateUsers teamId (ArchiveTeam.activeUserIds teamId (db w))
            (User_table (db w))).2.
  pose proof (ArchiveTeamFacts.resolve_run h teamId ctx now w) as Hrun. cbv zeta in Hrun.
  rewrite Hlead in Hrun.
  destruct (UserUpdate.updateUsers_changes teamId (ArchiveTeam.activeUserIds teamId (db w))
              (User_table (db w))) as [Hnd Hiff].
  split; [|split; [|split; [exact Hnd|exact Hiff]]].
  - destruct (decide (hardDeletes teamId (db w))) as [Hh|Hn].
    + rewrite (ArchiveQuery.query_hard _ _ _ Ht Hh) in Hrun.
      cbn [ArchiveTeam.notificationData ArchiveTeam.teamResult ArchiveTeam.userDocs] in Hrun.
      erewrite (publishes_of_app _ _ _ _ ([teamPublish teamId ctx] ++ _) Hrun);
        [| cbn [published fmap list_fmap]; by rewrite app_nil_r].
      rewrite on_kind_app, on_kind_teamPublish, on_kind_fmap_same by done.
      by rewrite decide_False.
    + destruct Hok as [Hh|Ha]; [done|].
      rewrite (ArchiveQuery.query_soft _ _ _ Ht Hn), Ha in Hrun.
      cbn [ArchiveTeam.notificationData ArchiveTeam.teamResult ArchiveTeam.userDocs] in Hrun.
      erewrite (publishes_of_app _ _ _ _ (_ ++ [teamPublish teamId ctx] ++ _) Hrun);
        [| cbn [published]; by rewrite <- app_assoc].
      rewrite !on_kind_app, on_kind_teamPublish, (on_kind_fmap_other _ notificationPublish),
        (on_kind_fmap_same _ (authTokenPublish h)) by done.
      by rewrite decide_False.
  - rewrite Hrun. destruct (decide (hardDeletes teamId (db w))) as [Hh|Hn].
    + rewrite (ArchiveQuery.query_hard _ _ _ Ht Hh).
      cbn [ArchiveTeam.teamResult ArchiveTeam.userDocs snd external].
      by rewrite <- app_assoc.
    + destruct Hok as [Hh|Ha]; [done|].
      rewrite (ArchiveQuery.query_soft _ _ _ Ht Hn), Ha.
      cbn [ArchiveTeam.teamResult ArchiveTeam.userDocs snd external].
      by rewrite <- app_assoc.
Qed.

(** X4: archiving a team that is archived already ends in "Team was
    already archived" only after the side effects: the members' tms are
    updated and one notification per member is inserted and published,
    while no team-update event, no auth-token event and no auth0 update
    follows. *)
Theorem archiveTeam_already_archived_side_effects
    (h : Helpers) (teamId : string) (ctx : Context) (now : Z) (w : World) (team : Team) :
  isLead h teamId ctx (db w) →
  Team_table (db w) !! teamId = Some team →
  team_isArchived team = true →
  ¬ hardDeletes teamId (db w) →
  let run := ArchiveTeam.resolve h teamId ctx now in
  let members := ArchiveTeam.activeUserIds teamId (db w) in
  ∃ ns : list (string * Notification),
    length ns = length members ∧
    (run w).1 = Thrown (Error "Team was already archived") ∧
    Notification_table (db (run w).2) = insert_docs ns (Notification_table (db w)) ∧
    User_table (db (run w).2) = (ArchiveTeam.updateUsers teamId members (User_table (db w))).1 ∧
    Team_table (db (run w).2) = Team_table (db w) ∧
    publishes_of run w = notificationPublish <$> ns ∧
    external (run w).2 =
      external w ++ [sendSegmentEvent "Archive Team" (getUserId h (authToken ctx)) teamId].
Proof.
  intros Hlead Ht Ha Hn run members. subst run. unfold isLead in Hlead.
  pose proof (ArchiveTeamFacts.resolve_run h teamId ctx now w) as Hrun. cbv zeta in Hrun.
  rewrite Hlead, (ArchiveQuery.query_soft _ _ _ Ht Hn), Ha in Hrun.
  cbn [ArchiveTeam.notificationData ArchiveTeam.teamResult ArchiveTeam.userDocs] in Hrun.
  exists (archivedNotifications h
            (ArchiveTeam.mkNotificationData (ArchiveTeam.projectCount teamId (db w))
               (team_name team) (team_orgId team) members) now (shortid_calls w)).
  split; [apply length_archivedNotifications|].
  rewrite Hrun. cbn [fst snd db external Notification_table User_table Team_table
                       set_Notification_table].
  split; [done|]. split; [done|]. split; [done|]. split.
  - apply insert_id. rewrite Ht. f_equal. destruct team as [n o a]. cbn in Ha. by subst a.
  - split; [|done]. eapply publishes_of_app; [exact Hrun|]. done.
Qed.

Module ArchiveFrame.
Import ArchiveTeam.

(** The store after a run, for a caller that passed the check on an
    existing team. *)
Lemma resolve_store h teamId ctx now w team :
  isLead h teamId ctx (db w) → Team_table (db w) !! teamId = Some team →
  ∃ ns,
    db (resolve h teamId ctx now w).2 =
    mkStore
      (if decide (hardDeletes teamId (db w)) then delete teamId (Team_table (db w))
       else <[teamId := set_isArchived true team]> (Team_table (db w)))
      (if decide (hardDeletes teamId (db w))
       then filter (λ kv : string * TeamMember, tm_teamId kv.2 ≠ teamId)
              (TeamMember_table (db w))
       else TeamMember_table (db w))
      (updateUsers teamId (activeUserIds teamId (db w)) (User_table (db w))).1
      (Project_table (db w))
      (insert_docs ns (Notification_table (db w)))
      (Provider_table (db w)) (GitHub_table (db w)).
Proof.
  intros Hlead Ht. unfold isLead in Hlead.
  rewrite ArchiveTeamFacts.resolve_run. cbv zeta. rewrite Hlead.
  destruct (decide (hardDeletes teamId (db w))) as [Hh|Hn].
  - rewrite (ArchiveQuery.query_hard _ _ _ Ht Hh). exists []. done.
  - rewrite (ArchiveQuery.query_soft _ _ _ Ht Hn).
    cbn [notificationData teamResult]. eexists.
    destruct (team_isArchived team); reflexivity.
Qed.

(** Without that, nothing is written. *)
Lemma resolve_store_unchanged h teamId ctx now w :
  ¬ isLead h teamId ctx (db w) ∨ Team_table (db w) !! teamId = None →
  db (resolve h teamId ctx now w).2 = db w.
Proof.
  intros Hcase. rewrite ArchiveTeamFacts.resolve_run. cbv zeta. unfold isLead in Hcase.
  destruct (requireTeamLead h (db w) _); [|done].
  destruct Hcase as [Hn|Hnone]; [done|].
  unfold query. by rewrite Hnone.
Qed.
End ArchiveFrame.

(** X5: whatever the outcome, [archiveTeam] leaves the Project, Provider
    and integration tables alone, keeps the Team rows of other teams and
    the TeamMember rows of other teams, and neither adds nor removes a
    user document. *)
Theorem archiveTeam_touches_only_its_team
    (h : Helpers) (teamId : string) (ctx : Context) (now : Z) (w : World) :
  let s' := db (ArchiveTeam.resolve h teamId ctx now w).2 in
  Project_table s' = Project_table (db w) ∧
  Provider_table s' = Provider_table (db w) ∧
  GitHub_table s' = GitHub_table (db w) ∧
  (∀ other, other ≠ teamId → Team_table s' !! other = Team_table (db w) !! other) ∧
  (∀ id tm, TeamMember_table (db w) !! id = Some tm → tm_teamId tm ≠ teamId →
            TeamMember_table s' !! id = Some tm) ∧
  dom (User_table s') = dom (User_table (db w)).
Proof.
  cbv zeta.
  destruct (decide (requireTeamLead h (db w)
                      (toTeamMemberId h teamId (getUserId h (authToken ctx))) = true))
    as [Hlead|Hn];
    [|rewrite ArchiveFrame.resolve_store_unchanged by (by left); done].
  destruct (Team_table (db w) !! teamId) as [team|] eqn:Ht;
    [|rewrite ArchiveFrame.resolve_store_unchanged by (by right); done].
  destruct (ArchiveFrame.resolve_store h teamId ctx now w team Hlead Ht) as [ns ->].
  cbn [Project_table Provider_table GitHub_table Team_table TeamMember_table User_table].
  split; [done|]. split; [done|]. split; [done|]. split; [|split].
  - intros other Hne. case_decide.
    + by rewrite lookup_delete_ne.
    + by rewrite lookup_insert_ne.
  - intros id tm Hid Hteam. case_decide; [|done].
    by apply map_lookup_filter_Some.
  - apply set_eq. intros uid. rewrite !elem_of_dom, UserUpdate.updateUsers_lookup.
    case_decide; [|done]. by rewrite fmap_is_Some.
Qed.

(** X6: archiving twice: after a call that archived the team (rather than
    deleting it), a second call by a lead ends in "Team was already
    archived" and leaves the Team table as the first call left it. *)
Theorem archiveTeam_twice_is_refused
    (h : Helpers) (teamId : string) (ctx ctx2 : Context) (now now2 : Z) (w : World)
    (team : Team) :
  isLead h teamId ctx (db w) →
  Team_table (db w) !! teamId = Some team →
  ¬ hardDeletes teamId (db w) →
  let w1 := (ArchiveTeam.resolve h teamId ctx now w).2 in
  isLead h teamId ctx2 (db w1) →
  let again := ArchiveTeam.resolve h teamId ctx2 now2 w1 in
  again.1 = Thrown (Error "Team was already archived") ∧
  Team_table (db again.2) = Team_table (db w1) ∧
  TeamMember_table (db again.2) = TeamMember_table (db w).
Proof.
  intros Hlead Ht Hn w1 Hlead2 again.
  destruct (ArchiveFrame.resolve_store h teamId ctx now w team Hlead Ht) as [ns Hw1].
  fold w1 in Hw1. rewrite decide_False in Hw1 by done.
  rewrite decide_False in Hw1 by done.
  assert (Team_table (db w1) !! teamId = Some (set_isArchived true team)) as Ht1
    by (rewrite Hw1; apply lookup_insert_eq).
  assert (¬ hardDeletes teamId (db w1)) as Hn1.
  { unfold hardDeletes, ArchiveTeam.projectCount, ArchiveTeam.activeUserIds in *.
    by rewrite Hw1. }
  subst again. unfold isLead in Hlead2.
  pose proof (ArchiveTeamFacts.resolve_run h teamId ctx2 now2 w1) as Hrun. cbv zeta in Hrun.
  rewrite Hlead2, (ArchiveQuery.query_soft _ _ _ Ht1 Hn1) in Hrun.
  cbn [ArchiveTeam.notificationData ArchiveTeam.teamResult set_isArchived team_isArchived] in Hrun.
  rewrite Hrun. cbn [fst snd db Team_table TeamMember_table set_Notification_table].
  split; [done|]. split; [|by rewrite Hw1].
  apply insert_id. by rewrite Ht1.
Qed.

(** X7: [publishTeamArchivedNotifications] publishes one event per
    notification, in order, on the topic of the first user id of the
    notification (the text "undefined" when there is none), and writes
    nothing; when it is given sub-options every event carries both ids. *)
Theorem publishTeamArchivedNotifications_one_event_each
    (notifications : list (string * Notification)) (subOptions : option SubOptions)
    (w : World) :
  let run := ArchiveTeam.publishTeamArchivedNotifications notifications subOptions in
  (run w).1 = Returned tt ∧ db (run w).2 = db w ∧ external (run w).2 = external w ∧
  publishes_of run w =
    (λ n : string * Notification,
       (mkTopic NOTIFICATIONS_ADDED (default "undefined" (head (n_userIds n.2))),
        spread (notificationsAdded [n]) subOptions)) <$> notifications ∧
  (∀ ctx, subOptions = Some (mkSubOptions (socketId ctx) (dataLoader_operationId ctx)) →
          all_carry ctx (publishes_of run w)).
Proof.
  intros run. subst run.
  assert (ArchiveTeam.publishTeamArchivedNotifications notifications subOptions w =
          (Returned tt,
           mkWorld (db w)
             (published w ++
              ((λ n : string * Notification,
                  (mkTopic NOTIFICATIONS_ADDED (default "undefined" (head (n_userIds n.2))),
                   spread (notificationsAdded [n]) subOptions)) <$> notifications))
             (external w) (shortid_calls w) (share_calls w))) as Hrun.
  { unfold ArchiveTeam.publishTeamArchivedNotifications.
    rewrite (forEach_log _
               (λ n, [(mkTopic NOTIFICATIONS_ADDED (default "undefined" (head (n_userIds n.2))),
                       spread (notificationsAdded [n]) subOptions)]) (λ _, [])).
    - by rewrite bind_singleton, bind_nothing, app_nil_r.
    - intros n w0. unfold publish. by rewrite app_nil_r. }
  rewrite (publishes_of_app _ _ _ _ _ Hrun eq_refl). rewrite Hrun. cbn [fst snd db external].
  split; [done|]. split; [done|]. split; [done|]. split; [done|].
  intros ctx ->. apply Forall_fmap, Forall_true. intros n. done.
Qed.

(** X8: adding a repository whose key has no row, with an id that is
    free, inserts one row: active, created and updated now, administered
    and joined by the caller alone; the table grows by one, the row is the
    only one of its key, and every other row and table is as before. *)
Theorem addGitHubRepo_first_add_inserts_one_row
    (id teamId nameWithOwner userId : string) (now : Z) (s : Store) :
  AddGitHubRepo.integrations teamId nameWithOwner s = [] →
  GitHub_table s !! id = None →
  let new := mkGitHubRepo userId now now true nameWithOwner teamId [userId] in
  ∃ s', AddGitHubRepo.createOrRehydrate id teamId nameWithOwner userId now s
          = inr ((id, new), s') ∧
        s' = set_GitHub_table (<[id := new]> (GitHub_table s)) s ∧
        size (GitHub_table s') = S (size (GitHub_table s)) ∧
        (∀ k g, (k, g) ∈ AddGitHubRepo.integrations teamId nameWithOwner s' ↔
                k = id ∧ g = new) ∧
        (∀ k, k ≠ id → GitHub_table s' !! k = GitHub_table s !! k).
Proof.
  intros Hnone Hfree new. eexists. split.
  - unfold AddGitHubRepo.createOrRehydrate. rewrite Hnone. cbn [head]. rewrite Hfree.
    reflexivity.
  - split; [reflexivity|]. cbn [GitHub_table set_GitHub_table]. split; [|split].
    + by apply map_size_insert_None.
    + intros k g. rewrite Integrations.elem_of_integrations.
      cbn [GitHub_table set_GitHub_table]. split.
      * intros (Hk & Ht & Hn). destruct (decide (k = id)) as [->|Hne].
        -- rewrite lookup_insert_eq in Hk. by injection Hk as <-.
        -- rewrite lookup_insert_ne in Hk by done. exfalso.
           assert ((k, g) ∈ AddGitHubRepo.integrations teamId nameWithOwner s) as Hin
             by (by apply Integrations.elem_of_integrations).
           rewrite Hnone in Hin. by apply elem_of_nil in Hin.
      * intros [-> ->]. by rewrite lookup_insert_eq.
    + intros k Hne. by rewrite lookup_insert_ne.
Qed.

(** X9: the write changes nothing the second time: when one write for a
    key has succeeded on a table with one row per key, the same write
    again (same caller, same time) fails with the index error and leaves
    the store as it is, while at a later time it succeeds on the same
    row. *)
Theorem addGitHubRepo_same_write_again_fails
    (id id2 teamId nameWithOwner userId : string) (now : Z) (s s1 : Store)
    (r : string * GitHubRepo) :
  one_per_key (GitHub_table s) →
  AddGitHubRepo.createOrRehydrate id teamId nameWithOwner userId now s = inr (r, s1) →
  AddGitHubRepo.createOrRehydrate id2 teamId nameWithOwner userId now s1
    = inl (ReqlError "Index out of bounds: 0") ∧
  ∀ later, later ≠ now →
    ∃ s2, AddGitHubRepo.createOrRehydrate id2 teamId nameWithOwner userId later s1
            = inr ((r.1, AddGitHubRepo.rehydrate userId later r.2), s2).
Proof.
  intros Hone Hrun.
  pose proof (Integrations.createOrRehydrate_keys _ _ _ _ _ _ _ _ Hrun)
    as (Hone1 & _ & g & Hg & Hrow & _ & Ht & Hn).
  specialize (Hone1 Hone).
  assert (g = AddGitHubRepo.rehydrate userId now g) as Hfix.
  { pose proof (Integrations.createOrRehydrate_cases id teamId nameWithOwner userId now s) as Hc.
    cbv zeta in Hc. rewrite Hrun in Hc. destruct r as [k g0]. cbn in Hg. subst g0.
    destruct Hc as [_ [(_ & _ & _ & ->)|(old & _ & _ & _ & _ & ->)]]; reflexivity. }
  assert (head (AddGitHubRepo.integrations teamId nameWithOwner s1) = Some (r.1, g)) as Hhead.
  { destruct (AddGitHubRepo.integrations teamId nameWithOwner s1) as [|[k' g'] rest] eqn:Hi.
    - exfalso.
      assert ((r.1, g) ∈ AddGitHubRepo.integrations teamId nameWithOwner s1) as Hin
        by (by apply Integrations.elem_of_integrations).
      rewrite Hi in Hin. by apply elem_of_nil in Hin.
    - assert ((k', g') ∈ AddGitHubRepo.integrations teamId nameWithOwner s1) as Hin
        by (rewrite Hi; left).
      apply Integrations.elem_of_integrations in Hin as (Hk' & Ht' & Hn').
      assert (k' = r.1) as -> by (apply (Hone1 k' r.1 g' g); congruence).
      cbn [head]. rewrite Hrow in Hk'. by injection Hk' as <-. }
  split.
  - unfold AddGitHubRepo.createOrRehydrate. rewrite Hhead.
    rewrite decide_True by (by rewrite <- Hfix). done.
  - intros later Hlater. unfold AddGitHubRepo.createOrRehydrate. rewrite Hhead.
    rewrite decide_False.
    + rewrite <- Hg. eauto.
    + intros Heq. apply Hlater. rewrite Hfix in Heq.
      by injection Heq.
Qed.

(** X10: an answer of [AddGitHubRepo] that is a [standardError] carries
    one of the four messages and the caller's id, and the world is as it
    was: nothing is written or published, no webhook task is started and
    no id is drawn. *)
Theorem addGitHubRepo_error_payload_leaves_world
    (h : Helpers) (teamId nameWithOwner : string) (ctx : Context) (now : Z) (w : World)
    (message userId : string) :
  (AddGitHubRepo.resolve h teamId nameWithOwner ctx now w).1
    = Returned (AddGitHubRepo.standardError message userId) →
  (AddGitHubRepo.resolve h teamId nameWithOwner ctx now w).2 = w ∧
  userId = getUserId h (authToken ctx) ∧
  message ∈ ["Team not found"; "GitHub Provider not found"; "Unknown GitHub error";
             "Not GitHub Administrator"].
Proof.
  unfold AddGitHubRepo.resolve.
  destruct (isTeamMember h (authToken ctx) teamId); cbn [negb].
  2: { intros [= <- <-]. split; [done|]. split; [done|]. set_solver. }
  rewrite bind_apply. unfold getStore. world.
  destruct (list_find _ _) as [[idx provider]|].
  2: { intros [= <- <-]. split; [done|]. split; [done|]. set_solver. }
  destruct (tokenCanAccessRepo h (p_accessToken provider) nameWithOwner)
    as [[repository|] [|]]; cbn [errors data_repository].
  1, 3: intros [= <- <-]; split; [done|]; split; [done|]; set_solver.
  2: { intros [=]. }
  destruct (viewerCanAdminister repository); cbn [negb].
  2: { intros [= <- <-]. split; [done|]. split; [done|]. set_solver. }
  rewrite AddGitHubRepoFacts.resolution_run. cbv zeta.
  destruct (AddGitHubRepo.createOrRehydrate _ _ _ _ _ _) as [e|[newRepo s1]]; [intros [=]|].
  destruct (maybeJoinRepos h [newRepo] _ s1) as [[ui|e] s2]; intros [=].
Qed.

(** X11: [AddGitHubRepo] publishes once when it succeeds, on the topic
    of the team, the record it returns, with the mutatorId and without an
    operationId; with any other outcome it publishes nothing. *)
Theorem addGitHubRepo_publishes_once_on_success
    (h : Helpers) (teamId nameWithOwner : string) (ctx : Context) (now : Z) (w : World) :
  let run := AddGitHubRepo.resolve h teamId nameWithOwner ctx now in
  (∀ repo, (run w).1 = Returned (AddGitHubRepo.repoAdded repo) →
     publishes_of run w =
       [(mkTopic githubRepoAdded_topic teamId,
         mkPayload (githubRepoAdded repo) None (Some (socketId ctx)))]) ∧
  ((∀ repo, (run w).1 ≠ Returned (AddGitHubRepo.repoAdded repo)) → publishes_of run w = []).
Proof.
  intros run. subst run.
  destruct (AddGitHubRepoFacts.resolve_cases h teamId nameWithOwner ctx now w)
    as [[m Hrun]|[Hrun|(_ & idx & provider & repository & _ & _ & _ & Hrun)]].
  - rewrite (publishes_of_app _ _ _ _ [] Hrun) by (by rewrite app_nil_r).
    rewrite Hrun. cbn [fst]. split; [intros repo [=]|done].
  - rewrite (publishes_of_app _ _ _ _ [] Hrun) by (by rewrite app_nil_r).
    rewrite Hrun. cbn [fst]. split; [intros repo [=]|done].
  - rewrite AddGitHubRepoFacts.resolution_run in Hrun. cbv zeta in Hrun.
    destruct (AddGitHubRepo.createOrRehydrate _ _ _ _ _ _) as [e|[newRepo s1]].
    + rewrite (publishes_of_app _ _ _ _ [] Hrun) by (by rewrite app_nil_r).
      rewrite Hrun. cbn [fst]. split; [intros repo [=]|done].
    + destruct (maybeJoinRepos h [newRepo] _ s1) as [[ui|e] s2].
      * rewrite (publishes_of_app _ _ _ _ _ Hrun eq_refl).
        rewrite Hrun. cbn [fst]. split; [by intros repo [= <-]|].
        intros Hnot. exfalso. by eapply Hnot.
      * rewrite (publishes_of_app _ _ _ _ [] Hrun) by (by rewrite app_nil_r).
        rewrite Hrun. cbn [fst]. split; [intros repo [=]|done].
Qed.

(** X12: the webhook tasks are started before the store is written: when
    the caller passes validation and the drawn id is taken while the key
    has no row, the insert fails, the call throws, the store and the
    publish log are as before, and both webhook tasks have been started
    all the same. *)
Theorem addGitHubRepo_failed_insert_after_webhooks
    (h : Helpers) (teamId nameWithOwner : string) (ctx : Context) (now : Z) (w : World)
    (idx : nat) (provider : Provider) (repository : Repository) (taken : GitHubRepo) :
  isTeamMember h (authToken ctx) teamId = true →
  list_find (λ p, p_userId p = getUserId h (authToken ctx))
    (AddGitHubRepo.allTeamProviders teamId (db w)) = Some (idx, provider) →
  tokenCanAccessRepo h (p_accessToken provider) nameWithOwner
    = mkPermissionsResponse (Some repository) false →
  viewerCanAdminister repository = true →
  AddGitHubRepo.integrations teamId nameWithOwner (db w) = [] →
  GitHub_table (db w) !! shortid_generate h (shortid_calls w) = Some taken →
  let run := AddGitHubRepo.resolve h teamId nameWithOwner ctx now w in
  run.1 = Thrown (ReqlError "Index out of bounds: 0") ∧
  db run.2 = db w ∧ published run.2 = published w ∧
  shortid_calls run.2 = S (shortid_calls w) ∧
  ∃ reqs1 p1 reqs2 p2,
    external run.2 = external w ++ [detached "createRepoWebhook" reqs1 p1;
                                    detached "createOrgWebhook" reqs2 p2] ∧
    (reqs1, p1) = AddGitHubRepo.createRepoWebhook h (p_accessToken provider) nameWithOwner
                    (pretty (databaseId repository)) ∧
    (reqs2, p2) = AddGitHubRepo.createOrgWebhook h (p_accessToken provider) nameWithOwner.
Proof.
  intros Hm Hf Hp Ha Hnone Htaken run. subst run.
  unfold AddGitHubRepo.resolve. rewrite Hm. cbn [negb].
  rewrite bind_apply. unfold getStore. world. rewrite Hf, Hp. cbn [errors data_repository].
  rewrite Ha. cbn [negb].
  rewrite AddGitHubRepoFacts.resolution_run. cbv zeta.
  unfold AddGitHubRepo.createOrRehydrate. rewrite Hnone. cbn [head]. rewrite Htaken.
  cbn [fst snd db published shortid_calls external].
  split; [done|]. split; [done|]. split; [done|]. split; [done|].
  eexists _, _, _, _. split; [reflexivity|]. split; symmetry; apply surjective_pairing.
Qed.

Module Payload.
Import AddGitHubRepo.

Lemma elem_of_teamMembersOf teamId userIds s name picture id :
  (name, picture, id) ∈ teamMembersOf teamId userIds s ↔
  ∃ tm, TeamMember_table s !! id = Some tm ∧ tm_teamId tm = teamId ∧
        tm_userId tm ∈ userIds ∧ name = tm_preferredName tm ∧ picture = tm_picture tm.
Proof.
  unfold teamMembersOf, getAll. rewrite list_elem_of_bind. split.
  - intros (uid & Hin & Huid). apply list_elem_of_fmap in Hin as ([k tm] & Heq & Hin).
    apply list_elem_of_filter in Hin as [Ht Hin]. apply list_elem_of_filter in Hin as [Hu Hin].
    apply elem_of_map_to_list in Hin. cbn in *. injection Heq as -> -> ->.
    exists tm. by subst uid.
  - intros (tm & Hid & Ht & Hu & -> & ->). exists (tm_userId tm). split; [|done].
    apply list_elem_of_fmap. exists (id, tm). split; [done|].
    apply list_elem_of_filter. split; [done|]. apply list_elem_of_filter. split; [done|].
    by apply elem_of_map_to_list.
Qed.
End Payload.

(** X13: in the record [AddGitHubRepo] returns, the list of user ids
    ends with the caller, and the team members listed are exactly the
    TeamMember rows of the team, as stored at the end of the call, of the
    listed users. *)
Theorem addGitHubRepo_payload_lists_caller_and_team_members
    (h : Helpers) (teamId nameWithOwner : string) (ctx : Context) (now : Z) (w : World)
    (repo : PublishedRepo) :
  (AddGitHubRepo.resolve h teamId nameWithOwner ctx now w).1
    = Returned (AddGitHubRepo.repoAdded repo) →
  let s' := db (AddGitHubRepo.resolve h teamId nameWithOwner ctx now w).2 in
  last (gh_userIds (repo_doc repo)) = Some (getUserId h (authToken ctx)) ∧
  ∀ name picture id,
    (name, picture, id) ∈ repo_teamMembers repo ↔
    ∃ tm, TeamMember_table s' !! id = Some tm ∧ tm_teamId tm = teamId ∧
          tm_userId tm ∈ gh_userIds (repo_doc repo) ∧
          name = tm_preferredName tm ∧ picture = tm_picture tm.
Proof.
  destruct (AddGitHubRepoFacts.resolve_cases h teamId nameWithOwner ctx now w)
    as [[m ->]|[->|(_ & idx & provider & repository & _ & _ & _ & ->)]];
    [intros [=]|intros [=]|].
  rewrite AddGitHubRepoFacts.resolution_run. cbv zeta.
  destruct (AddGitHubRepo.createOrRehydrate _ _ _ _ _ _) as [e|[newRepo s1]]; [intros [=]|].
  destruct (maybeJoinRepos h [newRepo] _ s1) as [[ui|e] s2]; [|intros [=]].
  cbn [fst snd db]. intros [= <-].
  cbn [repo_doc repo_teamMembers AddGitHubRepo.set_userIds gh_userIds]. split.
  - apply last_snoc.
  - intros name picture id. apply Payload.elem_of_teamMembersOf.
Qed.

(** X14: the repository webhook task asks for the hooks of the repository
    first; it creates a hook, with the eight repository events and the
    given key, exactly when the answer is an empty list, and its promise
    rejects exactly when that first request fails. *)
Theorem createRepoWebhook_creates_hook_only_when_none
    (h : Helpers) (accessToken nameWithOwner publicKey : string) :
  let endpoint := "https://api.github.com/repos/" +:+ nameWithOwner +:+ "/hooks" in
  let list_hooks := mkHttpRequest GET endpoint accessToken NoBody in
  let create := mkHttpRequest POST endpoint accessToken
                  (CreateHook publicKey AddGitHubRepo.repo_events) in
  let task := AddGitHubRepo.createRepoWebhook h accessToken nameWithOwner publicKey in
  head task.1 = Some list_hooks ∧
  (fetch h list_hooks = JsonArray 0 → task = ([list_hooks; create], Resolved)) ∧
  (fetch h list_hooks ≠ JsonArray 0 → task.1 = [list_hooks]) ∧
  (task.2 = Rejected ↔ fetch h list_hooks = NetworkFailure).
Proof.
  cbv zeta. unfold AddGitHubRepo.createRepoWebhook.
  destruct (fetch h _) as [|[|n]| |]; cbn [fst snd head];
    (split; [done|]); (split; [done|]); (split; [done|]); split; done.
Qed.

(** X15: the organization webhook task asks for the hooks of the owner
    (the text before the first [/]); only when the answer is an empty
    list it asks for the organization, and only when that answer has no
    errors and names the organization it creates a hook for the
    [organization] event, keyed by the organization's database id;
    otherwise the task rejects after the second request. *)
Theorem createOrgWebhook_creates_hook_only_for_an_organization
    (h : Helpers) (accessToken nameWithOwner : string) :
  let owner := AddGitHubRepo.owner_of nameWithOwner in
  let endpoint := "https://api.github.com/orgs/" +:+ owner +:+ "/hooks" in
  let list_hooks := mkHttpRequest GET endpoint accessToken NoBody in
  let get_profile := mkHttpRequest POST (GITHUB_ENDPOINT h) accessToken
                       (Query AddGitHubRepo.getOrgQuery owner) in
  let task := AddGitHubRepo.createOrgWebhook h accessToken nameWithOwner in
  (fetch h list_hooks = NetworkFailure → task = ([list_hooks], Rejected)) ∧
  (fetch h list_hooks ≠ JsonArray 0 → fetch h list_hooks ≠ NetworkFailure →
     task = ([list_hooks], Resolved)) ∧
  (fetch h list_hooks = JsonArray 0 →
     (∀ databaseId, fetch h get_profile = JsonProfile false (Some databaseId) →
        task = ([list_hooks; get_profile;
                 mkHttpRequest POST endpoint accessToken
                   (CreateHook (pretty databaseId) ["organization"])], Resolved)) ∧
     ((∀ databaseId, fetch h get_profile ≠ JsonProfile false (Some databaseId)) →
        task = ([list_hooks; get_profile], Rejected))).
Proof.
  cbv zeta. unfold AddGitHubRepo.createOrgWebhook.
  destruct (fetch h (mkHttpRequest GET _ _ _)) as [|[|n]| |];
    (split; [done|]); (split; [done|]); try done.
  intros _. split.
  - intros databaseId ->. done.
  - intros Hnot. destruct (fetch h (mkHttpRequest POST _ _ _)) as [| |[|] [z|]|]; try done.
    exfalso. by apply (Hnot z).
Qed.

Module Owner.
Import AddGitHubRepo.

Lemma owner_of_no_slash s : ¬ has_slash (owner_of s).
Proof.
  unfold has_slash. induction s as [|c s IH]; cbn [owner_of].
  - cbn. apply not_elem_of_nil.
  - destruct (Ascii.eqb c (Ascii.ascii_of_nat 47)) eqn:Hc.
    + cbn. apply not_elem_of_nil.
    + cbn [String.list_ascii_of_string]. rewrite not_elem_of_cons. split; [|exact IH].
      intros Heq. rewrite <- Heq, Ascii.eqb_refl in Hc. discriminate Hc.
Qed.

Lemma owner_of_append owner rest :
  ¬ has_slash owner → owner_of (owner +:+ String (Ascii.ascii_of_nat 47) rest) = owner.
Proof.
  unfold has_slash. induction owner as [|c owner IH]; intros Hn.
  - reflexivity.
  - cbn [String.list_ascii_of_string] in Hn. apply not_elem_of_cons in Hn as [Hc Hn].
    change (String c owner +:+ String (Ascii.ascii_of_nat 47) rest)
      with (String c (owner +:+ String (Ascii.ascii_of_nat 47) rest)).
    cbn [owner_of].
    destruct (Ascii.eqb c (Ascii.ascii_of_nat 47)) eqn:E.
    + apply Ascii.eqb_eq in E. congruence.
    + f_equal. by apply IH.
Qed.

Lemma owner_of_whole s : ¬ has_slash s → owner_of s = s.
Proof.
  unfold has_slash. induction s as [|c s IH]; intros Hn; [done|].
  cbn [String.list_ascii_of_string] in Hn. apply not_elem_of_cons in Hn as [Hc Hn].
  cbn [owner_of]. destruct (Ascii.eqb c (Ascii.ascii_of_nat 47)) eqn:E.
  - apply Ascii.eqb_eq in E. congruence.
  - f_equal. by apply IH.
Qed.
End Owner.

(** X16: the owner that [createOrgWebhook] takes from [nameWithOwner] is
    the text before the first [/]: it holds no [/], it is the owner of
    every [owner/name] whose owner holds no [/], and it is the whole text
    when there is no [/] at all. *)
Theorem owner_of_is_text_before_first_slash (owner rest : string) :
  ¬ has_slash (AddGitHubRepo.owner_of rest) ∧
  (¬ has_slash owner →
     AddGitHubRepo.owner_of (owner +:+ "/" +:+ rest) = owner ∧
     AddGitHubRepo.owner_of owner = owner).
Proof.
  split; [apply Owner.owner_of_no_slash|]. intros Hn. split.
  - apply (Owner.owner_of_append owner rest Hn).
  - by apply Owner.owner_of_whole.
Qed.

Module InviteLog.
Import InviteTeamMembers.

Lemma lookup_reactivationPublishes h teamId ctx (rs : list Reactivation) i r :
  rs !! i = Some r →
  (rs ≫= reactivationPublishes h teamId ctx) !! (2 * i) =
    Some (mkTopic TEAM_MEMBER teamId,
          mkPayload (data_teamMember (teamMemberId r) (REJOIN_TEAM, teamId, preferredName r)
                       ADDED)
            (Some (dataLoader_operationId ctx)) (Some (socketId ctx))) ∧
  (rs ≫= reactivationPublishes h teamId ctx) !! (2 * i + 1) =
    Some (mkTopic subscriptions_TEAM (fromTeamMemberId_userId h (teamMemberId r)),
          mkPayload (data_teamNotification teamId (notificationId r) ADDED)
            (Some (dataLoader_operationId ctx)) (Some (socketId ctx))).
Proof.
  revert i. induction rs as [|r0 rs IH]; intros i Hi; [done|].
  rewrite bind_cons. unfold reactivationPublishes at 1 3. cbn [app].
  destruct i as [|i].
  - cbn in Hi. injection Hi as ->. done.
  - cbn in Hi. replace (2 * S i) with (S (S (2 * i))) by lia.
    replace (S (S (2 * i)) + 1) with (S (S (2 * i + 1))) by lia.
    cbn [lookup list_lookup]. by apply IH.
Qed.

Lemma length_reactivationPublishes h teamId ctx (rs : list Reactivation) :
  length (rs ≫= reactivationPublishes h teamId ctx) = 2 * length rs.
Proof. induction rs as [|r rs IH]; csimpl; [done|]. rewrite IH. lia. Qed.
End InviteLog.

(** X17: a failure of the safe mutation ends the invitation resolver with
    that failure and with the world the safe mutation left: the resolver
    publishes nothing of its own. *)
Theorem inviteTeamMembers_failure_propagates
    (h : Helpers)
    (safeMutation : list InviteTeamMembers.Invitee → string → string → SubOptions →
                    M (list InviteTeamMembers.Reactivation * list string))
    (invitees : list InviteTeamMembers.Invitee) (teamId : string) (ctx : Context)
    (w w2 : World) (e : Failure) :
  requireOrgLeaderOrTeamMember h (db w) (authToken ctx) teamId = true →
  safeMutation invitees teamId (getUserId h (authToken ctx))
    (mkSubOptions (socketId ctx) (dataLoader_operationId ctx)) (shared w) = (Thrown e, w2) →
  InviteTeamMembers.resolve_with h safeMutation invitees teamId ctx w = (Thrown e, w2).
Proof.
  intros Hauth Hsafe. by rewrite InviteFacts.resolve_with_run, Hauth, Hsafe.
Qed.

(** X18: when the safe mutation returns, the resolver hands its results
    on, returns the team-member ids of the reactivations in their order,
    writes nothing, and publishes two events per reactivation, in that
    order: the team-member event on the topic of the team, then the event
    on the topic of the user that the team-member id names. *)
Theorem inviteTeamMembers_events_follow_reactivations
    (h : Helpers)
    (safeMutation : list InviteTeamMembers.Invitee → string → string → SubOptions →
                    M (list InviteTeamMembers.Reactivation * list string))
    (invitees : list InviteTeamMembers.Invitee) (teamId : string) (ctx : Context)
    (w w2 : World) (reactivations : list InviteTeamMembers.Reactivation)
    (results : list string) :
  requireOrgLeaderOrTeamMember h (db w) (authToken ctx) teamId = true →
  safeMutation invitees teamId (getUserId h (authToken ctx))
    (mkSubOptions (socketId ctx) (dataLoader_operationId ctx)) (shared w)
    = (Returned (reactivations, results), w2) →
  let run := InviteTeamMembers.resolve_with h safeMutation invitees teamId ctx w in
  let new := drop (length (published w2)) (published run.2) in
  run.1 = Returned (InviteTeamMembers.mkInviteTeamMembersPayload
                      (InviteTeamMembers.teamMemberId <$> reactivations) results) ∧
  db run.2 = db w2 ∧ external run.2 = external w2 ∧
  length new = 2 * length reactivations ∧
  ∀ i r, reactivations !! i = Some r →
    new !! (2 * i) =
      Some (mkTopic TEAM_MEMBER teamId,
            mkPayload (data_teamMember (InviteTeamMembers.teamMemberId r)
                         (REJOIN_TEAM, teamId, InviteTeamMembers.preferredName r) ADDED)
              (Some (dataLoader_operationId ctx)) (Some (socketId ctx))) ∧
    new !! (2 * i + 1) =
      Some (mkTopic subscriptions_TEAM
              (fromTeamMemberId_userId h (InviteTeamMembers.teamMemberId r)),
            mkPayload (data_teamNotification teamId (InviteTeamMembers.notificationId r) ADDED)
              (Some (dataLoader_operationId ctx)) (Some (socketId ctx))).
Proof.
  intros Hauth Hsafe run new. subst new run.
  rewrite InviteFacts.resolve_with_run, Hauth, Hsafe.
  cbn [fst snd db published external]. rewrite drop_app_length.
  split; [done|]. split; [done|]. split; [done|].
  split; [apply InviteLog.length_reactivationPublishes|].
  intros i r Hi. by apply InviteLog.lookup_reactivationPublishes.
Qed.

(** X19: the events of one [archiveTeam] call come in a fixed order: the
    notification events first, then, only when the call returns, the
    team-update event followed by the auth-token events; a call that
    throws publishes at most notification events.  One id is drawn per
    notification event. *)
Theorem archiveTeam_event_order
    (h : Helpers) (teamId : string) (ctx : Context) (now : Z) (w : World) :
  let run := ArchiveTeam.resolve h teamId ctx now in
  ∃ (ns : list (string * Notification)) (us : list (string * list string)),
    publishes_of run w =
      (notificationPublish <$> ns) ++
      match (run w).1 with
      | Returned _ => teamPublish teamId ctx :: (authTokenPublish h <$> us)
      | Thrown _ => []
      end ∧
    shortid_calls (run w).2 = shortid_calls w + length ns.
Proof.
  intros run. subst run.
  pose proof (ArchiveTeamFacts.resolve_run h teamId ctx now w) as Hrun. cbv zeta in Hrun.
  destruct (requireTeamLead h (db w) _).
  - destruct (ArchiveTeam.query teamId (db w)) as [e|[res s']].
    + exists [], []. rewrite Hrun. cbn [fst snd shortid_calls]. split; [|cbn [Datatypes.length]; lia].
      eapply publishes_of_app; [exact Hrun|]. cbn. by rewrite app_nil_r.
    + destruct (ArchiveTeam.teamResult res) as [t|].
      * eexists _, (ArchiveTeam.userDocs res). rewrite Hrun. cbn [fst snd shortid_calls].
        split; [|reflexivity].
        eapply publishes_of_app; [exact Hrun|]. cbn [published]. by rewrite <- app_assoc.
      * eexists _, []. rewrite Hrun. cbn [fst snd shortid_calls]. split; [|reflexivity].
        eapply publishes_of_app; [exact Hrun|]. cbn [published]. by rewrite app_nil_r.
  - exists [], []. rewrite Hrun. cbn [fst snd shortid_calls]. split; [|cbn [Datatypes.length]; lia].
    eapply publishes_of_app; [exact Hrun|]. cbn. by rewrite app_nil_r.
Qed.

Lemma insert_docs_keeps {A} (docs : list (string * A)) (t : gmap string A) id x :
  t !! id = Some x → insert_docs docs t !! id = Some x.
Proof.
  revert t. unfold insert_docs. induction docs as [|[k d] docs IH]; intros t Hid; [done|].
  cbn [foldl]. apply IH. unfold insert_doc. cbn [fst snd].
  destruct (t !! k) eqn:Hk; [done|]. rewrite lookup_insert_ne; [done|]. congruence.
Qed.

(** X20: whatever the outcome, [archiveTeam] keeps every notification the
    store held: a row of table Notification is neither removed nor
    overwritten, also when a drawn id is taken already. *)
Theorem archiveTeam_keeps_stored_notifications
    (h : Helpers) (teamId : string) (ctx : Context) (now : Z) (w : World)
    (id : string) (n : Notification) :
  Notification_table (db w) !! id = Some n →
  Notification_table (db (ArchiveTeam.resolve h teamId ctx now w).2) !! id = Some n.
Proof.
  intros Hid.
  destruct (decide (requireTeamLead h (db w)
                      (toTeamMemberId h teamId (getUserId h (authToken ctx))) = true))
    as [Hlead|Hn];
    [|rewrite ArchiveFrame.resolve_store_unchanged by (by left); done].
  destruct (Team_table (db w) !! teamId) as [team|] eqn:Ht;
    [|rewrite ArchiveFrame.resolve_store_unchanged by (by right); done].
  destruct (ArchiveFrame.resolve_store h teamId ctx now w team Hlead Ht) as [ns ->].
  cbn [Notification_table]. by apply insert_docs_keeps.
Qed.

(** X1 at [DemoMore.orphaned]. *)
Lemma archiveTeam_missing_team_witness :
  isLead Demo.h "t9" (Demo.ctx_of "u1" ["t9"]) DemoMore.orphaned ∧
  Team_table DemoMore.orphaned !! "t9" = None ∧
  db (ArchiveTeam.resolve Demo.h "t9" (Demo.ctx_of "u1" ["t9"]) 100%Z
        (Demo.world_of DemoMore.orphaned)).2 = DemoMore.orphaned.
Proof.
  split; [vm_compute; reflexivity|]. split; [vm_compute; reflexivity|].
  apply (archiveTeam_missing_team Demo.h "t9" (Demo.ctx_of "u1" ["t9"]) 100%Z
           (Demo.world_of DemoMore.orphaned)); vm_compute; reflexivity.
Defined.

(** X2 at [Demo.trio]: [u2] is a member, and its tms no longer holds the team. *)
Lemma archiveTeam_strips_team_from_members_witness :
  isLead Demo.h "t3" (Demo.ctx_of "u1" ["t3"]) Demo.trio ∧
  Team_table Demo.trio !! "t3" = Some (mkTeam "Gamma" "o1" false) ∧
  "u2" ∈ ArchiveTeam.activeUserIds "t3" Demo.trio ∧
  ∀ u', User_table (db (ArchiveTeam.resolve Demo.h "t3" (Demo.ctx_of "u1" ["t3"]) 100%Z
                          (Demo.world_of Demo.trio)).2) !! "u2" = Some u' →
        "t3" ∉ user_tms u'.
Proof.
  assert ("u2" ∈ ArchiveTeam.activeUserIds "t3" Demo.trio) as Hin
    by (vm_compute; set_solver).
  split; [vm_compute; reflexivity|]. split; [vm_compute; reflexivity|]. split; [exact Hin|].
  intros u'.
  destruct (archiveTeam_strips_team_from_members Demo.h "t3" (Demo.ctx_of "u1" ["t3"]) 100%Z
              (Demo.world_of Demo.trio) (mkTeam "Gamma" "o1" false)) as [_ Hstrip];
    [vm_compute; reflexivity | vm_compute; reflexivity |].
  exact (Hstrip "u2" u' Hin).
Defined.

(** X3 at [Demo.trio]. *)
Lemma archiveTeam_renews_tokens_of_changed_users_witness :
  isLead Demo.h "t3" (Demo.ctx_of "u1" ["t3"]) Demo.trio ∧
  Team_table Demo.trio !! "t3" = Some (mkTeam "Gamma" "o1" false) ∧
  ∃ us : list (string * list string),
    on_kind NEW_AUTH_TOKEN
      (publishes_of (ArchiveTeam.resolve Demo.h "t3" (Demo.ctx_of "u1" ["t3"]) 100%Z)
         (Demo.world_of Demo.trio)) = authTokenPublish Demo.h <$> us ∧
    NoDup us.*1.
Proof.
  split; [vm_compute; reflexivity|]. split; [vm_compute; reflexivity|].
  destruct (archiveTeam_renews_tokens_of_changed_users Demo.h "t3" (Demo.ctx_of "u1" ["t3"])
              100%Z (Demo.world_of Demo.trio) (mkTeam "Gamma" "o1" false))
    as (us & Hlog & _ & Hnd & _);
    [vm_compute; reflexivity | vm_compute; reflexivity | right; reflexivity |].
  exists us. split; [exact Hlog|exact Hnd].
Defined.

(** X4 at [Demo.trio_archived]. *)
Lemma archiveTeam_already_archived_side_effects_witness :
  isLead Demo.h "t3" (Demo.ctx_of "u1" ["t3"]) Demo.trio_archived ∧
  Team_table Demo.trio_archived !! "t3" = Some (mkTeam "Gamma" "o1" true) ∧
  ¬ hardDeletes "t3" Demo.trio_archived ∧
  ∃ ns : list (string * Notification),
    length ns = 3 ∧
    publishes_of (ArchiveTeam.resolve Demo.h "t3" (Demo.ctx_of "u1" ["t3"]) 100%Z)
      (Demo.world_of Demo.trio_archived) = notificationPublish <$> ns.
Proof.
  assert (¬ hardDeletes "t3" Demo.trio_archived) as Hn
    by (intros [_ H]; vm_compute in H; discriminate H).
  split; [vm_compute; reflexivity|]. split; [vm_compute; reflexivity|]. split; [exact Hn|].
  destruct (archiveTeam_already_archived_side_effects Demo.h "t3" (Demo.ctx_of "u1" ["t3"])
              100%Z (Demo.world_of Demo.trio_archived) (mkTeam "Gamma" "o1" true))
    as (ns & Hlen & _ & _ & _ & _ & Hlog & _);
    [vm_compute; reflexivity | vm_compute; reflexivity | reflexivity | exact Hn |].
  exists ns. split; [exact Hlen|exact Hlog].
Defined.

(** X6 at [Demo.trio]. *)
Lemma archiveTeam_twice_is_refused_witness :
  isLead Demo.h "t3" (Demo.ctx_of "u1" ["t3"]) Demo.trio ∧
  Team_table Demo.trio !! "t3" = Some (mkTeam "Gamma" "o1" false) ∧
  ¬ hardDeletes "t3" Demo.trio ∧
  let w1 := (ArchiveTeam.resolve Demo.h "t3" (Demo.ctx_of "u1" ["t3"]) 100%Z
               (Demo.world_of Demo.trio)).2 in
  isLead Demo.h "t3" (Demo.ctx_of "u1" ["t3"]) (db w1) ∧
  (ArchiveTeam.resolve Demo.h "t3" (Demo.ctx_of "u1" ["t3"]) 200%Z w1).1
    = Thrown (Error "Team was already archived").
Proof.
  assert (¬ hardDeletes "t3" Demo.trio) as Hn
    by (intros [_ H]; vm_compute in H; discriminate H).
  assert (isLead Demo.h "t3" (Demo.ctx_of "u1" ["t3"])
            (db (ArchiveTeam.resolve Demo.h "t3" (Demo.ctx_of "u1" ["t3"]) 100%Z
                   (Demo.world_of Demo.trio)).2)) as Hlead2 by (vm_compute; reflexivity).
  split; [vm_compute; reflexivity|]. split; [vm_compute; reflexivity|]. split; [exact Hn|].
  split; [exact Hlead2|].
  apply (archiveTeam_twice_is_refused Demo.h "t3" (Demo.ctx_of "u1" ["t3"])
           (Demo.ctx_of "u1" ["t3"]) 100%Z 200%Z (Demo.world_of Demo.trio)
           (mkTeam "Gamma" "o1" false));
    [vm_compute; reflexivity | vm_compute; reflexivity | exact Hn | exact Hlead2].
Defined.

(** X8 at [Demo.linked]. *)
Lemma addGitHubRepo_first_add_inserts_one_row_witness :
  AddGitHubRepo.integrations "t1" "acme/app" Demo.linked = [] ∧
  GitHub_table Demo.linked !! "id0" = None ∧
  ∃ s', AddGitHubRepo.createOrRehydrate "id0" "t1" "acme/app" "u1" 100%Z Demo.linked
          = inr (("id0", mkGitHubRepo "u1" 100%Z 100%Z true "acme/app" "t1" ["u1"]), s') ∧
        size (GitHub_table s') = 1.
Proof.
  split; [vm_compute; reflexivity|]. split; [vm_compute; reflexivity|].
  destruct (addGitHubRepo_first_add_inserts_one_row "id0" "t1" "acme/app" "u1" 100%Z
              Demo.linked) as (s' & Hrun & _ & Hsize & _);
    [vm_compute; reflexivity | vm_compute; reflexivity |].
  exists s'. split; [exact Hrun|exact Hsize].
Defined.

(** X9 at [Demo.linked]: the same write again fails. *)
Lemma addGitHubRepo_same_write_again_fails_witness :
  one_per_key (GitHub_table Demo.linked) ∧
  AddGitHubRepo.createOrRehydrate "id0" "t1" "acme/app" "u1" 100%Z Demo.linked
    = inr (("id0", mkGitHubRepo "u1" 100%Z 100%Z true "acme/app" "t1" ["u1"]),
           DemoMore.added) ∧
  AddGitHubRepo.createOrRehydrate "id1" "t1" "acme/app" "u1" 100%Z DemoMore.added
    = inl (ReqlError "Index out of bounds: 0").
Proof.
  assert (one_per_key (GitHub_table Demo.linked)) as Hone
    by (intros k1 k2 g1 g2 H1; cbn in H1; by rewrite lookup_empty in H1).
  assert (AddGitHubRepo.createOrRehydrate "id0" "t1" "acme/app" "u1" 100%Z Demo.linked
          = inr (("id0", mkGitHubRepo "u1" 100%Z 100%Z true "acme/app" "t1" ["u1"]),
                 DemoMore.added)) as Hrun by reflexivity.
  split; [exact Hone|]. split; [exact Hrun|].
  apply (addGitHubRepo_same_write_again_fails "id0" "id1" "t1" "acme/app" "u1" 100%Z
           Demo.linked DemoMore.added _ Hone Hrun).
Defined.

(** X10 at [Demo.linked]: a caller outside the team. *)
Lemma addGitHubRepo_error_payload_leaves_world_witness :
  (AddGitHubRepo.resolve Demo.h "t1" "acme/app" (Demo.ctx_of "u9" []) 100%Z
     (Demo.world_of Demo.linked)).1
    = Returned (AddGitHubRepo.standardError "Team not found" "u9") ∧
  (AddGitHubRepo.resolve Demo.h "t1" "acme/app" (Demo.ctx_of "u9" []) 100%Z
     (Demo.world_of Demo.linked)).2 = Demo.world_of Demo.linked.
Proof.
  assert ((AddGitHubRepo.resolve Demo.h "t1" "acme/app" (Demo.ctx_of "u9" []) 100%Z
             (Demo.world_of Demo.linked)).1
          = Returned (AddGitHubRepo.standardError "Team not found" "u9")) as Hret
    by reflexivity.
  split; [exact Hret|].
  apply (addGitHubRepo_error_payload_leaves_world Demo.h "t1" "acme/app"
           (Demo.ctx_of "u9" []) 100%Z (Demo.world_of Demo.linked) _ _ Hret).
Defined.

(** X12 at [DemoMore.crowded]. *)
Lemma addGitHubRepo_failed_insert_after_webhooks_witness :
  AddGitHubRepo.integrations "t1" "acme/app" DemoMore.crowded = [] ∧
  GitHub_table DemoMore.crowded !! "id0"
    = Some (mkGitHubRepo "u2" 5%Z 5%Z true "acme/other" "t1" ["u2"]) ∧
  let run := AddGitHubRepo.resolve Demo.h "t1" "acme/app" (Demo.ctx_of "u1" ["t1"]) 100%Z
               (Demo.world_of DemoMore.crowded) in
  run.1 = Thrown (ReqlError "Index out of bounds: 0") ∧ db run.2 = DemoMore.crowded.
Proof.
  split; [vm_compute; reflexivity|]. split; [vm_compute; reflexivity|].
  destruct (addGitHubRepo_failed_insert_after_webhooks Demo.h "t1" "acme/app"
              (Demo.ctx_of "u1" ["t1"]) 100%Z (Demo.world_of DemoMore.crowded) 0
              (mkProvider "t1" "u1" GITHUB true "token1") (mkRepository true 42%Z)
              (mkGitHubRepo "u2" 5%Z 5%Z true "acme/other" "t1" ["u2"]))
    as (Hout & Hdb & _); try (vm_compute; reflexivity).
  split; [exact Hout|exact Hdb].
Defined.

(** X13 at [Demo.linked]. *)
Lemma addGitHubRepo_payload_lists_caller_and_team_members_witness :
  ∃ repo,
    (AddGitHubRepo.resolve Demo.h "t1" "acme/app" (Demo.ctx_of "u1" ["t1"]) 100%Z
       (Demo.world_of Demo.linked)).1 = Returned (AddGitHubRepo.repoAdded repo) ∧
    last (gh_userIds (repo_doc repo)) = Some "u1".
Proof.
  eexists. split; [vm_compute; reflexivity|].
  refine (proj1 (addGitHubRepo_payload_lists_caller_and_team_members Demo.h "t1" "acme/app"
                   (Demo.ctx_of "u1" ["t1"]) 100%Z (Demo.world_of Demo.linked) _ _)).
  vm_compute. reflexivity.
Defined.

(** X17 with a safe mutation that fails. *)
Lemma inviteTeamMembers_failure_propagates_witness :
  requireOrgLeaderOrTeamMember Demo.h Demo.with_removed
    (authToken (Demo.ctx_of "u1" ["t1"])) "t1" = true ∧
  InviteTeamMembers.resolve_with Demo.h DemoMore.failing_safe [] "t1"
    (Demo.ctx_of "u1" ["t1"]) (Demo.world_of Demo.with_removed)
  = (Thrown TypeError, shared (Demo.world_of Demo.with_removed)).
Proof.
  split; [vm_compute; reflexivity|].
  apply (inviteTeamMembers_failure_propagates Demo.h DemoMore.failing_safe [] "t1"
           (Demo.ctx_of "u1" ["t1"]) (Demo.world_of Demo.with_removed));
    [vm_compute; reflexivity | reflexivity].
Defined.

(** X18 with a safe mutation that reports one reactivation. *)
Lemma inviteTeamMembers_events_follow_reactivations_witness :
  requireOrgLeaderOrTeamMember Demo.h Demo.with_removed
    (authToken (Demo.ctx_of "u1" ["t1"])) "t1" = true ∧
  (InviteTeamMembers.resolve_with Demo.h DemoMore.fixed_safe [] "t1"
     (Demo.ctx_of "u1" ["t1"]) (Demo.world_of Demo.with_removed)).1
  = Returned (InviteTeamMembers.mkInviteTeamMembersPayload ["u2::t1"] ["new@x.io"]).
Proof.
  split; [vm_compute; reflexivity|].
  refine (proj1 (inviteTeamMembers_events_follow_reactivations Demo.h DemoMore.fixed_safe []
                   "t1" (Demo.ctx_of "u1" ["t1"]) (Demo.world_of Demo.with_removed)
                   (shared (Demo.world_of Demo.with_removed))
                   [InviteTeamMembers.mkReactivation "n1" "u2::t1" "u2"] ["new@x.io"] _ _));
    [vm_compute; reflexivity | reflexivity].
Defined.

(** X20 at [Demo.trio] with a notification stored under the first id. *)
Lemma archiveTeam_keeps_stored_notifications_witness :
  let w := Demo.world_of
             (set_Notification_table
                {[ "id0" := mkNotification "o1" 1%Z REJOIN_TEAM ["u7"] "Old" ]} Demo.trio) in
  Notification_table (db w) !! "id0" = Some (mkNotification "o1" 1%Z REJOIN_TEAM ["u7"] "Old") ∧
  Notification_table (db (ArchiveTeam.resolve Demo.h "t3" (Demo.ctx_of "u1" ["t3"]) 100%Z w).2)
    !! "id0" = Some (mkNotification "o1" 1%Z REJOIN_TEAM ["u7"] "Old").
Proof.
  cbv zeta. split; [vm_compute; reflexivity|].
  apply archiveTeam_keeps_stored_notifications. vm_compute. reflexivity.
Defined.
